(** * xscraper: the analyzer pipeline and the scraper state, verified

    A shallow embedding of [src/analyzer.py], [src/scraper.py] and
    [src/scrapers/reddit_scraper.py], with the properties the specification
    states about them.

    Conventions of the embedding.
    - A Python [str] is a sequence of code points; it is embedded as a Rocq
      [string], one element per code point, which holds the code points
      below 256 (ASCII and Latin-1).  The character classes of the regular
      expressions and of the [str] methods ([\s], [\w], [str.strip],
      [str.split], [str.lower], case folding under [re.IGNORECASE]) are
      those of Python on that range.
    - A pandas cell is a [cell]: a missing value ([NaN]), a [str] or an
      [int].  A row is a finite map from column labels to cells, a
      DataFrame is its column index and its rows.
    - External services (Telegram, Gemini, the spreadsheet, the clock) are
      parameters: Section variables, or explicit outcomes given as input.
    - Python exceptions are values of type [exn]; a computation that may raise
      returns a [result]. *)

From Stdlib Require Import Ascii String.
From stdpp Require Import gmap strings list sorting pretty.

Open Scope Z_scope.

(** ** Text: the [str] operations the code uses *)

Module Text.

(** [str.isspace] on a code point: TAB, LF, VT, FF, CR, FS, GS, RS, US and
    SPACE, and in Latin-1 NEL (U+0085) and NO-BREAK SPACE (U+00A0).  The
    same class is [\s] in a [str] pattern, the default of [str.strip] and
    the separator of [str.split()]. *)
Definition is_space (c : ascii) : bool :=
  let n := nat_of_ascii c in
  ((9 <=? n)%nat && (n <=? 13)%nat) || ((28 <=? n)%nat && (n <=? 32)%nat)
  || (n =? 133)%nat || (n =? 160)%nat.

(** The Latin-1 code points that [str.isalnum] takes: the letters (the
    ordinal indicators, MICRO SIGN, U+00C0 to U+00FF without the
    multiplication and division signs) and the numeric characters
    (superscript digits and vulgar fractions). *)
Definition is_latin1_alnum (n : nat) : bool :=
  (n =? 170)%nat || (n =? 178)%nat || (n =? 179)%nat || (n =? 181)%nat
  || (n =? 185)%nat || (n =? 186)%nat
  || ((188 <=? n)%nat && (n <=? 190)%nat)
  || ((192 <=? n)%nat && (n <=? 214)%nat)
  || ((216 <=? n)%nat && (n <=? 246)%nat)
  || ((248 <=? n)%nat && (n <=? 255)%nat).

(** [\w] in a [str] pattern: the alphanumeric code points and the
    underscore. *)
Definition is_word (c : ascii) : bool :=
  let n := nat_of_ascii c in
  ((48 <=? n)%nat && (n <=? 57)%nat)
  || ((65 <=? n)%nat && (n <=? 90)%nat)
  || ((97 <=? n)%nat && (n <=? 122)%nat)
  || (n =? 95)%nat
  || is_latin1_alnum n.

(** [str.lower] on a code point, which is also the case folding of
    [re.IGNORECASE]: two code points below 256 match under the flag exactly
    when they have the same image.  The upper-case letters are [A] to [Z]
    and U+00C0 to U+00DE without the multiplication sign. *)
Definition lower (c : ascii) : ascii :=
  let n := nat_of_ascii c in
  if ((65 <=? n)%nat && (n <=? 90)%nat)
     || ((192 <=? n)%nat && (n <=? 214)%nat)
     || ((216 <=? n)%nat && (n <=? 222)%nat)
  then ascii_of_nat (n + 32) else c.

Fixpoint all_chars (p : ascii -> bool) (s : string) : bool :=
  match s with
  | EmptyString => true
  | String c s' => p c && all_chars p s'
  end.

(** [s.lstrip()] *)
Fixpoint lstrip (s : string) : string :=
  match s with
  | EmptyString => EmptyString
  | String c s' => if is_space c then lstrip s' else s
  end.

(** [s.rstrip()] *)
Fixpoint rstrip (s : string) : string :=
  match s with
  | EmptyString => EmptyString
  | String c s' =>
      match rstrip s' with
      | EmptyString => if is_space c then EmptyString else String c EmptyString
      | r => String c r
      end
  end.

(** [s.strip()] *)
Definition strip (s : string) : string := rstrip (lstrip s).

(** [s.startswith(p)] *)
Definition startswith (p s : string) : bool := String.prefix p s.

(** [s[:n]] *)
Fixpoint slice_to (n : nat) (s : string) : string :=
  match n, s with
  | O, _ => EmptyString
  | _, EmptyString => EmptyString
  | S n', String c s' => String c (slice_to n' s')
  end.

(** [sep.join(l)] *)
Definition join (sep : string) (l : list string) : string := String.concat sep l.

(** Truthiness of a [str]: the empty string is falsy. *)
Definition truthy (s : string) : bool :=
  match s with EmptyString => false | _ => true end.

(** Line boundaries of [str.splitlines]: LF, VT, FF, CR, FS, GS, RS and
    NEL. *)
Definition is_linebreak (c : ascii) : bool :=
  let n := nat_of_ascii c in
  ((10 <=? n)%nat && (n <=? 13)%nat) || ((28 <=? n)%nat && (n <=? 30)%nat)
  || (n =? 133)%nat.

Fixpoint until_linebreak (s : string) : string :=
  match s with
  | EmptyString => EmptyString
  | String c s' => if is_linebreak c then EmptyString else String c (until_linebreak s')
  end.

(** [s.splitlines()[0]]: [None] stands for the [IndexError] of indexing the
    empty list, which [splitlines] returns exactly for the empty string. *)
Definition first_line (s : string) : option string :=
  match s with
  | EmptyString => None
  | _ => Some (until_linebreak s)
  end.

End Text.

(** ** Exceptions *)

(** The exceptions the modelled code catches.  All of them derive from
    [Exception]; [RequestException] is the class that the first handler of
    the notification function names. *)
Inductive exn : Type :=
| RequestException (e : string)
| IndexError
| KeyError (key : string)
| OtherException (e : string).

Inductive result (A : Type) : Type :=
| Ok (a : A)
| Raise (e : exn).
Arguments Ok {A} a.
Arguments Raise {A} e.

Definition is_request_exception (e : exn) : bool :=
  match e with RequestException _ => true | _ => false end.

(** ** The notification channel

    [send_telegram_notification] is defined three times, in [analyzer.py],
    [scraper.py] and [reddit_scraper.py], with the same body; the copy of the
    reddit scraper has its two progress prints commented out ([verbose] is
    [false] there). *)

Module Telegram.

Record Payload := { chat_id : string; text : string }.
Record Response := { status_code : Z }.

Inductive Effect : Type :=
| Posted (url : string) (p : Payload)
| Printed (line : string).

Definition max_len : nat := 4096.

(** [message[:max_len] if len(message) > max_len else message] *)
Definition truncated_message (message : string) : string :=
  if (max_len <? String.length message)%nat then Text.slice_to max_len message
  else message.

(** [response.raise_for_status()]: an HTTPError, which is a
    RequestException, for a 4xx or 5xx status. *)
Definition raise_for_status (r : Response) : result unit :=
  if (400 <=? status_code r) && (status_code r <? 600)
  then Raise (RequestException "HTTPError")
  else Ok tt.

Definition not_configured (v : option string) : bool :=
  match v with
  | None => true
  | Some s => negb (Text.truthy s)
  end.

Section Send.
(** Module-level configuration and the transport, [requests.post]. *)
Variable TELEGRAM_BOT_TOKEN TELEGRAM_CHAT_ID : option string.
Variable post : string -> Payload -> result Response.
Variable verbose : bool.

(** The body of the [try] block: its effects and how it ends. *)
Definition try_body (send_url : string) (payload : Payload)
  : list Effect * result unit :=
  match post send_url payload with
  | Raise e => ([Posted send_url payload], Raise e)
  | Ok response =>
      match raise_for_status response with
      | Raise e => ([Posted send_url payload], Raise e)
      | Ok _ =>
          if verbose then
            match Text.first_line (Text.slice_to 70 (text payload)) with
            | None => ([Posted send_url payload], Raise IndexError)
            | Some l =>
                ([Posted send_url payload;
                  Printed ("Sent Telegram notification: " +:+ l +:+ "...")],
                 Ok tt)
            end
          else ([Posted send_url payload], Ok tt)
      end
  end.

(** The two handlers: [except RequestException] and [except Exception].
    Both print and return. *)
Definition handlers (r : list Effect * result unit) : list Effect * result unit :=
  match r with
  | (tr, Ok u) => (tr, Ok u)
  | (tr, Raise e) =>
      if is_request_exception e
      then (tr ++ [Printed "Error sending Telegram notification"], Ok tt)
      else (tr ++ [Printed "An unexpected error occurred during Telegram notification sending"], Ok tt)
  end.

Definition send_telegram_notification (message : string)
  : list Effect * result unit :=
  if not_configured TELEGRAM_BOT_TOKEN || not_configured TELEGRAM_CHAT_ID then
    ((if verbose
      then [Printed "Telegram token or chat ID not configured. Skipping notification."]
      else []), Ok tt)
  else
    let send_url :=
      "https://api.telegram.org/bot" +:+ default "" TELEGRAM_BOT_TOKEN +:+ "/sendMessage" in
    let payload :=
      {| chat_id := default "" TELEGRAM_CHAT_ID;
         text := truncated_message message |} in
    handlers (try_body send_url payload).

(** The payloads handed to the transport during a call. *)
Definition sent (tr : list Effect) : list Payload :=
  omap (fun e => match e with Posted _ p => Some p | Printed _ => None end) tr.

End Send.
End Telegram.


(** ** DataFrames *)

Module Frame.

(** A pandas cell: a missing value, a [str] or an [int]. *)
Inductive cell : Type :=
| NaN
| Str (s : string)
| Int (n : Z).

#[global] Instance cell_eq_dec : EqDecision cell.
Proof. solve_decision. Defined.

#[global] Instance cell_inhabited : Inhabited cell := populate NaN.

(** A row maps column labels to cells; a DataFrame is a column index and a
    list of rows.  In a DataFrame every row has a cell for every column of
    the index ([well_formed]). *)
Record DataFrame : Type := { columns : list string; rows : list (gmap string cell) }.

Definition well_formed (df : DataFrame) : Prop :=
  Forall (fun r : gmap string cell => forall c, c ∈ columns df <-> is_Some (r !! c)) (rows df).

(** [df.empty]: an axis of length zero. *)
Definition empty (df : DataFrame) : bool :=
  match rows df, columns df with
  | [], _ => true
  | _, [] => true
  | _, _ => false
  end.

(** [col in df.columns] *)
Definition has_column (df : DataFrame) (col : string) : bool :=
  bool_decide (col ∈ columns df).

(** [row[col]] where the column is known to exist; a label without a cell
    reads as missing. *)
Definition get (r : gmap string cell) (col : string) : cell :=
  default NaN (r !! col).

(** [row[col]] with the [KeyError] of an absent label. *)
Definition getitem (r : gmap string cell) (col : string) : result cell :=
  match r !! col with
  | Some c => Ok c
  | None => Raise (KeyError col)
  end.

(** [Series.notna()], cell by cell. *)
Definition notna (c : cell) : bool :=
  match c with NaN => false | _ => true end.

(** [str(v)] of a cell, as [Series.astype(str)] applies it: the missing
    value prints as [nan]. *)
Definition astype_str (c : cell) : string :=
  match c with
  | NaN => "nan"
  | Str s => s
  | Int n => pretty n
  end.

(** [Series.fillna('')], cell by cell. *)
Definition fillna (c : cell) : cell :=
  match c with NaN => Str "" | _ => c end.

(** [Series.str.startswith(p, na=False)], cell by cell: [False] for a cell
    that is no [str]. *)
Definition str_startswith (p : string) (c : cell) : bool :=
  match c with Str s => Text.startswith p s | _ => false end.

(** [Series != ''], cell by cell. *)
Definition ne_empty (c : cell) : bool :=
  bool_decide (c ≠ Str "").

(** [df[col] = df[col].apply(f)] *)
Definition map_column (col : string) (f : cell -> cell) (df : DataFrame) : DataFrame :=
  {| columns := columns df;
     rows := (fun r : gmap string cell => <[col := f (get r col)]> r) <$> rows df |}.

(** [df[col] = v] for a scalar [v]: the column is appended to the index when
    it is new. *)
Definition set_column (col : string) (v : cell) (df : DataFrame) : DataFrame :=
  {| columns := if has_column df col then columns df else columns df ++ [col];
     rows := (fun r : gmap string cell => <[col := v]> r) <$> rows df |}.

(** [row[cols]] as a list of values, [df[cols].values.tolist()] row by row. *)
Definition values (cols : list string) (r : gmap string cell) : list cell :=
  (fun c => get r c) <$> cols.

(** [df[cols]]: select and reorder. *)
Definition select (cols : list string) (df : DataFrame) : DataFrame :=
  {| columns := cols;
     rows := (fun r : gmap string cell =>
                list_to_map ((fun c => (c, get r c)) <$> cols) : gmap string cell)
             <$> rows df |}.

(** [pd.DataFrame(data[1:], columns=data[0])] over the strings that
    [get_all_values] returns: a table, every row as long as the header.
    The labels of the header are taken to be distinct; of a label that
    stands twice the first column is the one read here, where pandas keeps
    both. *)
Definition of_values (data : list (list string)) : DataFrame :=
  match data with
  | [] => {| columns := []; rows := [] |}
  | header :: body =>
      {| columns := header;
         rows := (fun vs : list string =>
                    list_to_map (zip header (Str <$> vs)) : gmap string cell) <$> body |}
  end.

(** The order of [sort_values] on one column: missing values last, strings
    by code point, integers by value.  (A column that mixes [str] and [int]
    makes pandas raise; the columns sorted here are read from a sheet as
    text.) *)
Definition rank (c : cell) : nat :=
  match c with Int _ => 0 | Str _ => 1 | NaN => 2 end%nat.

Definition cell_le (a b : cell) : Prop :=
  match a, b with
  | Str x, Str y => String.le x y
  | Int x, Int y => x ≤ y
  | _, _ => (rank a ≤ rank b)%nat
  end.

#[global] Instance cell_le_dec : RelDecision cell_le.
Proof. intros [] []; simpl; apply _. Defined.

Definition by_column (col : string) (r1 r2 : gmap string cell) : Prop :=
  cell_le (get r1 col) (get r2 col).

#[global] Instance by_column_dec col : RelDecision (by_column col).
Proof. intros r1 r2. unfold by_column. apply _. Defined.

(** A stable sort by insertion: the elements in order, elements that tie in
    the order they had. *)
Section StableSort.
Context {A : Type} (R : relation A) `{!RelDecision R}.

(** [x] goes in front of the first element that is not below it. *)
Fixpoint insert_sorted (x : A) (l : list A) : list A :=
  match l with
  | [] => [x]
  | y :: l' => if decide (R x y) then x :: l else y :: insert_sorted x l'
  end.

Definition stable_sort (l : list A) : list A := foldr insert_sorted [] l.
End StableSort.

(** [df.sort_values(by=col)], a call into pandas, taken by what it
    guarantees: the rows come back in the order of their keys, and rows
    with equal keys come back in the order they had when the frame is
    short.  (On one column pandas orders the row positions with numpy's
    default sort, which orders a run of up to sixteen positions by
    insertion; in a longer run it may exchange rows with equal keys.) *)
Record Sorter : Type := {
  sort_rows :> string -> list (gmap string cell) -> list (gmap string cell);
  sort_Permutation : forall col l, sort_rows col l ≡ₚ l;
  sort_StronglySorted : forall col l, StronglySorted (by_column col) (sort_rows col l);
  sort_stable : forall col l (t : cell),
    (length l <= 16)%nat ->
    filter (fun r => get r col = t) (sort_rows col l)
    = filter (fun r => get r col = t) l
}.

End Frame.

(** [result] as a monad: a raised exception skips the rest of the block. *)
#[global] Instance result_ret : MRet result := fun A a => Ok a.
#[global] Instance result_bind : MBind result := fun A B f m =>
  match m with
  | Ok a => f a
  | Raise e => Raise e
  end.

#[global] Instance result_fmap : FMap result := fun A B f m =>
  match m with
  | Ok a => Ok (f a)
  | Raise e => Raise e
  end.

(** ** The analyzer, [src/analyzer.py] *)

Module Analyzer.
Import Frame.

Inductive Platform : Type := twitter | reddit.

Definition PLATFORM_name (p : Platform) : string :=
  match p with twitter => "twitter" | reddit => "reddit" end.

Definition TARGET_COLUMNS : list string :=
  [ "Processed Timestamp"; "Original Username"; "Original Display Name";
    "First Tweet Timestamp"; "Combined Original Text"; "First Tweet URL";
    "Likes (First Tweet)"; "Retweets (First Tweet)"; "Replies (First Tweet)";
    "Quotes (First Tweet)"; "Bookmarks (First Tweet)"; "Views (First Tweet)";
    "Content Type";
    "Conversation ID";
    "Rewritten EN"; "Rewritten RU";
    "Source Row Count";
    "Platform";
    "Subreddit"; "Score"; "Num Comments"; "Post ID" ].

(** *** [load_processed_urls] *)

Definition required_cols : list string :=
  [ "First Tweet URL"; "Rewritten EN"; "Rewritten RU" ].

(** The boolean mask of [load_processed_urls], row by row.  The two rewrite
    columns are first replaced by their [astype(str)]. *)
Definition processed_mask (r : gmap string cell) : bool :=
  let en := Str (astype_str (get r "Rewritten EN")) in
  let ru := Str (astype_str (get r "Rewritten RU")) in
  notna (get r "First Tweet URL")
  && ne_empty (fillna en)
  && ne_empty (fillna ru)
  && negb (str_startswith "Error:" en)
  && negb (str_startswith "Error:" ru).

(** [load_processed_urls(df)].  None of the operations of its [try] block
    raises in this embedding, so the fallback of the handler is the same
    empty set as that of the guard. *)
Definition load_processed_urls (df : option DataFrame) : gset string :=
  match df with
  | None => ∅
  | Some df =>
      if negb (empty df) && forallb (has_column df) required_cols
      then list_to_set
             ((fun r => astype_str (get r "First Tweet URL"))
                <$> filter (fun r => processed_mask r) (rows df))
      else ∅
  end.

(** *** Reading the source sheets *)

(** What [sh.worksheet(name).get_all_values()] does for one source sheet. *)
Inductive SheetRead : Type :=
| WorksheetNotFound
| ReadFailed (e : string)
| Values (data : list (list string)).

(** The notifications the analyzer sends, one constructor per call site. *)
Inductive Notice : Type :=
| NStarting
| NSourceReadError (sheet e : string)
| NNoSourceData
| NPreprocessError
| NNoNewTweets
| NNoRelevant
| NSuccess (processed_count : nat)
| NSyncLocalReadError
| NSyncAppendError (e : string)
| NSetupError (e : string)
| NStoppedByUser
| NUnhandled (e : exn).

Inductive Lang : Type := EN | RU.

(** What a run does to the outside, in order. *)
Inductive Event : Type :=
| ENotify (n : Notice)
| ECall (lang : Lang) (prompt : string)
| ESleep (seconds : Z)
| EBackoff
| EWriteHeader
| EWriteRow (r : list cell)
| ESyncStart
| EAppendRows (rs : list (list cell)).

(** The loop that adds every missing target column, filled with [''] . *)
Definition add_missing_columns (df : DataFrame) : DataFrame :=
  foldl (fun df col => if has_column df col then df else set_column col (Str "") df)
        df TARGET_COLUMNS.

(** One iteration of the loop over [source_sheet_names]. *)
Definition read_sheet (entry : string * SheetRead) : option DataFrame * list Event :=
  match entry.2 with
  | WorksheetNotFound => (None, [])
  | ReadFailed e => (None, [ENotify (NSourceReadError entry.1 e)])
  | Values data =>
      if (length data <? 2)%nat then (None, [])
      else (Some (add_missing_columns (of_values data)), [])
  end.

Definition read_sources (sheets : list (string * SheetRead))
  : list DataFrame * list Event :=
  let rs := read_sheet <$> sheets in
  (omap fst rs, mjoin (snd <$> rs)).

(** The column index of [pd.concat]: the union, in order of appearance. *)
Definition union_columns (dfs : list DataFrame) : list string :=
  foldl (fun acc c => if bool_decide (c ∈ acc) then acc else acc ++ [c])
        [] (mjoin (columns <$> dfs)).

(** [pd.concat(dfs, ignore_index=True)]: a cell of a column that a frame does
    not have is missing. *)
Definition concat (dfs : list DataFrame) : DataFrame :=
  let cols := union_columns dfs in
  {| columns := cols; rows := mjoin ((fun df => rows (select cols df)) <$> dfs) |}.

(** *** Pre-processing *)

Definition required_process_cols : list string :=
  [ "Original Username"; "Conversation ID"; "Tweet Text" ].

Definition num_cols_in_target : list string :=
  [ "Likes (First Tweet)"; "Retweets (First Tweet)"; "Replies (First Tweet)";
    "Quotes (First Tweet)"; "Bookmarks (First Tweet)"; "Views (First Tweet)";
    "Score"; "Num Comments" ].

Definition grouping_cols : list string := [ "Original Username"; "Conversation ID" ].

Section Preprocess.
(** [pd.to_numeric(errors='coerce')] followed by [astype(int)], on one cell;
    [None] is the missing value that [fillna(0)] replaces. *)
Variable to_numeric : cell -> option Z.
(** Whether [pd.to_numeric(col, errors='coerce').fillna(0).astype(int)]
    raises on a column of these cells: [astype(int)] refuses a column in
    which [to_numeric] found an infinity. *)
Variable astype_int_raises : list cell -> bool.

(** Whether the loop over the numeric columns raises, which it does at the
    first column it converts whose conversion raises.  The loop changes one
    column at a time, so each column is converted from the cells it has in
    the combined source. *)
Definition preprocess_raises (df : DataFrame) : bool :=
  existsb (fun col => has_column df col
                      && astype_int_raises ((fun r => get r col) <$> rows df))
          num_cols_in_target.

(** The frame that the [try] block of step 2 leaves when nothing raises. *)
Definition preprocess (df : DataFrame) : DataFrame :=
  let df1 :=
    foldl (fun df col =>
             if has_column df col
             then map_column col (fun c => Int (default 0 (to_numeric c))) df
             else set_column col (Int 0) df)
          df num_cols_in_target in
  let df2 := map_column "Conversation ID" (fun c => Str (astype_str c)) df1 in
  map_column "Tweet Text" (fun c => Str (astype_str c)) df2.
End Preprocess.

(** *** Grouping *)

(** The key of a row for [groupby(['Original Username', 'Conversation ID'])].
    A row with a missing key cell belongs to no group.  Both columns hold
    text: the first is read from the sheet, the second went through
    [astype(str)]. *)
Definition group_key (r : gmap string cell) : option (string * string) :=
  match get r "Original Username", get r "Conversation ID" with
  | Str u, Str c => Some (u, c)
  | _, _ => None
  end.

(** The order of the group keys: tuples, compared component by component. *)
Definition key_le (a b : string * string) : Prop :=
  if decide (a.1 = b.1) then String.le a.2 b.2 else String.le a.1 b.1.

#[global] Instance key_le_dec : RelDecision key_le.
Proof. intros a b. unfold key_le. destruct (decide (a.1 = b.1)); apply _. Defined.

(** [df.groupby(grouping_cols)]: the groups in key order, each with its rows
    in their order in the frame. *)
Definition groupby (rs : list (gmap string cell))
  : list ((string * string) * list (gmap string cell)) :=
  let keyed := omap (fun r => (fun k => (k, r)) <$> group_key r) rs in
  let keys := merge_sort key_le (remove_dups (keyed.*1)) in
  (fun k => (k, (filter (fun kr : (string * string) * gmap string cell => kr.1 = k) keyed).*2))
    <$> keys.

(** *** The ownership filter

    [reply_to_other_pattern] is
    [^\s*@(?!(?:{re.escape(author_username)}\b))([\w]{1,15})], searched with
    [re.IGNORECASE]. *)

(** The escaped author, matched case-insensitively from the start of [s].
    Returns the last character consumed ([prev] when the author is empty)
    and the text after the match. *)
Fixpoint match_literal_ci (pat s : string) (prev : ascii) : option (ascii * string) :=
  match pat with
  | EmptyString => Some (prev, s)
  | String p pat' =>
      match s with
      | EmptyString => None
      | String c s' =>
          if bool_decide (Text.lower p = Text.lower c)
          then match_literal_ci pat' s' c
          else None
      end
  end.

(** [\b] between a character and what follows it (nothing at the end of the
    text): exactly one side is a word character. *)
Definition word_boundary (prev : ascii) (rest : string) : bool :=
  xorb (Text.is_word prev)
       (match rest with
        | EmptyString => false
        | String c _ => Text.is_word c
        end).

(** [(?:{re.escape(author)}\b)] at the position after the [@]. *)
Definition author_at_boundary (author rest : string) : bool :=
  match match_literal_ci author rest "@"%char with
  | Some (prev, rest') => word_boundary prev rest'
  | None => false
  end.

(** [([\w]{1,15})]: the repetition is not anchored on its right, so it
    matches as soon as one word character follows. *)
Definition word_run_1_15 (rest : string) : bool :=
  match rest with
  | EmptyString => false
  | String c _ => Text.is_word c
  end.

(** [re.search(reply_to_other_pattern, text, re.IGNORECASE) is not None] *)
Definition reply_to_other (author text : string) : bool :=
  match Text.lstrip text with
  | String "@"%char rest =>
      negb (author_at_boundary author rest) && word_run_1_15 rest
  | _ => false
  end.

(** [Series.str.contains(pattern, case=False, na=False, regex=True)], cell
    by cell. *)
Definition contains_reply_to_other (author : string) (c : cell) : bool :=
  match c with
  | Str s => reply_to_other author s
  | _ => false
  end.

Section Consolidate.
(** [DataFrame.sort_values] *)
Variable sort_values : Sorter.

(** [core_thread_tweets]: the rows of the sorted group that the pattern does
    not match. *)
Definition core_thread_tweets (author : string) (group : list (gmap string cell))
  : list (gmap string cell) :=
  filter (fun r => negb (contains_reply_to_other author (get r "Tweet Text")))
         (sort_values "First Tweet Timestamp" group).

(** *** Consolidation *)

Definition nl : string := String "010"%char EmptyString.

(** The separator of thread texts: two newlines, three dashes, two newlines. *)
Definition SEPARATOR : string := nl +:+ nl +:+ "---" +:+ nl +:+ nl.

(** [combined_text] of a thread: the separator joined over the rows' texts,
    each through [astype(str)]. *)
Definition combined_text (core : list (gmap string cell)) : string :=
  Text.join SEPARATOR ((fun r => astype_str (get r "Tweet Text")) <$> core).

End Consolidate.

(** The dict display of a consolidated record, once its fields are read. *)
Definition processed_row (platform : Platform) (now conv_id : string)
    (username display ts txt url likes retweets replies quotes bookmarks views
       ctype count : cell)
  : gmap string cell :=
  list_to_map
    [ ("Processed Timestamp", Str now);
      ("Original Username", username);
      ("Original Display Name", display);
      ("First Tweet Timestamp", ts);
      ("Combined Original Text", txt);
      ("First Tweet URL", url);
      ("Likes (First Tweet)", likes);
      ("Retweets (First Tweet)", retweets);
      ("Replies (First Tweet)", replies);
      ("Quotes (First Tweet)", quotes);
      ("Bookmarks (First Tweet)", bookmarks);
      ("Views (First Tweet)", views);
      ("Content Type", ctype);
      ("Conversation ID", Str conv_id);
      ("Rewritten EN", Str "");
      ("Rewritten RU", Str "");
      ("Source Row Count", count);
      ("Platform", Str (PLATFORM_name platform));
      ("Subreddit", Str "");
      ("Score", Str "");
      ("Num Comments", Str "");
      ("Post ID", Str "") ].

(** The record of a thread, built from its first retained row.  The fields
    are read in the order of the dict display; a label that the source frame
    does not have raises [KeyError]. *)
Definition thread_row (platform : Platform) (now conv_id : string)
    (core : list (gmap string cell)) (first_tweet : gmap string cell)
  : result (gmap string cell) :=
  username ← getitem first_tweet "Original Username";
  display ← getitem first_tweet "Display Name";
  ts ← getitem first_tweet "First Tweet Timestamp";
  url ← getitem first_tweet "First Tweet URL";
  likes ← getitem first_tweet "Likes (First Tweet)";
  retweets ← getitem first_tweet "Retweets (First Tweet)";
  replies ← getitem first_tweet "Replies (First Tweet)";
  quotes ← getitem first_tweet "Quotes (First Tweet)";
  bookmarks ← getitem first_tweet "Bookmarks (First Tweet)";
  views ← getitem first_tweet "Views (First Tweet)";
  mret (processed_row platform now conv_id username display ts
          (Str (combined_text core)) url likes retweets replies quotes bookmarks views
          (Str "Thread") (Int (Z.of_nat (length core)))).

(** The record of a single retained row. *)
Definition single_row (platform : Platform) (now conv_id : string)
    (single_tweet : gmap string cell)
  : result (gmap string cell) :=
  username ← getitem single_tweet "Original Username";
  display ← getitem single_tweet "Display Name";
  ts ← getitem single_tweet "First Tweet Timestamp";
  txt ← getitem single_tweet "Tweet Text";
  url ← getitem single_tweet "First Tweet URL";
  likes ← getitem single_tweet "Likes (First Tweet)";
  retweets ← getitem single_tweet "Retweets (First Tweet)";
  replies ← getitem single_tweet "Replies (First Tweet)";
  quotes ← getitem single_tweet "Quotes (First Tweet)";
  bookmarks ← getitem single_tweet "Bookmarks (First Tweet)";
  views ← getitem single_tweet "Views (First Tweet)";
  ctype ← getitem single_tweet "Tweet Type";
  mret (processed_row platform now conv_id username display ts txt url likes retweets
          replies quotes bookmarks views ctype (Int 1)).

Section Consolidate.
Variable sort_values : Sorter.

(** The body of the loop [for name, group in grouped]: [Ok None] is the
    [continue] of a group that consists of replies to others only. *)
Definition consolidate_group (platform : Platform) (now : string)
    (name : string * string) (group : list (gmap string cell))
  : result (option (gmap string cell)) :=
  let '(username, conv_id) := name in
  let core := core_thread_tweets sort_values username group in
  match core with
  | [] => Ok None
  | first_tweet :: _ =>
      if (1 <? length core)%nat
      then Some <$> thread_row platform now conv_id core first_tweet
      else Some <$> single_row platform now conv_id first_tweet
  end.

(** The whole loop; [clock k] is the formatted local time read when the
    [k]-th group is handled.  An exception ends the loop. *)
Fixpoint consolidate (platform : Platform) (clock : nat -> string) (k : nat)
    (groups : list ((string * string) * list (gmap string cell)))
  : result (list (gmap string cell)) :=
  match groups with
  | [] => Ok []
  | (name, group) :: rest =>
      u ← consolidate_group platform (clock k) name group;
      us ← consolidate platform clock (S k) rest;
      mret (match u with Some row => row :: us | None => us end)
  end.

End Consolidate.

(** *** The local log and the remote sheet *)

(** The local state file: absent or of size zero; present but not parseable
    by [pd.read_csv]; or a table. *)
Inductive LocalFile : Type :=
| Absent
| Unreadable
| Log (df : DataFrame).

(** [df.fillna('')] on every cell. *)
Definition fillna_all (df : DataFrame) : DataFrame :=
  {| columns := columns df; rows := (fun r : gmap string cell => fillna <$> r) <$> rows df |}.

(** One line of the CSV file read back under a header: the fields are
    positional, and every field is text. *)
Definition csv_row (header : list string) (vals : list cell) : gmap string cell :=
  list_to_map (zip header ((fun c => Str (astype_str c)) <$> vals)).

(** [writer.writeheader()] on a file that is new or empty. *)
Definition write_header (f : LocalFile) : LocalFile :=
  match f with
  | Absent => Log {| columns := TARGET_COLUMNS; rows := [] |}
  | _ => f
  end.

(** [writer.writerow(row)]: one more line at the end of the file. *)
Definition append_row (f : LocalFile) (vals : list cell) : LocalFile :=
  match f with
  | Absent => Log {| columns := TARGET_COLUMNS; rows := [csv_row TARGET_COLUMNS vals] |}
  | Unreadable => Unreadable
  | Log df => Log {| columns := columns df; rows := rows df ++ [csv_row (columns df) vals] |}
  end.

(** The local state as step 1b prepares it for [load_processed_urls]. *)
Definition local_state (df : DataFrame) : DataFrame :=
  select TARGET_COLUMNS (add_missing_columns (fillna_all df)).

(** The remote snapshot as step 1c prepares it. *)
Definition gsheet_state (data : list (list string)) : DataFrame :=
  select TARGET_COLUMNS (add_missing_columns (fillna_all (of_values data))).

(** [Series.isin(values)] for a set of strings, cell by cell. *)
Definition isin (values : gset string) (c : cell) : bool :=
  match c with
  | Str u => bool_decide (u ∈ values)
  | _ => false
  end.

(** [set(df['First Tweet URL'].dropna())] *)
Definition url_set (df : DataFrame) : gset string :=
  list_to_set
    (omap (fun r : gmap string cell =>
             match get r "First Tweet URL" with
             | NaN => None
             | c => Some (astype_str c)
             end) (rows df)).

(** The remote-known set of the final sync: empty when the sheet cannot be
    read, has no data row, or has no URL column. *)
Definition remote_known (target_read : result (list (list string))) : gset string :=
  match target_read with
  | Raise _ => ∅
  | Ok data_tgt =>
      if (2 <=? length data_tgt)%nat then
        let df_gsheet_current := fillna_all (of_values data_tgt) in
        if has_column df_gsheet_current "First Tweet URL"
        then url_set df_gsheet_current
        else ∅
      else ∅
  end.

(** [df_to_upload]: the local rows whose URL is not remote-known. *)
Definition rows_to_upload (known : gset string) (df_local_final : DataFrame)
  : list (gmap string cell) :=
  filter (fun r => negb (isin known (get r "First Tweet URL"))) (rows df_local_final).

(** [rows_to_append]: the rows in target column order. *)
Definition rows_to_append (to_upload : list (gmap string cell)) : list (list cell) :=
  (fun r : gmap string cell => values TARGET_COLUMNS (fillna <$> r)) <$> to_upload.

(** [sync_local_to_gsheet]: [file] is the local log when the sync starts,
    [target_read] what [get_all_values] gives, [append_result] what
    [append_rows] would answer. *)
Definition sync_local_to_gsheet (file : LocalFile)
    (target_read : result (list (list string))) (append_result : result unit)
  : list Event :=
  match file with
  | Absent => []
  | Unreadable => [ENotify NSyncLocalReadError]
  | Log df =>
      let df_local_final := fillna_all df in
      let known := remote_known target_read in
      if empty df_local_final then []
      else if negb (has_column df_local_final "First Tweet URL") then []
      else
        let df_to_upload := rows_to_upload known df_local_final in
        match df_to_upload with
        | [] => []
        | _ =>
            match find (fun c => negb (has_column df_local_final c)) TARGET_COLUMNS with
            | Some c => [ENotify (NSyncAppendError "KeyError")]
            | None =>
                EAppendRows (rows_to_append df_to_upload)
                  :: match append_result with
                     | Ok _ => []
                     | Raise e => [ENotify (NSyncAppendError "append_rows")]
                     end
            end
        end
  end.

(** The bulk appends of a trace. *)
Definition appends (tr : list Event) : list (list (list cell)) :=
  omap (fun e => match e with EAppendRows rs => Some rs | _ => None end) tr.

(** *** The rewrite engine *)

Section Rewrite.
(** The generative service: [gemini_model.generate_content(prompt, ...)]
    followed by [response.text], from a state of the service to the text or
    the exception and the next state. *)
Variable Service : Type.
Variable generate_content : Service -> string -> result string * Service.
(** The two f-strings that wrap the original text in the instructions. *)
Variable prompt_en prompt_ru : string -> string.
(** Whether [writer.writerow] raises on a row (the handler prints and goes
    on). *)
Variable writerow_fails : list cell -> bool.

(** The body of [rewrite_text_gemini], without its decorator: the English
    call, one second of sleep, the Russian call; both texts stripped.  An
    exception of either call is re-raised. *)
Definition rewrite_once (original_text : string) (s : Service)
  : result (string * string) * Service * list Event :=
  let '(r_en, s1) := generate_content s (prompt_en original_text) in
  match r_en with
  | Raise e => (Raise e, s1, [ECall EN (prompt_en original_text)])
  | Ok response_en =>
      let rewritten_en := Text.strip response_en in
      let '(r_ru, s2) := generate_content s1 (prompt_ru original_text) in
      let ev := [ECall EN (prompt_en original_text); ESleep 1;
                 ECall RU (prompt_ru original_text)] in
      match r_ru with
      | Raise e => (Raise e, s2, ev)
      | Ok response_ru => (Ok (rewritten_en, Text.strip response_ru), s2, ev)
      end
  end.

(** [backoff.on_exception(backoff.expo, Exception, max_tries=...)]: the call
    is repeated after a wait while it raises and tries are left; the last
    exception is re-raised. *)
Fixpoint with_backoff (tries_left : nat) (original_text : string) (s : Service)
  : result (string * string) * Service * list Event :=
  let '(r, s1, ev) := rewrite_once original_text s in
  match r, tries_left with
  | Raise e, S (S _ as n) =>
      let '(r2, s2, ev2) := with_backoff n original_text s1 in
      (r2, s2, ev ++ EBackoff :: ev2)
  | _, _ => (r, s1, ev)
  end.

Definition max_tries : nat := 3.

(** [rewrite_text_gemini], decorated. *)
Definition rewrite_text_gemini (original_text : string) (s : Service)
  : result (string * string) * Service * list Event :=
  with_backoff max_tries original_text s.

Definition set_rewrites (en ru : string) (row : gmap string cell) : gmap string cell :=
  <["Rewritten RU" := Str ru]> (<["Rewritten EN" := Str en]> row).

(** [pd.isna(original_text) or not str(original_text).strip()] *)
Definition is_blank (original_text : cell) : bool :=
  negb (notna original_text)
  || negb (Text.truthy (Text.strip (astype_str original_text))).

(** One iteration of the rewrite loop up to [result_row]: the record, whether
    it counts as processed, the service afterwards and the calls made. *)
Definition rewrite_unit (row : gmap string cell) (s : Service)
  : gmap string cell * bool * Service * list Event :=
  let original_text := get row "Combined Original Text" in
  if is_blank original_text then
    (set_rewrites "Error: Empty Source Text" "Error: Empty Source Text" row, false, s, [])
  else
    match rewrite_text_gemini (astype_str original_text) s with
    | (Ok (en_text, ru_text), s', ev) => (set_rewrites en_text ru_text row, true, s', ev)
    | (Raise _, s', ev) =>
        (set_rewrites "Error: Rewrite Failed (EN)" "Error: Rewrite Failed (RU)" row,
         false, s', ev)
    end.

(** [{col: result_row.get(col, '') for col in TARGET_COLUMNS}], as the list
    of its values. *)
Definition final_row_for_csv (result_row : gmap string cell) : list cell :=
  (fun col => default (Str "") (result_row !! col)) <$> TARGET_COLUMNS.

(** The state that the loop threads: the local file, the service and the two
    counters. *)
Record Loop : Type := {
  file : LocalFile;
  service : Service;
  processed_count : nat;
  failed_count : nat;
  written : list (list cell)
}.

(** The rewrite loop over [df_final_filtered]; [total] is
    [total_rows_to_rewrite]. *)
Fixpoint rewrite_loop (total : nat) (units : list (gmap string cell)) (st : Loop)
  : Loop * list Event :=
  match units with
  | [] => (st, [])
  | row :: rest =>
      let current_item_num := (processed_count st + failed_count st + 1)%nat in
      let '(result_row, ok, s', ev) := rewrite_unit row (service st) in
      let vals := final_row_for_csv result_row in
      let saved := negb (writerow_fails vals) in
      let st' :=
        {| file := if saved then append_row (file st) vals else file st;
           service := s';
           processed_count := if ok then S (processed_count st) else processed_count st;
           failed_count := if ok then failed_count st else S (failed_count st);
           written := if saved then written st ++ [vals] else written st |} in
      let '(st'', ev') := rewrite_loop total rest st' in
      (st'',
       ev ++ (if saved then [EWriteRow vals] else [])
          ++ (if (current_item_num <? total)%nat then [ESleep 10] else [])
          ++ ev')
  end.

End Rewrite.

Arguments Build_Loop {Service}.
Arguments file {Service}.
Arguments service {Service}.
Arguments processed_count {Service}.
Arguments failed_count {Service}.
Arguments written {Service}.

(** *** [process_data] *)

(** What the outside answers during one run. *)
Record World : Type := {
  source_sheets : list (string * SheetRead);
  local_file : LocalFile;
  (** [worksheet_tgt.get_all_values()] in step 1c and in the final sync *)
  target_read_state : result (list (list string));
  target_read_sync : result (list (list string));
  (** [open(LOCAL_STATE_FILE, 'a')] *)
  open_local : result unit;
  (** [writer.writeheader()], which is called when the file is new *)
  writeheader_result : result unit;
  (** [worksheet_tgt.append_rows(...)] *)
  append_result : result unit
}.

(** How [process_data] ends: by one of its [return]s, by running to its last
    line, or by an exception that no handler of the function catches. *)
Inductive Exit : Type :=
| ExitNoSourceData
| ExitMissingColumns
| ExitPreprocessError
| ExitMissingGroupingColumns
| ExitNoProcessableData
| ExitSortError
| ExitNoContentTypes
| ExitNothingRelevant
| ExitFinished
| ExitRaised (e : exn).

Definition content_types_to_rewrite (p : Platform) : list string :=
  match p with
  | twitter => [ "Original Tweet"; "Thread" ]
  | reddit => [ "Reddit Post" ]
  end.

(** [Series.isin(content_types_to_rewrite)], cell by cell. *)
Definition content_type_allowed (p : Platform) (c : cell) : bool :=
  match c with
  | Str t => bool_decide (t ∈ content_types_to_rewrite p)
  | _ => false
  end.

(** The order of the sort of step 3a, on username, conversation and parsed
    timestamp. *)
Definition unit_le (a b : gmap string cell) : Prop :=
  if decide (get a "Original Username" = get b "Original Username") then
    if decide (get a "Conversation ID" = get b "Conversation ID")
    then cell_le (get a "First Tweet Timestamp DT") (get b "First Tweet Timestamp DT")
    else cell_le (get a "Conversation ID") (get b "Conversation ID")
  else cell_le (get a "Original Username") (get b "Original Username").

#[global] Instance unit_le_dec : RelDecision unit_le.
Proof. intros a b. unfold unit_le. repeat case_decide; apply _. Defined.

Section Run.
(** [DataFrame.sort_values] on one column, as the consolidation loop calls
    it on each group *)
Variable sort_values : Sorter.
Variable PLATFORM : Platform.
(** [datetime.now(TARGET_TIMEZONE).strftime(...)] at its [k]-th reading *)
Variable clock : nat -> string.
Variable to_numeric : cell -> option Z.
Variable astype_int_raises : list cell -> bool.
(** [parse_datetime]: [None] is [NaT] *)
Variable parse_datetime : cell -> option Z.
(** Whether the [sort_values] of step 3a raises on the units whose timestamp
    parsed: pandas cannot order keys that do not compare, as timestamps of
    which some carry a time zone and some do not. *)
Variable sort_raises : list (gmap string cell) -> bool.
(** Step 3d, the length, keyword and prompt-structure filters: a predicate
    on the row, through its combined text. *)
Variable passes_content_filters : gmap string cell -> bool.
Variable Service : Type.
Variable generate_content : Service -> string -> result string * Service.
Variable prompt_en prompt_ru : string -> string.
Variable writerow_fails : list cell -> bool.

(** Step 3a: parse, drop the units whose timestamp does not parse, sort. *)
Definition parsed (units : list (gmap string cell)) : list (gmap string cell) :=
  omap (fun r : gmap string cell =>
          (fun t => <["First Tweet Timestamp DT" := Int t]> r)
            <$> parse_datetime (get r "First Tweet Timestamp"))
       units.

Definition parse_and_sort (units : list (gmap string cell)) : list (gmap string cell) :=
  stable_sort unit_le (parsed units).

(** Steps 1b to 1d: the processed URLs of the local log and of the remote
    sheet.  A read that raises leaves its set empty. *)
Definition processed_urls (w : World) : gset string :=
  (match local_file w with
   | Log df => load_processed_urls (Some (local_state df))
   | _ => ∅
   end)
  ∪
  (match target_read_state w with
   | Ok data_tgt =>
       if (2 <=? length data_tgt)%nat
       then load_processed_urls (Some (gsheet_state data_tgt))
       else ∅
   | Raise _ => ∅
   end).

(** Steps 3b and 3c on the consolidated units: drop the processed URLs,
    keep the allowed content types. *)
Definition df_typed_filtered (w : World) (units : list (gmap string cell))
  : list (gmap string cell) :=
  filter (fun r : gmap string cell => content_type_allowed PLATFORM (get r "Content Type"))
    (filter (fun r : gmap string cell => negb (isin (processed_urls w) (get r "First Tweet URL")))
            (parse_and_sort units)).

(** Step 3d. *)
Definition df_final_filtered (w : World) (units : list (gmap string cell))
  : list (gmap string cell) :=
  filter (fun r => passes_content_filters r) (df_typed_filtered w units).

(** The final sync as [process_data] calls it, on the local file as it is
    then. *)
Definition final_sync (w : World) (f : LocalFile) : list Event :=
  ESyncStart :: sync_local_to_gsheet f (target_read_sync w) (append_result w).

(** The header is written in the first iteration of the rewrite loop, when
    the file was absent or empty before it was opened. *)
Definition needs_header (w : World) (units : list (gmap string cell)) : bool :=
  match local_file w, units with
  | Absent, _ :: _ => true
  | _, _ => false
  end.

(** [open(LOCAL_STATE_FILE, 'a')] and, for a new file, [writer.writeheader()]:
    an exception of either leaves [process_data]. *)
Definition file_ready (w : World) (units : list (gmap string cell)) : result unit :=
  match open_local w with
  | Raise e => Raise e
  | Ok _ => if needs_header w units then writeheader_result w else Ok tt
  end.

(** Step 4 and what follows it. *)
Definition rewrite_and_sync (w : World) (s0 : Service) (units : list (gmap string cell))
  : Exit * list Event * LocalFile * Service :=
  match file_ready w units with
  | Raise e => (ExitRaised e, [], local_file w, s0)
  | Ok _ =>
      let st0 := {| file := if needs_header w units then write_header (local_file w)
                            else local_file w;
                    service := s0;
                    processed_count := 0; failed_count := 0; written := [] |} in
      let '(st, ev) :=
        rewrite_loop Service generate_content prompt_en prompt_ru writerow_fails
                     (length units) units st0 in
      (ExitFinished,
       (if needs_header w units then [EWriteHeader] else []) ++ ev
         ++ final_sync w (file st) ++ [ENotify (NSuccess (processed_count st))],
       file st, service st)
  end.

(** [process_data]: how it ends, what it does to the outside, the local log
    and the service afterwards.  An exception in the [try] block of step 2
    is notified and ends the run, one in the block of step 3a ends it
    without a notification; a [KeyError] of the consolidation loop, which
    has no handler, and a failure to open the local log or to write its
    header leave the function. *)
Definition process_data (w : World) (s0 : Service)
  : Exit * list Event * LocalFile * Service :=
  let '(all_source_dfs, ev1) := read_sources (source_sheets w) in
  match all_source_dfs with
  | [] => (ExitNoSourceData, ev1 ++ [ENotify NNoSourceData], local_file w, s0)
  | _ =>
      let df_src := concat all_source_dfs in
      if negb (forallb (has_column df_src) required_process_cols)
      then (ExitMissingColumns, ev1, local_file w, s0)
      else if preprocess_raises astype_int_raises df_src
      then (ExitPreprocessError, ev1 ++ [ENotify NPreprocessError], local_file w, s0)
      else
        let df_src := preprocess to_numeric df_src in
        if negb (forallb (has_column df_src) grouping_cols)
        then (ExitMissingGroupingColumns, ev1, local_file w, s0)
        else
          match consolidate sort_values PLATFORM clock 0 (groupby (rows df_src)) with
          | Raise e => (ExitRaised e, ev1, local_file w, s0)
          | Ok [] =>
              (ExitNoProcessableData, ev1 ++ final_sync w (local_file w), local_file w, s0)
          | Ok processed_rows =>
              if sort_raises (parsed processed_rows)
              then (ExitSortError, ev1, local_file w, s0)
              else
              match df_typed_filtered w processed_rows with
              | [] =>
                  (ExitNoContentTypes,
                   ev1 ++ final_sync w (local_file w) ++ [ENotify NNoNewTweets],
                   local_file w, s0)
              | _ =>
                  match df_final_filtered w processed_rows with
                  | [] =>
                      (ExitNothingRelevant,
                       ev1 ++ final_sync w (local_file w) ++ [ENotify NNoRelevant],
                       local_file w, s0)
                  | units =>
                      let '(x, ev, f, s) := rewrite_and_sync w s0 units in
                      (x, ev1 ++ ev, f, s)
                  end
              end
          end
  end.

(** Whether the final sync was started in a trace. *)
Definition sync_invoked (tr : list Event) : bool :=
  existsb (fun e => match e with ESyncStart => true | _ => false end) tr.

End Run.

(** *** The script: configuration, setup and the main block *)

(** The environment variables that the script reads; [None] is a variable
    that is not set. *)
Record Config : Type := {
  TELEGRAM_BOT_TOKEN : option string;
  TELEGRAM_CHAT_ID : option string;
  GOOGLE_SHEETS_URL : option string;
  SERVICE_ACCOUNT_FILE : option string;
  GEMINI_API_KEY : option string;
  GEMINI_CONCURRENT_REQUESTS : option string
}.

(** What [parser.parse_args()] does with the command line: it returns the
    platform; or it prints a usage message and exits with status 2 (no
    [--platform], a value outside the choices, an argument it does not
    know); or it prints the help and exits with status 0. *)
Inductive ParseArgs : Type :=
| Parsed (platform : Platform)
| UsageError
| HelpRequested.

(** Truthiness of what [os.getenv] returns: [None] and [''] are falsy. *)
Definition truthy (v : option string) : bool :=
  match v with
  | Some s => Text.truthy s
  | None => false
  end.

(** How the interpreter ends. *)
Inductive Termination : Type :=
| SystemExit (code : option Z)
| EndOfScript
| Uncaught (e : exn).

(** The status the process reports: [SystemExit(None)] and the end of the
    script are successes. *)
Definition exit_status (t : Termination) : Z :=
  match t with
  | SystemExit None => 0
  | SystemExit (Some c) => c
  | EndOfScript => 0
  | Uncaught _ => 1
  end.

(** The builtin [exit()], called without an argument everywhere in the
    repository: it raises [SystemExit(None)]. *)
Definition exit_ : Termination := SystemExit None.

(** How [asyncio.run(process_data())] ends. *)
Inductive RunEnd : Type :=
| RunReturned
| RunKeyboardInterrupt
| RunException (e : exn).

Definition run_end (x : Exit) : RunEnd :=
  match x with
  | ExitRaised e => RunException e
  | _ => RunReturned
  end.

(** [analyzer.py] from its argument parser to its last line.  [args] is
    what [parse_args] does, [int_] the builtin [int] on a [str] ([None] is
    its [ValueError], which nothing catches at module level),
    [sheets_setup] and [gemini_setup] are the outcomes of the two
    initialisation blocks, [run] the events and the end of
    [asyncio.run(process_data())]. *)
Definition analyzer_script (args : ParseArgs) (int_ : string -> option Z)
    (cfg : Config) (sheets_setup gemini_setup : result unit)
    (run : list Event * RunEnd) : list Event * Termination :=
  match args with
  | UsageError => ([], SystemExit (Some 2))
  | HelpRequested => ([], SystemExit (Some 0))
  | Parsed _ =>
      match int_ (default "1" (GEMINI_CONCURRENT_REQUESTS cfg)) with
      | None => ([], Uncaught (OtherException "ValueError"))
      | Some _ =>
          if negb (truthy (TELEGRAM_BOT_TOKEN cfg) && truthy (TELEGRAM_CHAT_ID cfg)
                   && truthy (GOOGLE_SHEETS_URL cfg))
          then ([], exit_)
          else if negb (truthy (SERVICE_ACCOUNT_FILE cfg)) then ([], exit_)
          else if negb (truthy (GEMINI_API_KEY cfg)) then ([], exit_)
          else
            match sheets_setup with
            | Raise e => ([ENotify (NSetupError "Google Sheet")], exit_)
            | Ok _ =>
                match gemini_setup with
                | Raise e => ([ENotify (NSetupError "Gemini API")], exit_)
                | Ok _ =>
                    (ENotify NStarting :: run.1
                       ++ match run.2 with
                          | RunReturned => []
                          | RunKeyboardInterrupt => [ENotify NStoppedByUser]
                          | RunException e => [ENotify (NUnhandled e)]
                          end,
                     EndOfScript)
                end
            end
      end
  end.


Definition notifications (tr : list Event) : list Notice :=
  omap (fun e => match e with ENotify n => Some n | _ => None end) tr.

End Analyzer.

(** ** The scraper's per-user state, [src/scraper.py] *)

Module Scraper.

(** A fetched tweet: its id, and the fields of its sheet row, or the
    exception that reading them off the tweet raises. *)
Record Tweet : Type := { id : Z; row_fields : result (list string) }.

(** What the API answers for one user of the list. *)
Inductive Fetch : Type :=
| ProfileError (e : string)
| UserNotFound
| TweetsError (e : string)
| Fetched (fetched_tweets : list Tweet).

(** What [run_scrape_cycle] carries from one user to the next. *)
Record Cycle : Type := {
  last_seen_state : gmap string Z;
  all_rows_to_append : list (list string);
  processed_tweet_ids_this_run : gset Z;
  cycle_errors : list string
}.

(** [max((t.id for t in fetched_tweets), default=0)] *)
Definition latest_id (fetched_tweets : list Tweet) : Z :=
  match fetched_tweets with
  | [] => 0
  | t :: rest => foldl Z.max (id t) (id <$> rest)
  end.

(** The loop [for tweet in new_tweets]: the running maximum, the rows and
    the ids seen in this run; an exception ends it. *)
Fixpoint process_tweets (username : string) (new_tweets : list Tweet)
    (max_new_id : Z) (rows : list (list string)) (seen : gset Z)
  : result Z * list (list string) * gset Z :=
  match new_tweets with
  | [] => (Ok max_new_id, rows, seen)
  | tweet :: rest =>
      let max_new_id := if max_new_id <? id tweet then id tweet else max_new_id in
      if bool_decide (id tweet ∈ seen) then process_tweets username rest max_new_id rows seen
      else
        let seen := {[ id tweet ]} ∪ seen in
        match row_fields tweet with
        | Raise e => (Raise e, rows, seen)
        | Ok fields => process_tweets username rest max_new_id (rows ++ [username :: fields]) seen
        end
  end.

(** [last_seen_state.get(username, 0)] *)
Definition last_seen (st : gmap string Z) (username : string) : Z :=
  default 0 (st !! username).

(** One iteration of the loop [for username in target_usernames_list]. *)
Definition process_user (initial_state_keys : gset string) (st : Cycle)
    (entry : string * Fetch) : Cycle :=
  let '(username, fetch) := entry in
  let last_seen_id := last_seen (last_seen_state st) username in
  match fetch with
  | ProfileError e =>
      {| last_seen_state := last_seen_state st;
         all_rows_to_append := all_rows_to_append st;
         processed_tweet_ids_this_run := processed_tweet_ids_this_run st;
         cycle_errors := cycle_errors st ++ ["ERROR fetching user profile"] |}
  | UserNotFound => st
  | TweetsError e =>
      {| last_seen_state := last_seen_state st;
         all_rows_to_append := all_rows_to_append st;
         processed_tweet_ids_this_run := processed_tweet_ids_this_run st;
         cycle_errors := cycle_errors st ++ ["ERROR fetching/processing tweets"] |}
  | Fetched fetched_tweets =>
      let new_tweets := filter (fun t => last_seen_id < id t) fetched_tweets in
      match new_tweets with
      | _ :: _ =>
          match process_tweets username (reverse new_tweets) last_seen_id
                  (all_rows_to_append st) (processed_tweet_ids_this_run st) with
          | (Ok max_new_id, rows, seen) =>
              {| last_seen_state :=
                   if last_seen_id <? max_new_id
                   then <[username := max_new_id]> (last_seen_state st)
                   else last_seen_state st;
                 all_rows_to_append := rows;
                 processed_tweet_ids_this_run := seen;
                 cycle_errors := cycle_errors st |}
          | (Raise e, rows, seen) =>
              {| last_seen_state := last_seen_state st;
                 all_rows_to_append := rows;
                 processed_tweet_ids_this_run := seen;
                 cycle_errors := cycle_errors st ++ ["ERROR fetching/processing tweets"] |}
          end
      | [] =>
          if bool_decide (username ∉ initial_state_keys)
             && match fetched_tweets with [] => false | _ => true end
          then
            let latest_fetched_id := latest_id fetched_tweets in
            {| last_seen_state :=
                 if last_seen_id <? latest_fetched_id
                 then <[username := latest_fetched_id]> (last_seen_state st)
                 else last_seen_state st;
               all_rows_to_append := all_rows_to_append st;
               processed_tweet_ids_this_run := processed_tweet_ids_this_run st;
               cycle_errors := cycle_errors st |}
          else st
      end
  end.

(** The user loop of [run_scrape_cycle], from the state loaded at the start
    of the cycle; [initial_state_keys] is [set(last_seen_state.keys())] as
    [main] takes it before the call.  The state it ends with is the one
    [save_last_seen_ids] writes. *)
Definition run_scrape_cycle (users : list (string * Fetch))
    (last_seen : gmap string Z) (initial_state_keys : gset string) : Cycle :=
  foldl (process_user initial_state_keys)
        {| last_seen_state := last_seen; all_rows_to_append := [];
           processed_tweet_ids_this_run := ∅; cycle_errors := [] |}
        users.

End Scraper.

(** * The specification's predicates and concrete inputs *)

(** ** The processed-URL predicate *)

Module ProcessedSpec.
Import Frame.

(** The success predicate as the specification words it: the canonical URL
    is non-empty, both rewrite fields are non-empty, and neither begins with
    the error prefix. *)
Definition successfully_processed (r : gmap string cell) : Prop :=
  exists url en ru,
    r !! "First Tweet URL" = Some (Str url)
    /\ r !! "Rewritten EN" = Some (Str en)
    /\ r !! "Rewritten RU" = Some (Str ru)
    /\ url <> "" /\ en <> "" /\ ru <> ""
    /\ ~ (exists t, en = "Error:" +:+ t)
    /\ ~ (exists t, ru = "Error:" +:+ t).

(** The predicate the code applies: the URL cell is present (an empty string
    is), and the two rewrite fields, read as strings, are non-empty and do
    not begin with the error prefix. *)
Definition counted_as_processed (r : gmap string cell) : Prop :=
  get r "First Tweet URL" <> NaN
  /\ astype_str (get r "Rewritten EN") <> ""
  /\ astype_str (get r "Rewritten RU") <> ""
  /\ ~ (exists t, astype_str (get r "Rewritten EN") = "Error:" +:+ t)
  /\ ~ (exists t, astype_str (get r "Rewritten RU") = "Error:" +:+ t).

(** The guard of [load_processed_urls]: a table with rows and the three
    columns. *)
Definition usable (df : DataFrame) : Prop :=
  empty df = false /\ Forall (fun c => c ∈ columns df) Analyzer.required_cols.

(** A local log of one record that was rewritten in both languages and whose
    URL is the empty string. *)
Definition log_with_empty_url : DataFrame :=
  {| columns := [ "First Tweet URL"; "Rewritten EN"; "Rewritten RU" ];
     rows := [ list_to_map [ ("First Tweet URL", Str "");
                             ("Rewritten EN", Str "Hello");
                             ("Rewritten RU", Str "Privet") ] ] |}.

End ProcessedSpec.

(** ** The ownership filter and the classification *)

Module OwnershipSpec.
Import Frame.

Fixpoint lower_str (s : string) : string :=
  match s with
  | EmptyString => EmptyString
  | String c s' => String (Text.lower c) (lower_str s')
  end.

(** The last character of [s], or [prev] when [s] is empty. *)
Fixpoint last_char (prev : ascii) (s : string) : ascii :=
  match s with
  | EmptyString => prev
  | String c s' => last_char c s'
  end.

Definition head_is_word (s : string) : bool :=
  match s with
  | EmptyString => false
  | String c _ => Text.is_word c
  end.

(** What follows the [@] is the author's own username: the author's name,
    compared case-insensitively, ending at a word boundary. *)
Definition names_author (author after_at : string) : Prop :=
  exists m rest,
    after_at = m +:+ rest
    /\ lower_str m = lower_str author
    /\ Text.is_word (last_char "@"%char m) <> head_is_word rest.

(** The username after the [@], the whole run of word characters, is the
    author's up to case. *)
Definition run_is_author (author after_at : string) : Prop :=
  exists run tail,
    after_at = run +:+ tail
    /\ Text.all_chars Text.is_word run = true
    /\ head_is_word tail = false
    /\ lower_str run = lower_str author.

(** The text begins, after optional whitespace, with an [@]-mention of a
    username of 1 to 15 word characters that is not the author's. *)
Definition begins_with_mention_of_other (author text : string) : Prop :=
  exists ws name rest,
    text = ws +:+ "@" +:+ name +:+ rest
    /\ Text.all_chars Text.is_space ws = true
    /\ (1 <= String.length name <= 15)%nat
    /\ Text.all_chars Text.is_word name = true
    /\ ~ names_author author (name +:+ rest).

(** The same, of a row: through its text cell. *)
Definition is_reply_to_other (author : string) (r : gmap string cell) : Prop :=
  exists s, get r "Tweet Text" = Str s /\ begins_with_mention_of_other author s.

(** The labels that the consolidation reads from a row. *)
Definition consolidation_labels : list string :=
  [ "Original Username"; "Display Name"; "First Tweet Timestamp"; "Tweet Text";
    "First Tweet URL"; "Likes (First Tweet)"; "Retweets (First Tweet)";
    "Replies (First Tweet)"; "Quotes (First Tweet)"; "Bookmarks (First Tweet)";
    "Views (First Tweet)"; "Tweet Type" ].

Definition has_labels (r : gmap string cell) : Prop :=
  Forall (fun c => is_Some (r !! c)) consolidation_labels.

(** A raw row of the source sheet, after pre-processing. *)
Definition raw_row (user conv ts text ttype : string) : gmap string cell :=
  list_to_map
    [ ("Original Username", Str user); ("Display Name", Str user);
      ("First Tweet Timestamp", Str ts); ("Tweet Text", Str text);
      ("First Tweet URL", Str ("https://x.com/" +:+ user +:+ "/status/" +:+ ts));
      ("Likes (First Tweet)", Int 0); ("Retweets (First Tweet)", Int 0);
      ("Replies (First Tweet)", Int 0); ("Quotes (First Tweet)", Int 0);
      ("Bookmarks (First Tweet)", Int 0); ("Views (First Tweet)", Int 0);
      ("Tweet Type", Str ttype); ("Conversation ID", Str conv) ].


(** Scenario B of the specification: two parts of one thread. *)
Definition scenario_B : list (gmap string cell) :=
  [ raw_row "alice" "conv1" "t1" "part 1" "Original Tweet";
    raw_row "alice" "conv1" "t2" "part 2" "Reply" ].

End OwnershipSpec.

(** ** The rewrite engine *)

Module RewriteSpec.
Import Frame.

(** A source text that is missing, empty or only whitespace. *)
Definition blank (original_text : cell) : Prop :=
  original_text = NaN
  \/ Text.all_chars Text.is_space (astype_str original_text) = true.

(** An error sentinel: a string that begins with the error prefix. *)
Definition is_error (c : cell) : Prop :=
  exists t, c = Str ("Error:" +:+ t).

(** A rewritten text: a non-empty string that does not begin with the error
    prefix. *)
Definition is_text (c : cell) : Prop :=
  exists s, c = Str s /\ s <> "" /\ ~ (exists t, s = "Error:" +:+ t).

(** The two rewrite fields of a record in target column order. *)
Definition rewritten_en (vals : list cell) : cell := default NaN (vals !! 14%nat).
Definition rewritten_ru (vals : list cell) : cell := default NaN (vals !! 15%nat).

(** Failure sentinel atomicity as the specification states it. *)
Definition atomic (vals : list cell) : Prop :=
  (is_text (rewritten_en vals) /\ is_text (rewritten_ru vals))
  \/ (is_error (rewritten_en vals) /\ is_error (rewritten_ru vals)).

Section Service.
Variable Service : Type.
Variable generate_content : Service -> string -> result string * Service.

(** [t] is a text that the service returned on some call. *)
Definition returned (t : string) : Prop :=
  exists s p s', generate_content s p = (Ok t, s').

(** What the code guarantees of a record: both fields are sentinels, or both
    are the stripped texts of two calls that the service answered. *)
Definition both_or_neither (vals : list cell) : Prop :=
  (is_error (rewritten_en vals) /\ is_error (rewritten_ru vals))
  \/ (exists t_en t_ru,
         returned t_en /\ returned t_ru
         /\ rewritten_en vals = Str (Text.strip t_en)
         /\ rewritten_ru vals = Str (Text.strip t_ru)).

(** A service whose every answer has text left after stripping, text that
    does not look like a sentinel. *)
Definition answers_with_text : Prop :=
  forall t, returned t ->
    Text.strip t <> "" /\ ~ (exists u, Text.strip t = "Error:" +:+ u).
End Service.

(** A service that replays a script of answers, one per call. *)
Definition scripted (s : list (result string)) (prompt : string)
  : result string * list (result string) :=
  match s with
  | [] => (Raise (OtherException "no answer left"), [])
  | r :: s' => (r, s')
  end.

(** A service that fails a given number of calls and then answers. *)
Definition flaky (failures_left : nat) (prompt : string) : result string * nat :=
  match failures_left with
  | O => (Ok "  A rewritten text.  ", O)
  | S n => (Raise (OtherException "503"), n)
  end.

Definition prompt_en (original_text : string) : string :=
  "Rewrite in English: " +:+ original_text.
Definition prompt_ru (original_text : string) : string :=
  "Rewrite in Russian: " +:+ original_text.

(** A consolidated unit ready for rewriting. *)
Definition unit_with_text (txt : string) : gmap string cell :=
  Analyzer.processed_row Analyzer.twitter "2024-01-01" "conv1"
    (Str "alice") (Str "Alice") (Str "t1") (Str txt) (Str "https://x.com/alice/status/1")
    (Int 0) (Int 0) (Int 0) (Int 0) (Int 0) (Int 0) (Str "Original Tweet") (Int 1).

Definition loop_start {Service} (s : Service) : Analyzer.Loop Service :=
  {| Analyzer.file := Analyzer.Absent; Analyzer.service := s;
     Analyzer.processed_count := 0; Analyzer.failed_count := 0;
     Analyzer.written := [] |}.

End RewriteSpec.

(** ** The sync engine *)

Module SyncSpec.
Import Frame.

(** A local log as the sync needs it: it has rows, and its header has every
    target column (the rewrite stage writes it so). *)
Definition uploadable (df : DataFrame) : Prop :=
  empty (Analyzer.fillna_all df) = false
  /\ Forall (fun c => c ∈ columns df) Analyzer.TARGET_COLUMNS.

(** The cells of a log as [read_csv] returns them under [dtype=str]: each
    row has, for each target column, a text or a missing value. *)
Definition text_cells (df : DataFrame) : Prop :=
  Forall (fun r : gmap string cell =>
            Forall (fun c => r !! c = Some NaN \/ exists s, r !! c = Some (Str s))
                   Analyzer.TARGET_COLUMNS)
         (rows df).

(** A snapshot as [get_all_values] returns it: a table whose header has no
    repeated label and whose rows have the length of the header. *)
Definition is_table (data : list (list string)) : Prop :=
  match data with
  | [] => True
  | header :: body =>
      NoDup header /\ Forall (fun row : list string => length row = length header) body
  end.

(** The URL of a local record: the text of its URL field, the empty string
    when the field is missing. *)
Definition url_of (r : gmap string cell) : string :=
  match r !! "First Tweet URL" with
  | Some (Str u) => u
  | _ => ""
  end.

(** The local records whose URL is not in a set, in the order of the log. *)
Definition missing_rows (known : gset string) (df : DataFrame) : list (gmap string cell) :=
  filter (fun r => url_of r ∉ known) (rows df).

(** A record as a row of the sheet: the text of each target column in
    turn, the empty string for a missing value. *)
Definition in_target_order (r : gmap string cell) : list cell :=
  (fun c => match r !! c with
            | Some (Str s) => Str s
            | _ => Str ""
            end) <$> Analyzer.TARGET_COLUMNS.

(** The log that the rewrite stage leaves after two units: one rewritten,
    one failed. *)
Definition rewritten_record : list cell :=
  Analyzer.final_row_for_csv
    (Analyzer.set_rewrites "Hello" "Privet"
       (Analyzer.processed_row Analyzer.twitter "2024-01-01" "conv1"
          (Str "alice") (Str "Alice") (Str "t1") (Str "A post")
          (Str "https://x.com/alice/status/1")
          (Int 0) (Int 0) (Int 0) (Int 0) (Int 0) (Int 0) (Str "Original Tweet") (Int 1))).

Definition failed_record : list cell :=
  Analyzer.final_row_for_csv
    (Analyzer.set_rewrites "Error: Rewrite Failed (EN)" "Error: Rewrite Failed (RU)"
       (Analyzer.processed_row Analyzer.twitter "2024-01-01" "conv2"
          (Str "alice") (Str "Alice") (Str "t2") (Str "Another post")
          (Str "https://x.com/alice/status/2")
          (Int 0) (Int 0) (Int 0) (Int 0) (Int 0) (Int 0) (Str "Original Tweet") (Int 1))).

Definition local_log : DataFrame :=
  {| columns := Analyzer.TARGET_COLUMNS;
     rows := [ Analyzer.csv_row Analyzer.TARGET_COLUMNS rewritten_record;
               Analyzer.csv_row Analyzer.TARGET_COLUMNS failed_record ] |}.

(** Scenario D: the remote sheet already holds the failed record. *)
Definition remote_with_failed_record : list (list string) :=
  [ Analyzer.TARGET_COLUMNS; astype_str <$> failed_record ].

End SyncSpec.

(** ** Runs of [process_data] *)

Module RunSpec.
Import Frame.

(** How many times a trace starts the final sync. *)
Definition sync_starts (tr : list Analyzer.Event) : nat :=
  length (omap (fun e => match e with Analyzer.ESyncStart => Some tt | _ => None end) tr).

(** The exits of [process_data] that start the final sync. *)
Definition reaches_sync (x : Analyzer.Exit) : bool :=
  match x with
  | Analyzer.ExitNoProcessableData
  | Analyzer.ExitNoContentTypes
  | Analyzer.ExitNothingRelevant
  | Analyzer.ExitFinished => true
  | _ => false
  end.

Definition is_Ok {A} (r : result A) : Prop :=
  match r with Ok _ => True | Raise _ => False end.

Section Run.
Variable sort_values : Sorter.
Variable PLATFORM : Analyzer.Platform.
Variable clock : nat -> string.
Variable to_numeric : cell -> option Z.
Variable astype_int_raises : list cell -> bool.
Variable parse_datetime : cell -> option Z.
Variable sort_raises : list (gmap string cell) -> bool.
Variable passes_content_filters : gmap string cell -> bool.

(** The frames of the source sheets that could be read and have data. *)
Definition source_frames (w : Analyzer.World) : list DataFrame :=
  (Analyzer.read_sources (Analyzer.source_sheets w)).1.

(** The consolidation loop over the groups of the combined source. *)
Definition consolidated (w : Analyzer.World) : result (list (gmap string cell)) :=
  Analyzer.consolidate sort_values PLATFORM clock 0
    (Analyzer.groupby
       (rows (Analyzer.preprocess to_numeric (Analyzer.concat (source_frames w))))).

(** No source sheet has a label twice in its header. *)
Definition distinct_labels (w : Analyzer.World) : Prop :=
  Forall (fun entry : string * Analyzer.SheetRead =>
            match entry.2 with
            | Analyzer.Values (header :: _) => NoDup header
            | _ => True
            end)
         (Analyzer.source_sheets w).

(** A run meets no error on its way: some source sheet had data, the
    combined source has the required columns, the numeric conversion and the
    consolidation loop raised nothing, the sort of the units that were
    consolidated raised nothing, and the local log could be opened, and its
    header written, if there was anything to rewrite. *)
Definition meets_no_error (w : Analyzer.World) : Prop :=
  source_frames w <> []
  /\ Forall (fun c => c ∈ columns (Analyzer.concat (source_frames w)))
            Analyzer.required_process_cols
  /\ Analyzer.preprocess_raises astype_int_raises (Analyzer.concat (source_frames w)) = false
  /\ exists units,
       consolidated w = Ok units
       /\ (units <> [] -> sort_raises (Analyzer.parsed parse_datetime units) = false)
       /\ (Analyzer.df_final_filtered PLATFORM parse_datetime passes_content_filters w units
             <> [] ->
           is_Ok (Analyzer.file_ready w
                    (Analyzer.df_final_filtered PLATFORM parse_datetime
                       passes_content_filters w units))).
End Run.

(** Parameters of a concrete run. *)
Definition clock0 (k : nat) : string := "2024-01-01 00:00:00 UTC".
Definition to_numeric0 (c : cell) : option Z :=
  match c with Int n => Some n | _ => None end.
Definition parse_datetime0 (c : cell) : option Z :=
  match c with Str "" => None | Str _ => Some 0 | _ => None end.
Definition keep_all (r : gmap string cell) : bool := true.
(** Conversions and sorts that raise nothing. *)
Definition never_raises {A} (x : A) : bool := false.

Definition source_header : list string :=
  [ "Original Username"; "Display Name"; "First Tweet Timestamp"; "Tweet Text";
    "First Tweet URL"; "Tweet Type"; "Conversation ID" ].

(** A run that finds no source data, while the local log holds two records
    that the remote sheet does not have. *)
Definition world_without_source_data : Analyzer.World :=
  {| Analyzer.source_sheets := [ ("Sheet1", Analyzer.Values [ source_header ]) ];
     Analyzer.local_file := Analyzer.Log SyncSpec.local_log;
     Analyzer.target_read_state := Ok [ Analyzer.TARGET_COLUMNS ];
     Analyzer.target_read_sync := Ok [ Analyzer.TARGET_COLUMNS ];
     Analyzer.open_local := Ok tt;
     Analyzer.writeheader_result := Ok tt;
     Analyzer.append_result := Ok tt |}.

(** A run with one new post to rewrite and an empty local log. *)
Definition world_with_one_post : Analyzer.World :=
  {| Analyzer.source_sheets :=
       [ ("Sheet1",
          Analyzer.Values
            [ source_header;
              [ "alice"; "Alice"; "2024-01-01 10:00:00"; "A post about an AI model release.";
                "https://x.com/alice/status/1"; "Original Tweet"; "conv1" ] ]) ];
     Analyzer.local_file := Analyzer.Absent;
     Analyzer.target_read_state := Ok [ Analyzer.TARGET_COLUMNS ];
     Analyzer.target_read_sync := Ok [ Analyzer.TARGET_COLUMNS ];
     Analyzer.open_local := Ok tt;
     Analyzer.writeheader_result := Ok tt;
     Analyzer.append_result := Ok tt |}.

(** A run whose only source row is a reply to another user: nothing to
    consolidate, while the local log holds records to upload. *)
Definition world_with_nothing_new : Analyzer.World :=
  {| Analyzer.source_sheets :=
       [ ("Sheet1",
          Analyzer.Values
            [ source_header;
              [ "alice"; "Alice"; "2024-01-01 10:00:00"; "@bob thanks";
                "https://x.com/alice/status/3"; "Reply"; "conv3" ] ]) ];
     Analyzer.local_file := Analyzer.Log SyncSpec.local_log;
     Analyzer.target_read_state := Ok [ Analyzer.TARGET_COLUMNS ];
     Analyzer.target_read_sync := Ok [ Analyzer.TARGET_COLUMNS ];
     Analyzer.open_local := Ok tt;
     Analyzer.writeheader_result := Ok tt;
     Analyzer.append_result := Ok tt |}.

End RunSpec.

(** ** The script and its exit status *)

Module ScriptSpec.


(** The builtin [int] on the texts of the examples below, strings of ASCII
    digits; any other text is an error here. *)
Fixpoint digits_value (acc : Z) (s : string) : option Z :=
  match s with
  | EmptyString => Some acc
  | String c s' =>
      let n := nat_of_ascii c in
      if ((48 <=? n)%nat && (n <=? 57)%nat)
      then digits_value (10 * acc + Z.of_nat (n - 48)) s'
      else None
  end.

Definition int_of_digits (s : string) : option Z :=
  match s with
  | EmptyString => None
  | _ => digits_value 0 s
  end.

Definition complete_config : Analyzer.Config :=
  {| Analyzer.TELEGRAM_BOT_TOKEN := Some "123456:token";
     Analyzer.TELEGRAM_CHAT_ID := Some "42";
     Analyzer.GOOGLE_SHEETS_URL := Some "https://docs.google.com/spreadsheets/d/1";
     Analyzer.SERVICE_ACCOUNT_FILE := Some "service_account.json";
     Analyzer.GEMINI_API_KEY := Some "key";
     Analyzer.GEMINI_CONCURRENT_REQUESTS := None |}.

(** A complete configuration but for the number of concurrent requests,
    which is no integer. *)
Definition config_with_bad_number : Analyzer.Config :=
  {| Analyzer.TELEGRAM_BOT_TOKEN := Some "123456:token";
     Analyzer.TELEGRAM_CHAT_ID := Some "42";
     Analyzer.GOOGLE_SHEETS_URL := Some "https://docs.google.com/spreadsheets/d/1";
     Analyzer.SERVICE_ACCOUNT_FILE := Some "service_account.json";
     Analyzer.GEMINI_API_KEY := Some "key";
     Analyzer.GEMINI_CONCURRENT_REQUESTS := Some "two" |}.


End ScriptSpec.

(** ** The scraper's state *)

Module ScraperSpec.

Definition tweet (n : Z) : Scraper.Tweet :=
  {| Scraper.id := n; Scraper.row_fields := Ok [ "text" ] |}.

(** A cycle over a known user with two new tweets, a user whose fetch
    fails, and a user seen for the first time. *)
Definition users : list (string * Scraper.Fetch) :=
  [ ("alice", Scraper.Fetched [ tweet 105; tweet 103; tweet 99 ]);
    ("bob", Scraper.TweetsError "timeout");
    ("carol", Scraper.Fetched [ tweet 7; tweet 5 ]) ].

Definition state_before : gmap string Z :=
  <["alice" := 100]> (<["bob" := 50]> ∅).

End ScraperSpec.

(** * More of the code *)

(** ** The sheets the scrapers write *)

Module Sheets.

(** The header row that [run_scrape_cycle] of [scraper.py] writes. *)
Definition twitter_header : list string :=
  [ "Username"; "User ID"; "Display Name"; "Tweet Timestamp"; "Tweet Text"; "Tweet URL";
    "Likes"; "Retweets"; "Replies"; "Quotes"; "Bookmarks"; "Views";
    "Tweet Type"; "Conversation ID" ].

(** [OUTPUT_COLUMNS] of [reddit_scraper.py], the header of its sheet. *)
Definition OUTPUT_COLUMNS : list string :=
  [ "Platform"; "Username"; "User ID"; "Display Name"; "First Tweet Timestamp";
    "Tweet Text"; "Tweet URL"; "Likes"; "Retweets"; "Replies"; "Quotes";
    "Bookmarks"; "Views"; "Tweet Type"; "Conversation ID";
    "Subreddit"; "Score"; "Num Comments"; "Post ID";
    "Image URLs" ].

(** One data row of the twitter sheet. *)
Definition twitter_row : list string :=
  [ "alice"; "1"; "Alice"; "2024-01-01 10:00:00 UTC+0000"; "@bob thanks";
    "https://x.com/alice/status/3"; "0"; "0"; "0"; "0"; "0"; "0"; "Reply"; "3" ].

End Sheets.

(** ** The content filters of step 3d, [process_data] of [analyzer.py] *)

Module Filters.
Import Frame.

Definition MIN_CONTENT_LENGTH : nat := 50.

Definition RELEVANT_KEYWORDS : list string :=
  [ "ai"; "agi"; "openai"; "google"; "gemini"; "claude"; "mistral"; "llm";
    "model"; "automation"; " n8n"; "python"; "api"; "workflow"; "data";
    "tech"; "business"; "startup"; "rahmetlabs"; "scraping"; "analyze";
    "process"; "update"; "news"; "release"; "research"; "paper"; "opinion";
    "thought"; "develop"; "build"; "future"; "risk"; "safety"; "alignment";
    "code"; "coding"; "launch"; "feature"; "limit"; "rate limit"; "context window";
    "token"; "prompt"; "engineer"; "benchmark"; "test" ].

Definition prompt_markers : list string :=
  [ "# Prompt"; "<Role>"; "<Instructions>"; "<Context>" ].

(** What a greedy [\S+] leaves once its first character is matched. *)
Fixpoint skip_nonspace (s : string) : string :=
  match s with
  | EmptyString => EmptyString
  | String c s' => if Text.is_space c then s else skip_nonspace s'
  end.

(** The pattern [http\S+|www.\S+] matched at the start of [s]: the text
    after the match.  The dot is any character but the newline. *)
Definition match_url (s : string) : option string :=
  match s with
  | String "h" (String "t" (String "t" (String "p" (String c rest)))) =>
      if Text.is_space c then None else Some (skip_nonspace rest)
  | String "w" (String "w" (String "w" (String d (String c rest)))) =>
      if Ascii.eqb d "010" then None
      else if Text.is_space c then None else Some (skip_nonspace rest)
  | _ => None
  end.

(** [re.sub(r'http\S+|www.\S+', '', s)]: the matches are found from left to
    right and do not overlap.  Every step consumes a character, so the
    length of the text is fuel enough. *)
Fixpoint sub_urls (fuel : nat) (s : string) : string :=
  match fuel with
  | O => s
  | S fuel' =>
      match match_url s with
      | Some rest => sub_urls fuel' rest
      | None =>
          match s with
          | EmptyString => EmptyString
          | String c s' => String c (sub_urls fuel' s')
          end
      end
  end.

Definition remove_urls (s : string) : string := sub_urls (String.length s) s.

(** [s.replace('---', '')] *)
Fixpoint remove_separators (s : string) : string :=
  match s with
  | EmptyString => EmptyString
  | String c s' =>
      match s' with
      | String c2 (String c3 rest) =>
          if Ascii.eqb c "-" && Ascii.eqb c2 "-" && Ascii.eqb c3 "-"
          then remove_separators rest
          else String c (remove_separators s')
      | _ => String c (remove_separators s')
      end
  end.

Definition head_is_space (s : string) : bool :=
  match s with
  | EmptyString => true
  | String d _ => Text.is_space d
  end.

(** [s.split()]: the maximal runs of characters that are not whitespace. *)
Fixpoint split (s : string) : list string :=
  match s with
  | EmptyString => []
  | String c s' =>
      if Text.is_space c then split s'
      else
        match split s' with
        | w :: ws =>
            if head_is_space s' then String c EmptyString :: w :: ws
            else String c w :: ws
        | [] => [ String c EmptyString ]
        end
  end.

(** [clean_text_for_filtering] *)
Definition clean_text_for_filtering (text : cell) : string :=
  let text := astype_str text in
  let text := remove_urls text in
  let text := remove_separators text in
  let text := Text.join " " (split text) in
  Text.strip text.

(** One of the escaped literals matches at the start of [s], ignoring
    case. *)
Definition matches_at (literals : list string) (s : string) : bool :=
  existsb (fun p => match Analyzer.match_literal_ci p s " " with
                    | Some _ => true
                    | None => false
                    end) literals.

(** [re.search('|'.join(re.escape(l) for l in literals), s, re.IGNORECASE)
    is not None] *)
Fixpoint search_any (literals : list string) (s : string) : bool :=
  matches_at literals s
  || match s with
     | EmptyString => false
     | String _ s' => search_any literals s'
     end.

(** [Series.str.contains(pattern, case=False, na=False)], cell by cell. *)
Definition str_contains (literals : list string) (c : cell) : bool :=
  match c with
  | Str s => search_any literals s
  | _ => false
  end.

(** The occurrences of three backticks, from left to right without
    overlap. *)
Fixpoint count_fences (s : string) : nat :=
  match s with
  | EmptyString => O
  | String c s' =>
      match s' with
      | String c2 (String c3 rest) =>
          if Ascii.eqb c "`" && Ascii.eqb c2 "`" && Ascii.eqb c3 "`"
          then S (count_fences rest)
          else count_fences s'
      | _ => count_fences s'
      end
  end.

(** [Series.str.count('```') <= 2], cell by cell: the count of a cell that
    is no [str] is missing, and the comparison is false. *)
Definition fences_ok (c : cell) : bool :=
  match c with
  | Str s => (count_fences s <=? 2)%nat
  | _ => false
  end.

(** The three masks, in the order in which the code applies them. *)
Definition length_ok (r : gmap string cell) : bool :=
  (MIN_CONTENT_LENGTH <=? String.length (clean_text_for_filtering
                                           (get r "Combined Original Text")))%nat.

Definition keyword_ok (r : gmap string cell) : bool :=
  str_contains RELEVANT_KEYWORDS (get r "Combined Original Text").

Definition structure_ok (r : gmap string cell) : bool :=
  negb (str_contains prompt_markers (get r "Combined Original Text"))
  && fences_ok (get r "Combined Original Text").

Definition df_length_filtered (df_typed_filtered : list (gmap string cell))
  : list (gmap string cell) :=
  filter (fun r => length_ok r) df_typed_filtered.

(** [df_final_filtered] after the keyword filter and after the structure
    filter. *)
Definition df_final_filtered (df_typed_filtered : list (gmap string cell))
  : list (gmap string cell) :=
  filter (fun r => structure_ok r)
    (filter (fun r => keyword_ok r) (df_length_filtered df_typed_filtered)).

(** The row predicate that the three filters amount to. *)
Definition passes_content_filters (r : gmap string cell) : bool :=
  length_ok r && keyword_ok r && structure_ok r.

End Filters.

(** ** The lists of names in the configuration *)

Module Names.

(** [s.split(sep)] for a separator of one character: the pieces between
    the separators, empty ones included. *)
Fixpoint split_on (sep : ascii) (s : string) : list string :=
  match s with
  | EmptyString => [ EmptyString ]
  | String c s' =>
      if Ascii.eqb c sep then EmptyString :: split_on sep s'
      else
        match split_on sep s' with
        | w :: ws => String c w :: ws
        | [] => [ String c EmptyString ]
        end
  end.

(** [[name.strip() for name in names_str.split(',') if name.strip()]]: the
    source sheet names of the analyzer, the target subreddits of the
    reddit scraper. *)
Definition parse_names (names_str : string) : list string :=
  Text.strip <$> filter (fun name => Text.truthy (Text.strip name)) (split_on "," names_str).

Definition is_comma (c : ascii) : bool := Ascii.eqb c ",".

End Names.

(** ** The reddit scraper, [src/scrapers/reddit_scraper.py] *)

Module Reddit.
Import Frame.

(** A submission as [scrape_reddit] reads it: [author] is [None] for a
    deleted author, else [str(author)] and [str(author.id)];
    [timestamp_str] is the creation time formatted in the target
    timezone. *)
Record Post : Type := {
  id : string;
  title : string;
  selftext : string;
  author : option (string * string);
  timestamp_str : string;
  permalink : string;
  score : Z;
  num_comments : Z;
  subreddit_display : string
}.

(** The two handlers of the loop over the subreddits. *)
Inductive Failure : Type :=
| PRAWException (e : string)
| Unexpected (e : string).

(** What [subreddit.top(...)] gives while it is iterated: the posts handled
    before the listing, or the reading of a post, raises; [None] when it
    ends normally. *)
Record Listing : Type := {
  yielded : list Post;
  failure : option Failure
}.

Inductive Notice : Type :=
| NSubredditError (subreddit_name e : string)
| NSubredditUnexpected (subreddit_name e : string)
| NSuccess (appended : nat)
| NAppendError (e : exn)
| NNoNewPosts.

Inductive Event : Type :=
| ENotify (n : Notice)
| ESleep (seconds : Z)
| EAppendRows (rows : list (list string)).

Definition author_name (post : Post) : string :=
  match author post with Some (name, _) => name | None => "[deleted]" end.

Definition author_id (post : Post) : string :=
  match author post with Some (_, i) => i | None => "[deleted]" end.

Definition nl : string := String "010" EmptyString.

(** [combined_text]: the title, and the body when there is one. *)
Definition combined_text (post : Post) : string :=
  "Title: " +:+ title post
  +:+ (if Text.truthy (selftext post)
       then nl +:+ nl +:+ "Body:" +:+ nl +:+ selftext post
       else "").

(** The dict display [row_data]. *)
Definition row_data (post : Post) : gmap string cell :=
  list_to_map
    [ ("Platform", Str "Reddit");
      ("Username", Str (author_name post));
      ("User ID", Str (author_id post));
      ("Display Name", Str (author_name post));
      ("First Tweet Timestamp", Str (timestamp_str post));
      ("Tweet Text", Str (combined_text post));
      ("Tweet URL", Str ("https://www.reddit.com" +:+ permalink post));
      ("Likes", Int 0);
      ("Retweets", Int 0);
      ("Replies", Int (num_comments post));
      ("Quotes", Int 0);
      ("Bookmarks", Int 0);
      ("Views", Int 0);
      ("Tweet Type", Str "Reddit Post");
      ("Conversation ID", Str (id post));
      ("Subreddit", Str (subreddit_display post));
      ("Score", Int (score post));
      ("Num Comments", Int (num_comments post));
      ("Post ID", Str (id post));
      ("Image URLs", Str "") ].

(** [[str(row_data.get(col, '')) for col in OUTPUT_COLUMNS]] *)
Definition row_list (post : Post) : list string :=
  (fun col => astype_str (default (Str "") (row_data post !! col))) <$> Sheets.OUTPUT_COLUMNS.

(** The post ids loaded from the target sheet before the loop; none when
    the sheet cannot be read, has no data row or has no [Post ID] column. *)
Definition existing_post_ids (existing : result (list (list string))) : gset string :=
  match existing with
  | Raise _ => ∅
  | Ok existing_data =>
      if (2 <=? length existing_data)%nat then
        let df_existing := of_values existing_data in
        if has_column df_existing "Post ID"
        then list_to_set
               (omap (fun r : gmap string cell =>
                        match get r "Post ID" with
                        | NaN => None
                        | c => Some (astype_str c)
                        end) (rows df_existing))
        else ∅
      else ∅
  end.

(** The loop [for post in posts], on the posts that are handled. *)
Fixpoint process_posts (posts : list Post) (all_new_rows : list (list string))
    (processed_post_ids : gset string) : list (list string) * gset string :=
  match posts with
  | [] => (all_new_rows, processed_post_ids)
  | post :: rest =>
      if bool_decide (id post ∈ processed_post_ids)
      then process_posts rest all_new_rows processed_post_ids
      else process_posts rest (all_new_rows ++ [row_list post])
                         ({[ id post ]} ∪ processed_post_ids)
  end.

(** One iteration of the loop over [TARGET_SUBREDDITS]: the rows collected
    before an exception stay collected. *)
Definition process_subreddit (st : list (list string) * gset string * list Event)
    (entry : string * Listing) : list (list string) * gset string * list Event :=
  let '(all_new_rows, processed_post_ids, trace) := st in
  let '(subreddit_name, listing) := entry in
  let '(all_new_rows, processed_post_ids) :=
    process_posts (yielded listing) all_new_rows processed_post_ids in
  (all_new_rows, processed_post_ids,
   trace
     ++ match failure listing with
        | None => []
        | Some (PRAWException e) => [ENotify (NSubredditError subreddit_name e)]
        | Some (Unexpected e) => [ENotify (NSubredditUnexpected subreddit_name e)]
        end
     ++ [ESleep 2]).

(** [scrape_reddit]: [existing] is what [get_all_values] gives for the
    target sheet, [listings] what each target subreddit yields,
    [append_result] what [append_rows] would answer. *)
Definition scrape_reddit (existing : result (list (list string)))
    (listings : list (string * Listing)) (append_result : result unit) : list Event :=
  let '(all_new_rows, _, trace) :=
    foldl process_subreddit ([], existing_post_ids existing, []) listings in
  trace
    ++ match all_new_rows with
       | [] => [ENotify NNoNewPosts]
       | _ =>
           EAppendRows all_new_rows
             :: match append_result with
                | Ok _ => [ENotify (NSuccess (length all_new_rows))]
                | Raise e => [ENotify (NAppendError e)]
                end
       end.

(** The bulk appends of a trace, and its notifications. *)
Definition appends (tr : list Event) : list (list (list string)) :=
  omap (fun e => match e with EAppendRows rs => Some rs | _ => None end) tr.

Definition notifications (tr : list Event) : list Notice :=
  omap (fun e => match e with ENotify n => Some n | _ => None end) tr.

(** The posts that the listings yield, in the order of the run. *)
Definition all_yielded (listings : list (string * Listing)) : list Post :=
  mjoin ((fun entry : string * Listing => yielded entry.2) <$> listings).

(** What [get_all_values] returns after a bulk append, for a sheet that
    stores the appended texts as they are. *)
Definition after_append (data : list (list string)) (appended : list (list (list string)))
  : list (list string) :=
  data ++ mjoin appended.

End Reddit.

(** * Predicates and inputs of the further properties *)

(** ** The sheet and the log between two runs *)

Module StoreSpec.
Import Frame.

(** The URL cell of a log row as [read_csv(dtype=str)] gives it: a text or
    a missing value. *)
Definition url_is_text (r : gmap string cell) : Prop :=
  match r !! "First Tweet URL" with
  | Some (Str _) | Some NaN => True
  | _ => False
  end.

(** What [get_all_values] returns after a bulk append, for a sheet that
    stores the appended values as the texts they print as: the old rows,
    then the new ones. *)
Definition after_append (data : list (list string)) (appended : list (list (list cell)))
  : list (list string) :=
  data ++ ((fun row : list cell => astype_str <$> row) <$> mjoin appended).

(** A rewrite that the next run counts as done. *)
Definition good_rewrite (s : string) : Prop :=
  s <> "" /\ Text.startswith "Error:" s = false.

End StoreSpec.

(** ** Counting what a trace does *)

Module TraceSpec.

Definition is_call (lang : Analyzer.Lang) (e : Analyzer.Event) : bool :=
  match e, lang with
  | Analyzer.ECall Analyzer.EN _, Analyzer.EN => true
  | Analyzer.ECall Analyzer.RU _, Analyzer.RU => true
  | _, _ => false
  end.

Definition is_backoff (e : Analyzer.Event) : bool :=
  match e with Analyzer.EBackoff => true | _ => false end.

(** The pause between two units of the rewrite loop, [asyncio.sleep(10)];
    the pause between the two calls of one unit is one second. *)
Definition is_pause (e : Analyzer.Event) : bool :=
  match e with Analyzer.ESleep 10 => true | _ => false end.

Definition is_row_write (e : Analyzer.Event) : bool :=
  match e with Analyzer.EWriteRow _ => true | _ => false end.

(** The work of the rewrite stage: a call of the service, a line written to
    the local log. *)
Definition is_rewrite_work (e : Analyzer.Event) : bool :=
  match e with
  | Analyzer.ECall _ _ | Analyzer.EWriteRow _ | Analyzer.EWriteHeader => true
  | _ => false
  end.

(** The notifications by which [process_data] reports how a run ended. *)
Definition is_outcome (e : Analyzer.Event) : bool :=
  match e with
  | Analyzer.ENotify Analyzer.NNoSourceData
  | Analyzer.ENotify Analyzer.NPreprocessError
  | Analyzer.ENotify Analyzer.NNoNewTweets
  | Analyzer.ENotify Analyzer.NNoRelevant
  | Analyzer.ENotify (Analyzer.NSuccess _) => true
  | _ => false
  end.

Definition count (p : Analyzer.Event -> bool) (tr : list Analyzer.Event) : nat :=
  length (filter (fun e => p e) tr).

(** The calls of the rewrite service for one language. *)
Definition calls (lang : Analyzer.Lang) (tr : list Analyzer.Event) : nat :=
  count (is_call lang) tr.

End TraceSpec.

(** ** A later run *)

Module NextRunSpec.

(** The local log after a first run wrote one rewritten record. *)
Definition log_after_first_run : Analyzer.LocalFile :=
  foldl Analyzer.append_row (Analyzer.write_header Analyzer.Absent)
        [ SyncSpec.rewritten_record ].

(** The world of the next run: the same post is still in the source sheet,
    and the remote sheet cannot be read. *)
Definition world_of_next_run : Analyzer.World :=
  {| Analyzer.source_sheets := Analyzer.source_sheets RunSpec.world_with_one_post;
     Analyzer.local_file := log_after_first_run;
     Analyzer.target_read_state := Raise (OtherException "APIError");
     Analyzer.target_read_sync := Raise (OtherException "APIError");
     Analyzer.open_local := Ok tt;
     Analyzer.writeheader_result := Ok tt;
     Analyzer.append_result := Ok tt |}.

End NextRunSpec.

(** ** Texts for the content filters *)

Module FilterSpec.


(** A unit whose text passes the filters. *)
Definition post_about_a_model : gmap string Frame.cell :=
  RewriteSpec.unit_with_text
    "We trained a new model on public data and the results look promising.".

End FilterSpec.

(** ** Posts and listings *)

Module RedditSpec.

Definition post (i : string) : Reddit.Post :=
  {| Reddit.id := i; Reddit.title := "A new model"; Reddit.selftext := "";
     Reddit.author := Some ("bob", "t2_1");
     Reddit.timestamp_str := "2024-01-01 10:00:00 UTC+0000";
     Reddit.permalink := "/r/x/comments/" +:+ i +:+ "/";
     Reddit.score := 10; Reddit.num_comments := 3;
     Reddit.subreddit_display := "x" |}.

(** Two subreddits that share a post; the second listing fails after its
    first post. *)
Definition listings : list (string * Reddit.Listing) :=
  [ ("x", {| Reddit.yielded := [ post "abc1"; post "abc2" ]; Reddit.failure := None |});
    ("y", {| Reddit.yielded := [ post "abc2"; post "abc3" ];
             Reddit.failure := Some (Reddit.PRAWException "503") |}) ].

End RedditSpec.

(** ** The scrapers' sheets as the analyzer's source *)

Module PipelineSpec.
Import Frame.

(** Every source sheet has the header that one of the two scrapers
    writes. *)
Definition scraper_sheets (w : Analyzer.World) : Prop :=
  Forall (fun entry : string * Analyzer.SheetRead =>
            match entry.2 with
            | Analyzer.Values (header :: _) =>
                header = Sheets.twitter_header \/ header = Sheets.OUTPUT_COLUMNS
            | _ => True
            end)
         (Analyzer.source_sheets w).

(** The fields that a consolidated record copies from the first row of its
    group and that no later step changes. *)
Definition copied (c : string) : Prop :=
  c = "Original Username" \/ c = "First Tweet Timestamp" \/ c = "First Tweet URL".

(** No source sheet has the column [c]. *)
Definition headers_lack (c : string) (w : Analyzer.World) : Prop :=
  Forall (fun entry : string * Analyzer.SheetRead =>
            match entry.2 with
            | Analyzer.Values (header :: _) => c ∉ header
            | _ => True
            end)
         (Analyzer.source_sheets w).

(** Every source sheet has the header that [scraper.py] writes. *)
Definition twitter_sheets (w : Analyzer.World) : Prop :=
  Forall (fun entry : string * Analyzer.SheetRead =>
            match entry.2 with
            | Analyzer.Values (header :: _) => header = Sheets.twitter_header
            | _ => True
            end)
         (Analyzer.source_sheets w).

(** The columns that the consolidation reads and standardization does not
    add. *)
Definition source_labels : list string := [ "Display Name"; "Tweet Text"; "Tweet Type" ].

(** Every source sheet has the three columns, and no label twice. *)
Definition labelled (w : Analyzer.World) : Prop :=
  Forall (fun entry : string * Analyzer.SheetRead =>
            match entry.2 with
            | Analyzer.Values (header :: _) =>
                NoDup header /\ Forall (fun c => c ∈ header) source_labels
            | _ => True
            end)
         (Analyzer.source_sheets w).

(** A row without author and without record URL. *)
Definition anonymous (r : gmap string cell) : Prop :=
  r !! "Original Username" = Some (Str "") /\ r !! "First Tweet URL" = Some (Str "").

(** One post as [scrape_reddit] writes it. *)
Definition reddit_row : list string := Reddit.row_list (RedditSpec.post "abc1").

(** A run of the reddit analyzer over the scraper's sheet, after a first
    run logged a record: the log holds a rewritten record whose URL is the
    empty string. *)
Definition world_after_first_run : Analyzer.World :=
  {| Analyzer.source_sheets :=
       [ ("Sheet_Reddit_Raw", Analyzer.Values [ Sheets.OUTPUT_COLUMNS; reddit_row ]) ];
     Analyzer.local_file := Analyzer.Log ProcessedSpec.log_with_empty_url;
     Analyzer.target_read_state := Ok [ Analyzer.TARGET_COLUMNS ];
     Analyzer.target_read_sync := Ok [ Analyzer.TARGET_COLUMNS ];
     Analyzer.open_local := Ok tt;
     Analyzer.writeheader_result := Ok tt;
     Analyzer.append_result := Ok tt |}.

(** The first run of the twitter analyzer over the scraper's sheet. *)
Definition world_with_twitter_sheet : Analyzer.World :=
  {| Analyzer.source_sheets :=
       [ ("Sheet1", Analyzer.Values [ Sheets.twitter_header; Sheets.twitter_row ]) ];
     Analyzer.local_file := Analyzer.Absent;
     Analyzer.target_read_state := Ok [ Analyzer.TARGET_COLUMNS ];
     Analyzer.target_read_sync := Ok [ Analyzer.TARGET_COLUMNS ];
     Analyzer.open_local := Ok tt;
     Analyzer.writeheader_result := Ok tt;
     Analyzer.append_result := Ok tt |}.

(** The unit that the consolidation makes of that post. *)
Definition consolidated_post : gmap string cell :=
  Analyzer.processed_row Analyzer.reddit "2024-01-01 00:00:00 UTC" "abc1"
    (Str "") (Str "bob") (Str "2024-01-01 10:00:00 UTC+0000") (Str "Title: A new model")
    (Str "") (Int 0) (Int 0) (Int 0) (Int 0) (Int 0) (Int 0) (Str "Reddit Post") (Int 1).

End PipelineSpec.

(** ** A cycle in progress *)

Module CycleSpec.

(** The cycle's state before the first user. *)
Definition cycle_start (state : gmap string Z) : Scraper.Cycle :=
  {| Scraper.last_seen_state := state; Scraper.all_rows_to_append := [];
     Scraper.processed_tweet_ids_this_run := ∅; Scraper.cycle_errors := [] |}.

Definition alice_timeline : list Scraper.Tweet :=
  [ ScraperSpec.tweet 105; ScraperSpec.tweet 103; ScraperSpec.tweet 99 ].

End CycleSpec.

(** Discharges [has_labels] on a concrete row. *)
Ltac solve_labels :=
  unfold OwnershipSpec.has_labels, OwnershipSpec.consolidation_labels;
  repeat first
    [ apply Forall_nil
    | apply Forall_cons; split
    | (eexists; reflexivity) ].


(** * Properties *)

(** ** Text *)

Lemma slice_to_length n s : (String.length (Text.slice_to n s) <= n)%nat.
Proof.
  revert s. induction n as [|n IH]; intros [|c s]; simpl; try lia.
  specialize (IH s). lia.
Qed.

Lemma slice_to_all n s : (String.length s <= n)%nat -> Text.slice_to n s = s.
Proof.
  revert s. induction n as [|n IH]; intros [|c s]; simpl; intros H; try lia; try reflexivity.
  f_equal. apply IH. lia.
Qed.

Lemma slice_to_prefix n s : exists rest, s = Text.slice_to n s +:+ rest.
Proof.
  revert s. induction n as [|n IH]; intros s.
  - exists s. destruct s; reflexivity.
  - destruct s as [|c s]; [exists EmptyString; reflexivity|].
    destruct (IH s) as [rest Hrest]. exists rest. simpl.
    change (String c (Text.slice_to n s) +:+ rest) with (String c (Text.slice_to n s +:+ rest)).
    congruence.
Qed.

Lemma truncated_message_spec message :
  Telegram.truncated_message message = Text.slice_to Telegram.max_len message.
Proof.
  unfold Telegram.truncated_message.
  destruct (Nat.ltb_spec Telegram.max_len (String.length message)); [reflexivity|].
  symmetry. apply slice_to_all. assumption.
Qed.

(** ** The notification channel *)

Lemma handlers_return tr r :
  (Telegram.handlers (tr, r)).2 = Ok tt
  /\ Telegram.sent (Telegram.handlers (tr, r)).1 = Telegram.sent tr.
Proof.
  destruct r as [[]|e]; simpl; [split; reflexivity|].
  destruct (is_request_exception e); simpl; split; try reflexivity;
    unfold Telegram.sent; rewrite omap_app; simpl; apply app_nil_r.
Qed.

Lemma try_body_sent post verbose url p :
  Telegram.sent (Telegram.try_body post verbose url p).1 = [p].
Proof.
  unfold Telegram.try_body.
  destruct (post url p) as [resp|e]; [|reflexivity].
  destruct (Telegram.raise_for_status resp); [|reflexivity].
  destruct verbose; [|reflexivity].
  destruct (Text.first_line _); reflexivity.
Qed.

(** C9. For every message, every configuration and every behaviour of the
    transport (an answer of any status, or any exception), the notification
    function returns normally, hands the transport at most one payload, and
    the text of that payload is the first 4096 characters of the message. *)
Theorem send_telegram_notification_bounded_and_silent
    (token chat : option string)
    (post : string -> Telegram.Payload -> result Telegram.Response)
    (verbose : bool) (message : string) :
  let r := Telegram.send_telegram_notification token chat post verbose message in
  r.2 = Ok tt
  /\ (length (Telegram.sent r.1) <= 1)%nat
  /\ Forall (fun p =>
               Telegram.text p = Text.slice_to 4096 message
               /\ (String.length (Telegram.text p) <= 4096)%nat
               /\ exists rest, message = Telegram.text p +:+ rest)
            (Telegram.sent r.1).
Proof.
  cbv zeta. unfold Telegram.send_telegram_notification.
  destruct (_ || _).
  - destruct verbose; simpl; repeat split; auto.
  - match goal with |- context [Telegram.handlers ?b] =>
      destruct b as [tr r] eqn:Hb end.
    pose proof (try_body_sent post verbose
      ("https://api.telegram.org/bot" +:+ default "" token +:+ "/sendMessage")
      {| Telegram.chat_id := default "" chat;
         Telegram.text := Telegram.truncated_message message |}) as Hs.
    rewrite Hb in Hs. simpl in Hs.
    destruct (handlers_return tr r) as [H1 H2].
    rewrite H1, H2, Hs. split; [reflexivity|]. split; [simpl; lia|].
    constructor; [|constructor]. simpl.
    rewrite truncated_message_spec. change Telegram.max_len with 4096%nat.
    split; [reflexivity|]. split; [apply slice_to_length|apply slice_to_prefix].
Qed.

Lemma startswith_iff p s :
  Text.startswith p s = true <-> exists t, s = p +:+ t.
Proof.
  unfold Text.startswith. revert s.
  induction p as [|a p IH]; intros s.
  - split; [intros _; exists s; reflexivity|intros _; destruct s; reflexivity].
  - destruct s as [|b s]; simpl.
    + split; [discriminate|]. intros [t Ht]. discriminate.
    + destruct (ascii_dec a b) as [->|Hne].
      * rewrite IH. split; intros [t Ht]; exists t.
        -- rewrite Ht. reflexivity.
        -- injection Ht. auto.
      * split; [discriminate|]. intros [t Ht]. injection Ht. congruence.
Qed.

(** ** The processed-URL set *)

Lemma processed_mask_iff (r : gmap string Frame.cell) :
  Analyzer.processed_mask r = true <-> ProcessedSpec.counted_as_processed r.
Proof.
  unfold Analyzer.processed_mask, ProcessedSpec.counted_as_processed.
  cbv zeta. unfold Frame.ne_empty, Frame.fillna, Frame.str_startswith.
  rewrite !andb_true_iff, !negb_true_iff, !bool_decide_eq_true.
  rewrite <- !not_true_iff_false, !startswith_iff.
  split.
  - intros ((((H1 & H2) & H3) & H4) & H5). repeat split; try assumption.
    + destruct (Frame.get r "First Tweet URL"); [discriminate|discriminate|discriminate].
    + congruence.
    + congruence.
  - intros (H1 & H2 & H3 & H4 & H5). repeat split; try assumption.
    + destruct (Frame.get r "First Tweet URL"); [congruence|reflexivity|reflexivity].
    + congruence.
    + congruence.
Qed.

Lemma usable_iff df :
  negb (Frame.empty df) && forallb (Frame.has_column df) Analyzer.required_cols = true
  <-> ProcessedSpec.usable df.
Proof.
  unfold ProcessedSpec.usable. rewrite andb_true_iff, negb_true_iff.
  rewrite forallb_forall, Forall_forall. unfold Frame.has_column.
  split; intros [H1 H2]; (split; [assumption|]); intros c Hc.
  - apply list_elem_of_In in Hc. apply H2 in Hc. by apply bool_decide_eq_true in Hc.
  - apply list_elem_of_In in Hc. apply bool_decide_eq_true. auto.
Qed.

(** C1 (amended). [load_processed_urls] returns exactly the URLs of the rows
    that the code counts as processed: the URL cell is present (not a
    missing value; the empty string is present), and the two rewrite fields,
    read as strings, are non-empty and do not begin with [Error:].  This
    holds for every table that has rows and the three columns; for any other
    table the result is the empty set. *)
Theorem load_processed_urls_exact (df : Frame.DataFrame) (u : string) :
  u ∈ Analyzer.load_processed_urls (Some df)
  <-> ProcessedSpec.usable df
      /\ exists r, r ∈ Frame.rows df
                   /\ Frame.astype_str (Frame.get r "First Tweet URL") = u
                   /\ ProcessedSpec.counted_as_processed r.
Proof.
  unfold Analyzer.load_processed_urls.
  destruct (negb (Frame.empty df) && forallb _ _) eqn:Hg.
  - apply usable_iff in Hg.
    rewrite elem_of_list_to_set, list_elem_of_fmap.
    split.
    + intros (r & -> & Hr). apply list_elem_of_filter in Hr as [Hm Hr].
      split; [assumption|]. exists r. split; [assumption|]. split; [reflexivity|].
      apply processed_mask_iff. by apply Is_true_true.
    + intros (_ & r & Hr & <- & Hp). exists r. split; [reflexivity|].
      apply list_elem_of_filter. split; [|assumption].
      apply Is_true_true. by apply processed_mask_iff.
  - split; [intros H; by apply not_elem_of_empty in H|].
    intros [Hu _]. apply usable_iff in Hu. congruence.
Qed.

(** C1, as stated, fails: a log whose only record has the empty string for
    URL and both rewrites filled gives the set that holds the empty string,
    while no row of the log satisfies the predicate of the specification. *)
Lemma load_processed_urls_counts_empty_url :
  "" ∈ Analyzer.load_processed_urls (Some ProcessedSpec.log_with_empty_url)
  /\ ~ (exists r, r ∈ Frame.rows ProcessedSpec.log_with_empty_url
                  /\ ProcessedSpec.successfully_processed r).
Proof.
  split.
  - vm_compute. reflexivity.
  - intros (r & Hr & url & en & ru & Hu & _ & _ & Hne & _).
    apply list_elem_of_singleton in Hr. subst r.
    vm_compute in Hu. congruence.
Qed.

(** ** The ownership filter *)

Lemma lstrip_split s :
  exists ws, s = ws +:+ Text.lstrip s /\ Text.all_chars Text.is_space ws = true.
Proof.
  induction s as [|c s IH]; simpl.
  - exists EmptyString. split; reflexivity.
  - destruct (Text.is_space c) eqn:Hc.
    + destruct IH as (ws & Hs & Hws). exists (String c ws). split.
      * change (String c ws +:+ Text.lstrip s) with (String c (ws +:+ Text.lstrip s)).
        congruence.
      * simpl. rewrite Hc, Hws. reflexivity.
    + exists EmptyString. split; reflexivity.
Qed.

Lemma lstrip_spaces ws s :
  Text.all_chars Text.is_space ws = true -> Text.lstrip (ws +:+ s) = Text.lstrip s.
Proof.
  induction ws as [|c ws IH]; simpl; [reflexivity|].
  intros H. apply andb_true_iff in H as [Hc Hws].
  change (String c ws +:+ s) with (String c (ws +:+ s)). simpl.
  rewrite Hc. auto.
Qed.

Lemma match_literal_ci_iff pat s prev p r :
  Analyzer.match_literal_ci pat s prev = Some (p, r)
  <-> exists m, s = m +:+ r
                /\ OwnershipSpec.lower_str m = OwnershipSpec.lower_str pat
                /\ p = OwnershipSpec.last_char prev m.
Proof.
  revert s prev. induction pat as [|a pat IH]; intros s prev; simpl.
  - split.
    + intros [= <- <-]. exists EmptyString. repeat split.
    + intros (m & -> & Hm & ->). destruct m; [reflexivity|discriminate].
  - destruct s as [|c s].
    + split; [discriminate|]. intros (m & Hs & Hm & _).
      destruct m; discriminate.
    + case_bool_decide as Hac.
      * rewrite IH. split.
        -- intros (m & -> & Hm & ->). exists (String c m). repeat split.
           simpl. congruence.
        -- intros (m & Hs & Hm & ->). destruct m as [|c' m]; [discriminate|].
           change (String c' m +:+ r) with (String c' (m +:+ r)) in Hs.
           injection Hs as <- ->. simpl in Hm. injection Hm as _ Hm.
           exists m. repeat split. assumption.
      * split; [discriminate|]. intros (m & Hs & Hm & _).
        destruct m as [|c' m]; [discriminate|].
        change (String c' m +:+ r) with (String c' (m +:+ r)) in Hs.
        injection Hs as <- ->. simpl in Hm. injection Hm as Hc _. congruence.
Qed.

Lemma author_at_boundary_iff author rest :
  Analyzer.author_at_boundary author rest = true
  <-> OwnershipSpec.names_author author rest.
Proof.
  unfold Analyzer.author_at_boundary, OwnershipSpec.names_author.
  destruct (Analyzer.match_literal_ci author rest "@") as [[p r]|] eqn:Hm.
  - apply match_literal_ci_iff in Hm as (m & -> & Hl & ->).
    unfold Analyzer.word_boundary. split.
    + intros Hx. exists m, r. repeat split; [assumption|].
      unfold OwnershipSpec.head_is_word.
      destruct (Text.is_word _), r as [|c r]; simpl in *; try destruct (Text.is_word c);
        simpl in *; congruence.
    + intros (m' & r' & Hs & Hl' & Hb).
      assert (Analyzer.match_literal_ci author (m +:+ r) "@"
              = Some (OwnershipSpec.last_char "@" m', r')) as Hm'.
      { apply match_literal_ci_iff. exists m'. repeat split; assumption. }
      assert (Analyzer.match_literal_ci author (m +:+ r) "@"
              = Some (OwnershipSpec.last_char "@" m, r)) as Hm''.
      { apply match_literal_ci_iff. exists m. repeat split; assumption. }
      rewrite Hm' in Hm''. injection Hm'' as Hp ->. rewrite Hp in Hb.
      unfold OwnershipSpec.head_is_word in Hb.
      destruct (Text.is_word _), r as [|c r]; simpl in *; try destruct (Text.is_word c);
        simpl in *; congruence.
  - split; [discriminate|]. intros (m & r & Hs & Hl & _).
    assert (Analyzer.match_literal_ci author rest "@"
            = Some (OwnershipSpec.last_char "@" m, r)) as Hm'.
    { apply match_literal_ci_iff. exists m. repeat split; assumption. }
    congruence.
Qed.

Lemma is_word_lower c : Text.is_word (Text.lower c) = Text.is_word c.
Proof. destruct c as [[] [] [] [] [] [] [] []]; reflexivity. Qed.

Lemma lower_str_words m a :
  OwnershipSpec.lower_str m = OwnershipSpec.lower_str a ->
  Text.all_chars Text.is_word m = Text.all_chars Text.is_word a.
Proof.
  revert a. induction m as [|c m IH]; intros [|d a]; simpl; try discriminate; [reflexivity|].
  intros [= Hc Hm]. rewrite (IH a Hm).
  rewrite <- (is_word_lower c), Hc, is_word_lower. reflexivity.
Qed.

Lemma last_char_word p m :
  m <> EmptyString -> Text.all_chars Text.is_word m = true ->
  Text.is_word (OwnershipSpec.last_char p m) = true.
Proof.
  revert p. induction m as [|c m IH]; intros p Hne Hw; [congruence|].
  simpl in *. apply andb_true_iff in Hw as [Hc Hm].
  destruct m as [|d m]; [exact Hc|]. apply IH; [discriminate|assumption].
Qed.

(** With a username for author (non-empty, word characters only), the
    look-ahead compares the whole run of word characters after the [@] with
    the author, up to case. *)
Lemma names_author_iff_run author rest :
  author <> EmptyString -> Text.all_chars Text.is_word author = true ->
  OwnershipSpec.names_author author rest <-> OwnershipSpec.run_is_author author rest.
Proof.
  intros Hne Hw. unfold OwnershipSpec.names_author, OwnershipSpec.run_is_author.
  assert (forall m, OwnershipSpec.lower_str m = OwnershipSpec.lower_str author ->
                    m <> EmptyString /\ Text.all_chars Text.is_word m = true) as Hm.
  { intros m Hl. split.
    - intros ->. destruct author; [congruence|discriminate].
    - by rewrite (lower_str_words m author Hl). }
  split.
  - intros (m & r & -> & Hl & Hb). destruct (Hm m Hl) as [Hm1 Hm2].
    exists m, r. repeat split; try assumption.
    rewrite (last_char_word "@" m Hm1 Hm2) in Hb.
    destruct (OwnershipSpec.head_is_word r); congruence.
  - intros (m & r & -> & Hmw & Hr & Hl). destruct (Hm m Hl) as [Hm1 Hm2].
    exists m, r. repeat split; try assumption.
    rewrite (last_char_word "@" m Hm1 Hm2), Hr. discriminate.
Qed.

(** The embedding of the regular expression matches exactly the texts that
    begin with a mention of another user. *)
Lemma reply_to_other_iff author text :
  Analyzer.reply_to_other author text = true
  <-> OwnershipSpec.begins_with_mention_of_other author text.
Proof.
  unfold Analyzer.reply_to_other, OwnershipSpec.begins_with_mention_of_other.
  split.
  - destruct (lstrip_split text) as (ws & Htext & Hws).
    destruct (Text.lstrip text) as [|c rest]; [discriminate|].
    destruct (ascii_dec c "@") as [->|Hc].
    2:{ intros H. exfalso. revert H.
        destruct c as [[] [] [] [] [] [] [] []]; try discriminate. congruence. }
    intros H. apply andb_true_iff in H as [Ha Hw].
    destruct rest as [|d rest]; [discriminate|]. simpl in Hw.
    exists ws, (String d EmptyString), rest. repeat split.
    + exact Htext.
    + exact Hws.
    + simpl. lia.
    + simpl. lia.
    + simpl. rewrite Hw. reflexivity.
    + intros Hn. apply author_at_boundary_iff in Hn.
      change (String d "" +:+ rest) with (String d rest) in Hn.
      rewrite Hn in Ha. discriminate.
  - intros (ws & name & rest & -> & Hws & [Hlen _] & Hname & Hn).
    rewrite lstrip_spaces by assumption.
    change ("@" +:+ name +:+ rest) with (String "@" (name +:+ rest)). simpl.
    apply andb_true_iff. split.
    + apply negb_true_iff. apply not_true_iff_false. intros Ha.
      apply Hn. by apply author_at_boundary_iff.
    + destruct name as [|d name]; [simpl in Hlen; lia|].
      simpl in Hname. apply andb_true_iff in Hname as [Hd _].
      exact Hd.
Qed.

(** ** Sorting a group by timestamp *)

Lemma cell_le_total : Total Frame.cell_le.
Proof.
  intros [|x|x] [|y|y]; simpl; try (left; lia); try (right; lia).
  - apply (total String.le).
  - destruct (Z.le_ge_cases x y); [left|right]; lia.
Qed.

Lemma cell_le_trans : Transitive Frame.cell_le.
Proof.
  intros [|x|x] [|y|y] [|z|z]; simpl; try lia; try done.
  apply (transitivity (R := String.le)).
Qed.

Lemma by_column_total col : Total (Frame.by_column col).
Proof. intros a b. apply cell_le_total. Qed.

Lemma by_column_trans col : Transitive (Frame.by_column col).
Proof. intros a b c. apply cell_le_trans. Qed.

Lemma StronglySorted_sublist {A} (R : relation A) (l k : list A) :
  l `sublist_of` k -> StronglySorted R k -> StronglySorted R l.
Proof.
  induction 1 as [|x l k Hs IH|x l k Hs IH]; intros Hk.
  - constructor.
  - apply StronglySorted_inv in Hk as [Hk Hx]. constructor; [auto|].
    rewrite Forall_forall in *. intros y Hy. apply Hx.
    by apply (elem_of_sublist l k).
  - apply StronglySorted_inv in Hk as [Hk _]. auto.
Qed.

Section StableSortFacts.
Context {A : Type} (R : relation A) `{!RelDecision R}.

Lemma insert_sorted_Permutation (x : A) (l : list A) :
  Frame.insert_sorted R x l ≡ₚ x :: l.
Proof.
  induction l as [|y l IH]; cbn [Frame.insert_sorted]; [reflexivity|].
  destruct (decide (R x y)); [reflexivity|].
  rewrite IH. apply Permutation_swap.
Qed.

Lemma stable_sort_Permutation (l : list A) : Frame.stable_sort R l ≡ₚ l.
Proof.
  induction l as [|x l IH]; [reflexivity|].
  unfold Frame.stable_sort. cbn [foldr]. fold (Frame.stable_sort R l).
  rewrite insert_sorted_Permutation. by rewrite IH.
Qed.

Lemma elem_of_stable_sort (x : A) (l : list A) : x ∈ Frame.stable_sort R l <-> x ∈ l.
Proof. by rewrite stable_sort_Permutation. Qed.

Lemma StronglySorted_insert_sorted `{!Transitive R, !Total R} (x : A) (l : list A) :
  StronglySorted R l -> StronglySorted R (Frame.insert_sorted R x l).
Proof.
  induction l as [|y l IH]; cbn [Frame.insert_sorted]; intros Hl.
  - repeat constructor.
  - apply StronglySorted_inv in Hl as [Hl Hy].
    destruct (decide (R x y)) as [Hxy|Hxy].
    + constructor; [by constructor|]. constructor; [exact Hxy|].
      eapply Forall_impl; [exact Hy|]. intros z Hz. by transitivity y.
    + assert (R y x) as Hyx by (destruct (total R x y); [contradiction|assumption]).
      constructor; [by apply IH|].
      rewrite insert_sorted_Permutation. by constructor.
Qed.

Lemma StronglySorted_stable_sort `{!Transitive R, !Total R} (l : list A) :
  StronglySorted R (Frame.stable_sort R l).
Proof.
  induction l as [|x l IH]; [constructor|].
  unfold Frame.stable_sort. cbn [foldr]. by apply StronglySorted_insert_sorted.
Qed.

(** The sort is stable: elements that tie with one another keep their
    order. *)
Lemma insert_sorted_filter (P : A -> Prop) `{forall a, Decision (P a)} (x : A) (l : list A) :
  (forall a b, P a -> P b -> R a b) ->
  filter P (Frame.insert_sorted R x l) = filter P (x :: l).
Proof.
  intros Htie. induction l as [|y l IH]; cbn [Frame.insert_sorted]; [reflexivity|].
  destruct (decide (R x y)) as [Hxy|Hxy]; [reflexivity|].
  destruct (decide (P x)) as [Hx|Hx].
  - assert (~ P y) as Hy by (intros Hy; apply Hxy; by apply Htie).
    rewrite (filter_cons_False P y) by exact Hy. rewrite IH.
    rewrite !(filter_cons_True P x) by exact Hx.
    by rewrite (filter_cons_False P y) by exact Hy.
  - rewrite (filter_cons_False P x (y :: l)) by exact Hx.
    destruct (decide (P y)) as [Hy|Hy].
    + rewrite !(filter_cons_True P y) by exact Hy. rewrite IH.
      by rewrite (filter_cons_False P x) by exact Hx.
    + rewrite !(filter_cons_False P y) by exact Hy. rewrite IH.
      by rewrite (filter_cons_False P x) by exact Hx.
Qed.

Lemma stable_sort_filter (P : A -> Prop) `{forall a, Decision (P a)} (l : list A) :
  (forall a b, P a -> P b -> R a b) ->
  filter P (Frame.stable_sort R l) = filter P l.
Proof.
  intros Htie. induction l as [|x l IH]; [reflexivity|].
  unfold Frame.stable_sort. cbn [foldr]. fold (Frame.stable_sort R l).
  rewrite insert_sorted_filter by exact Htie.
  destruct (decide (P x)) as [Hx|Hx].
  - rewrite !(filter_cons_True P x) by exact Hx. by rewrite IH.
  - rewrite !(filter_cons_False P x) by exact Hx. exact IH.
Qed.

End StableSortFacts.

(** The sort by insertion keeps what [sort_values] guarantees, at every
    length: it is the sorter of the concrete runs below. *)
Lemma insertion_sorter : Frame.Sorter.
Proof.
  refine {| Frame.sort_rows := fun col => Frame.stable_sort (Frame.by_column col) |}.
  - intros col l. apply stable_sort_Permutation.
  - intros col l.
    exact (@StronglySorted_stable_sort _ _ _ (by_column_trans col) (by_column_total col) l).
  - intros col l t _. apply stable_sort_filter.
    intros r1 r2 H1 H2. unfold Frame.by_column. rewrite H1, H2.
    destruct (cell_le_total t t); assumption.
Defined.

Lemma core_thread_tweets_sorted (sort_values : Frame.Sorter) author group :
  StronglySorted (Frame.by_column "First Tweet Timestamp")
                 (Analyzer.core_thread_tweets sort_values author group).
Proof.
  unfold Analyzer.core_thread_tweets.
  eapply StronglySorted_sublist; [apply sublist_filter|].
  apply Frame.sort_StronglySorted.
Qed.

Lemma contains_reply_iff author (r : gmap string Frame.cell) :
  Analyzer.contains_reply_to_other author (Frame.get r "Tweet Text") = true
  <-> OwnershipSpec.is_reply_to_other author r.
Proof.
  unfold OwnershipSpec.is_reply_to_other, Analyzer.contains_reply_to_other.
  destruct (Frame.get r "Tweet Text") as [|s|n].
  - split; [discriminate|]. intros (s & Hs & _). discriminate.
  - rewrite reply_to_other_iff. split.
    + intros H. exists s. split; [reflexivity|assumption].
    + intros (s' & [= <-] & H). assumption.
  - split; [discriminate|]. intros (s & Hs & _). discriminate.
Qed.

Lemma elem_of_core_thread_tweets (sort_values : Frame.Sorter) author group (r : gmap string Frame.cell) :
  r ∈ Analyzer.core_thread_tweets sort_values author group
  <-> r ∈ group /\ ~ OwnershipSpec.is_reply_to_other author r.
Proof.
  unfold Analyzer.core_thread_tweets.
  rewrite list_elem_of_filter, Frame.sort_Permutation, <- contains_reply_iff.
  rewrite Is_true_true, negb_true_iff, not_true_iff_false. tauto.
Qed.

(** ** Consolidation *)

Lemma getitem_Ok (r : gmap string Frame.cell) c :
  is_Some (r !! c) -> Frame.getitem r c = Ok (Frame.get r c).
Proof. intros [v Hv]. unfold Frame.getitem, Frame.get. rewrite Hv. reflexivity. Qed.

Lemma thread_row_Ok platform now conv core (f : gmap string Frame.cell) :
  OwnershipSpec.has_labels f ->
  Analyzer.thread_row platform now conv core f
  = Ok (Analyzer.processed_row platform now conv
          (Frame.get f "Original Username") (Frame.get f "Display Name")
          (Frame.get f "First Tweet Timestamp")
          (Frame.Str (Analyzer.combined_text core))
          (Frame.get f "First Tweet URL") (Frame.get f "Likes (First Tweet)")
          (Frame.get f "Retweets (First Tweet)") (Frame.get f "Replies (First Tweet)")
          (Frame.get f "Quotes (First Tweet)") (Frame.get f "Bookmarks (First Tweet)")
          (Frame.get f "Views (First Tweet)")
          (Frame.Str "Thread") (Frame.Int (Z.of_nat (length core)))).
Proof.
  intros H. unfold OwnershipSpec.has_labels, OwnershipSpec.consolidation_labels in H.
  repeat (apply Forall_cons in H as [? H]).
  unfold Analyzer.thread_row.
  rewrite !getitem_Ok by assumption. reflexivity.
Qed.

Lemma single_row_Ok platform now conv (f : gmap string Frame.cell) :
  OwnershipSpec.has_labels f ->
  Analyzer.single_row platform now conv f
  = Ok (Analyzer.processed_row platform now conv
          (Frame.get f "Original Username") (Frame.get f "Display Name")
          (Frame.get f "First Tweet Timestamp") (Frame.get f "Tweet Text")
          (Frame.get f "First Tweet URL") (Frame.get f "Likes (First Tweet)")
          (Frame.get f "Retweets (First Tweet)") (Frame.get f "Replies (First Tweet)")
          (Frame.get f "Quotes (First Tweet)") (Frame.get f "Bookmarks (First Tweet)")
          (Frame.get f "Views (First Tweet)")
          (Frame.get f "Tweet Type") (Frame.Int 1)).
Proof.
  intros H. unfold OwnershipSpec.has_labels, OwnershipSpec.consolidation_labels in H.
  repeat (apply Forall_cons in H as [? H]).
  unfold Analyzer.single_row.
  rewrite !getitem_Ok by assumption. reflexivity.
Qed.

Lemma core_has_labels (sort_values : Frame.Sorter) author group :
  Forall OwnershipSpec.has_labels group ->
  Forall OwnershipSpec.has_labels (Analyzer.core_thread_tweets sort_values author group).
Proof.
  rewrite !Forall_forall. intros H r Hr.
  apply elem_of_core_thread_tweets in Hr as [Hr _]. auto.
Qed.

Lemma consolidate_group_cases (sort_values : Frame.Sorter) platform now author conv group :
  Forall OwnershipSpec.has_labels group ->
  match Analyzer.core_thread_tweets sort_values author group with
  | [] => Analyzer.consolidate_group sort_values platform now (author, conv) group = Ok None
  | [row] =>
      Analyzer.consolidate_group sort_values platform now (author, conv) group
      = Some <$> Analyzer.single_row platform now conv row
      /\ OwnershipSpec.has_labels row
  | first_tweet :: rest =>
      Analyzer.consolidate_group sort_values platform now (author, conv) group
      = Some <$> Analyzer.thread_row platform now conv (first_tweet :: rest) first_tweet
      /\ OwnershipSpec.has_labels first_tweet
  end.
Proof.
  intros H. apply (core_has_labels sort_values author) in H.
  unfold Analyzer.consolidate_group.
  destruct (Analyzer.core_thread_tweets sort_values author group) as [|r1 [|r2 rest]].
  - reflexivity.
  - split; [reflexivity|]. by apply Forall_cons in H as [? _].
  - split; [reflexivity|]. by apply Forall_cons in H as [? _].
Qed.



Lemma scenario_B_has_labels : Forall OwnershipSpec.has_labels OwnershipSpec.scenario_B.
Proof. unfold OwnershipSpec.scenario_B. solve_labels. Defined.


(** The pattern on the texts of the specification's scenarios and on the
    edge cases of the look-ahead. *)
Example reply_to_other_examples :
  Analyzer.reply_to_other "alice" "@bob reply" = true
  /\ Analyzer.reply_to_other "alice" "hello" = false
  /\ Analyzer.reply_to_other "alice" "  @Bob_1 hi" = true
  /\ Analyzer.reply_to_other "alice" "@ALICE replying to myself" = false
  /\ Analyzer.reply_to_other "alice" "@alice_smith hi" = true
  /\ Analyzer.reply_to_other "alice" "hi @bob" = false
  /\ Analyzer.reply_to_other "alice" "@ bob" = false
  /\ Analyzer.reply_to_other "alice" "@a_name_longer_than_fifteen hi" = true
  /\ Analyzer.reply_to_other "" "@bob reply" = false.
Proof. repeat split; reflexivity. Qed.




Lemma scenario_B_core :
  Analyzer.core_thread_tweets insertion_sorter "alice" OwnershipSpec.scenario_B = OwnershipSpec.scenario_B.
Proof. reflexivity. Qed.

(** Scenario B, computed: one thread unit of two source rows, whose text is
    the two parts joined by the separator. *)
Example scenario_B_thread_unit :
  exists unit,
    Analyzer.consolidate_group insertion_sorter Analyzer.twitter "2024-01-01" ("alice", "conv1")
      OwnershipSpec.scenario_B = Ok (Some unit)
    /\ unit !! "Content Type" = Some (Frame.Str "Thread")
    /\ unit !! "Source Row Count" = Some (Frame.Int 2)
    /\ unit !! "Combined Original Text"
       = Some (Frame.Str ("part 1" +:+ Analyzer.nl +:+ Analyzer.nl +:+ "---"
                            +:+ Analyzer.nl +:+ Analyzer.nl +:+ "part 2")).
Proof.
  pose proof (consolidate_group_cases insertion_sorter Analyzer.twitter "2024-01-01"
                "alice" "conv1"
                OwnershipSpec.scenario_B scenario_B_has_labels) as Hc.
  rewrite scenario_B_core in Hc. unfold OwnershipSpec.scenario_B in Hc at 1.
  destruct Hc as [Hc Hl]. rewrite thread_row_Ok in Hc by assumption.
  eexists. split; [exact Hc|]. repeat split; reflexivity.
Qed.

(** Rows with the same timestamp keep the order of the sheet: three parts
    of a thread that carry one timestamp are joined in the order in which
    they stand in the group. *)
Example tied_rows_keep_sheet_order :
  (fun r => Frame.get r "Tweet Text")
    <$> Analyzer.core_thread_tweets insertion_sorter "alice"
          [ OwnershipSpec.raw_row "alice" "conv1" "t1" "part 1" "Original Tweet";
            OwnershipSpec.raw_row "alice" "conv1" "t1" "part 2" "Reply";
            OwnershipSpec.raw_row "alice" "conv1" "t1" "part 3" "Reply" ]
  = [ Frame.Str "part 1"; Frame.Str "part 2"; Frame.Str "part 3" ].
Proof. reflexivity. Qed.

(** ** The rewrite engine *)

Lemma lstrip_empty_iff s :
  Text.lstrip s = EmptyString <-> Text.all_chars Text.is_space s = true.
Proof.
  induction s as [|c s IH]; simpl; [tauto|].
  destruct (Text.is_space c); simpl; [assumption|]. split; discriminate.
Qed.

Lemma lstrip_head s c t : Text.lstrip s = String c t -> Text.is_space c = false.
Proof.
  induction s as [|d s IH]; simpl; [discriminate|].
  destruct (Text.is_space d) eqn:Hd; [assumption|]. intros [= -> _]. assumption.
Qed.

Lemma rstrip_empty_iff s :
  Text.rstrip s = EmptyString <-> Text.all_chars Text.is_space s = true.
Proof.
  induction s as [|c s IH]; simpl; [tauto|].
  destruct (Text.rstrip s) eqn:Hr.
  - destruct (Text.is_space c); simpl.
    + split; [intros _; by apply IH|reflexivity].
    + split; discriminate.
  - split; [discriminate|]. intros H. apply andb_true_iff in H as [_ H].
    apply IH in H. discriminate.
Qed.

(** [s.strip()] is empty exactly when [s] is whitespace only. *)
Lemma strip_empty_iff s :
  Text.strip s = EmptyString <-> Text.all_chars Text.is_space s = true.
Proof.
  unfold Text.strip. rewrite rstrip_empty_iff. split.
  - intros H. apply lstrip_empty_iff.
    destruct (Text.lstrip s) as [|c t] eqn:Hl; [reflexivity|].
    apply lstrip_head in Hl. simpl in H. rewrite Hl in H. discriminate.
  - intros H. apply lstrip_empty_iff in H. rewrite H. reflexivity.
Qed.

Lemma is_blank_iff c : Analyzer.is_blank c = true <-> RewriteSpec.blank c.
Proof.
  unfold Analyzer.is_blank, RewriteSpec.blank.
  rewrite orb_true_iff, !negb_true_iff, <- strip_empty_iff.
  assert (Text.truthy (Text.strip (Frame.astype_str c)) = false
          <-> Text.strip (Frame.astype_str c) = EmptyString) as ->.
  { destruct (Text.strip _); simpl; split; congruence. }
  destruct c; simpl; intuition congruence.
Qed.

Lemma set_rewrites_en en ru (row : gmap string Frame.cell) :
  Analyzer.set_rewrites en ru row !! "Rewritten EN" = Some (Frame.Str en).
Proof.
  unfold Analyzer.set_rewrites.
  rewrite lookup_insert_ne by done. apply lookup_insert_eq.
Qed.

Lemma set_rewrites_ru en ru (row : gmap string Frame.cell) :
  Analyzer.set_rewrites en ru row !! "Rewritten RU" = Some (Frame.Str ru).
Proof. unfold Analyzer.set_rewrites. apply lookup_insert_eq. Qed.

Lemma final_row_for_csv_lookup (result_row : gmap string Frame.cell) i col :
  Analyzer.TARGET_COLUMNS !! i = Some col ->
  Analyzer.final_row_for_csv result_row !! i
  = Some (default (Frame.Str "") (result_row !! col)).
Proof.
  intros H. unfold Analyzer.final_row_for_csv.
  rewrite list_lookup_fmap, H. reflexivity.
Qed.

Lemma final_row_rewrites en ru (row : gmap string Frame.cell) :
  RewriteSpec.rewritten_en (Analyzer.final_row_for_csv (Analyzer.set_rewrites en ru row))
  = Frame.Str en
  /\ RewriteSpec.rewritten_ru (Analyzer.final_row_for_csv (Analyzer.set_rewrites en ru row))
     = Frame.Str ru.
Proof.
  unfold RewriteSpec.rewritten_en, RewriteSpec.rewritten_ru.
  rewrite (final_row_for_csv_lookup _ 14 "Rewritten EN") by reflexivity.
  rewrite (final_row_for_csv_lookup _ 15 "Rewritten RU") by reflexivity.
  rewrite set_rewrites_en, set_rewrites_ru. split; reflexivity.
Qed.

(** C7. A unit whose source text is missing, empty or only whitespace gets
    the sentinel [Error: Empty Source Text] in both rewrite fields, is
    counted as failed, and costs no call: the service is left in the state
    it was in and the iteration records no call, sleep or retry. *)
Theorem empty_source_short_circuits
    (Service : Type) (generate_content : Service -> string -> result string * Service)
    (prompt_en prompt_ru : string -> string)
    (row : gmap string Frame.cell) (s : Service) :
  RewriteSpec.blank (Frame.get row "Combined Original Text") ->
  exists result_row,
    Analyzer.rewrite_unit Service generate_content prompt_en prompt_ru row s
    = (result_row, false, s, [])
    /\ result_row !! "Rewritten EN" = Some (Frame.Str "Error: Empty Source Text")
    /\ result_row !! "Rewritten RU" = Some (Frame.Str "Error: Empty Source Text").
Proof.
  intros H. apply is_blank_iff in H.
  unfold Analyzer.rewrite_unit. rewrite H.
  eexists. split; [reflexivity|].
  split; [apply set_rewrites_en|apply set_rewrites_ru].
Qed.

(** C7 at a unit whose text is two spaces and a newline, with a service
    that would answer. *)
Lemma empty_source_short_circuits_blank_unit :
  exists result_row,
    Analyzer.rewrite_unit nat RewriteSpec.flaky RewriteSpec.prompt_en RewriteSpec.prompt_ru
      (RewriteSpec.unit_with_text ("  " +:+ Analyzer.nl)) 0%nat
    = (result_row, false, 0%nat, [])
    /\ result_row !! "Rewritten EN" = Some (Frame.Str "Error: Empty Source Text")
    /\ result_row !! "Rewritten RU" = Some (Frame.Str "Error: Empty Source Text").
Proof.
  apply (empty_source_short_circuits nat RewriteSpec.flaky RewriteSpec.prompt_en
           RewriteSpec.prompt_ru (RewriteSpec.unit_with_text ("  " +:+ Analyzer.nl)) 0%nat).
  right. vm_compute. reflexivity.
Defined.

Section RewriteFacts.
Variable Service : Type.
Variable generate_content : Service -> string -> result string * Service.
Variable prompt_en prompt_ru : string -> string.
Variable writerow_fails : list Frame.cell -> bool.

Lemma rewrite_once_Ok text s en ru s' ev :
  Analyzer.rewrite_once Service generate_content prompt_en prompt_ru text s
  = (Ok (en, ru), s', ev) ->
  exists t_en t_ru,
    RewriteSpec.returned Service generate_content t_en
    /\ RewriteSpec.returned Service generate_content t_ru
    /\ en = Text.strip t_en /\ ru = Text.strip t_ru.
Proof.
  unfold Analyzer.rewrite_once.
  destruct (generate_content s (prompt_en text)) as [[t_en|e] s1] eqn:H1; [|discriminate].
  destruct (generate_content s1 (prompt_ru text)) as [[t_ru|e] s2] eqn:H2; [|discriminate].
  intros [= <- <- <- <-]. exists t_en, t_ru.
  repeat split; [by exists s, (prompt_en text), s1|by exists s1, (prompt_ru text), s2].
Qed.

Lemma with_backoff_Ok n text s en ru s' ev :
  Analyzer.with_backoff Service generate_content prompt_en prompt_ru n text s
  = (Ok (en, ru), s', ev) ->
  exists t_en t_ru,
    RewriteSpec.returned Service generate_content t_en
    /\ RewriteSpec.returned Service generate_content t_ru
    /\ en = Text.strip t_en /\ ru = Text.strip t_ru.
Proof.
  revert s s' ev. induction n as [|n IH]; intros s s' ev; simpl.
  - destruct (Analyzer.rewrite_once _ _ _ _ text s) as [[r s1] ev1] eqn:Ho.
    destruct r as [[a b]|e]; intros [= <- <- <- <-]; eapply rewrite_once_Ok; eauto.
  - destruct (Analyzer.rewrite_once _ _ _ _ text s) as [[r s1] ev1] eqn:Ho.
    destruct r as [[a b]|e].
    + intros [= <- <- <- <-]. eapply rewrite_once_Ok; eauto.
    + destruct n as [|n]; [discriminate|].
      destruct (Analyzer.with_backoff _ _ _ _ (S n) text s1) as [[r2 s2] ev2] eqn:Hb.
      intros [= -> <- <-]. eapply IH; eauto.
Qed.

Lemma error_prefix_intro t : RewriteSpec.is_error (Frame.Str ("Error:" +:+ t)).
Proof. by exists t. Qed.

Lemma rewrite_unit_both_or_neither (row : gmap string Frame.cell) s :
  RewriteSpec.both_or_neither Service generate_content
    (Analyzer.final_row_for_csv
       (Analyzer.rewrite_unit Service generate_content prompt_en prompt_ru row s).1.1.1).
Proof.
  unfold Analyzer.rewrite_unit, RewriteSpec.both_or_neither.
  destruct (Analyzer.is_blank _).
  - left. simpl. destruct (final_row_rewrites "Error: Empty Source Text"
      "Error: Empty Source Text" row) as [-> ->].
    split; apply (error_prefix_intro " Empty Source Text").
  - destruct (Analyzer.rewrite_text_gemini _ _ _ _ _ s) as [[r s'] ev] eqn:Hr.
    destruct r as [[en ru]|e]; simpl.
    + right. apply with_backoff_Ok in Hr as (t_en & t_ru & H1 & H2 & -> & ->).
      exists t_en, t_ru. destruct (final_row_rewrites (Text.strip t_en) (Text.strip t_ru) row)
        as [-> ->]. auto.
    + left. destruct (final_row_rewrites "Error: Rewrite Failed (EN)"
        "Error: Rewrite Failed (RU)" row) as [-> ->].
      split; [apply (error_prefix_intro " Rewrite Failed (EN)")
             |apply (error_prefix_intro " Rewrite Failed (RU)")].
Qed.

Lemma rewrite_loop_written (P : list Frame.cell -> Prop) total units st :
  (forall row s,
      P (Analyzer.final_row_for_csv
           (Analyzer.rewrite_unit Service generate_content prompt_en prompt_ru row s).1.1.1)) ->
  Forall P (Analyzer.written st) ->
  Forall P (Analyzer.written
              (Analyzer.rewrite_loop Service generate_content prompt_en prompt_ru
                 writerow_fails total units st).1).
Proof.
  intros HP. revert st. induction units as [|row rest IH]; intros st Hst; simpl; [assumption|].
  pose proof (HP row (Analyzer.service st)) as Hrow.
  destruct (Analyzer.rewrite_unit _ _ _ _ row (Analyzer.service st)) as [[[rr ok] s'] ev].
  simpl in Hrow.
  match goal with |- context [Analyzer.rewrite_loop _ _ _ _ _ _ rest ?st'] =>
    specialize (IH st'); destruct (Analyzer.rewrite_loop _ _ _ _ _ _ rest st') as [st'' ev'']
  end.
  simpl in *. apply IH.
  destruct (writerow_fails _); simpl; [assumption|].
  apply Forall_app. split; [assumption|]. by constructor.
Qed.

Lemma rewrite_loop_file total units st f0 :
    Analyzer.file st = foldl Analyzer.append_row f0 (Analyzer.written st) ->
    Analyzer.file (Analyzer.rewrite_loop Service generate_content prompt_en prompt_ru
                     writerow_fails total units st).1
    = foldl Analyzer.append_row f0
        (Analyzer.written
           (Analyzer.rewrite_loop Service generate_content prompt_en prompt_ru
              writerow_fails total units st).1).
Proof.
  revert st. induction units as [|row rest IH]; intros st Hst; simpl; [assumption|].
  destruct (Analyzer.rewrite_unit _ _ _ _ row (Analyzer.service st)) as [[[rr ok] s'] ev].
  match goal with |- context [Analyzer.rewrite_loop _ _ _ _ _ _ rest ?st'] =>
    specialize (IH st'); destruct (Analyzer.rewrite_loop _ _ _ _ _ _ rest st') as [st'' ev'']
  end.
  simpl in *. apply IH.
  destruct (writerow_fails _); simpl; [assumption|].
  rewrite foldl_app. simpl. congruence.
Qed.

Lemma both_or_neither_atomic vals :
  RewriteSpec.answers_with_text Service generate_content ->
  RewriteSpec.both_or_neither Service generate_content vals ->
  RewriteSpec.atomic vals.
Proof.
  intros Hs [H|(t_en & t_ru & H1 & H2 & Hen & Hru)]; [by right|left].
  apply Hs in H1 as [? ?]. apply Hs in H2 as [? ?].
  rewrite Hen, Hru. split; eexists; eauto.
Qed.

End RewriteFacts.

(** C3 (amended). For every record that the rewrite loop appends to the
    local log, either both rewrite fields hold an error sentinel, or both
    hold the stripped texts that the service returned for two answered
    calls; so a call that fails on every attempt puts a sentinel in both
    fields, never in one.  The returned texts are stored as they are: when
    every answer of the service has text left after stripping that does not
    begin with the error prefix, every appended record has both fields
    non-empty and non-error, or both sentinels.  The log after the loop is
    the log before it with these records appended. *)
Theorem rewrite_fields_both_or_neither
    (Service : Type) (generate_content : Service -> string -> result string * Service)
    (prompt_en prompt_ru : string -> string) (writerow_fails : list Frame.cell -> bool)
    (total : nat) (units : list (gmap string Frame.cell))
    (f : Analyzer.LocalFile) (s : Service) (p fl : nat) :
  let st0 := {| Analyzer.file := f; Analyzer.service := s;
                Analyzer.processed_count := p; Analyzer.failed_count := fl;
                Analyzer.written := [] |} in
  let st := (Analyzer.rewrite_loop Service generate_content prompt_en prompt_ru
               writerow_fails total units st0).1 in
  Forall (RewriteSpec.both_or_neither Service generate_content) (Analyzer.written st)
  /\ (RewriteSpec.answers_with_text Service generate_content ->
      Forall RewriteSpec.atomic (Analyzer.written st))
  /\ Analyzer.file st = foldl Analyzer.append_row f (Analyzer.written st).
Proof.
  intros st0 st.
  assert (Forall (RewriteSpec.both_or_neither Service generate_content)
            (Analyzer.written st)) as Hb.
  { apply rewrite_loop_written; [apply rewrite_unit_both_or_neither|constructor]. }
  split; [assumption|]. split.
  - intros Hs. eapply Forall_impl; [exact Hb|].
    intros vals. by apply both_or_neither_atomic.
  - apply rewrite_loop_file; reflexivity.
Qed.

Lemma flaky_answers_with_text : RewriteSpec.answers_with_text nat RewriteSpec.flaky.
Proof.
  intros t (s & p & s' & H). destruct s as [|n]; simpl in H; [|discriminate].
  injection H as <- _. split; [vm_compute; discriminate|].
  intros [u Hu]. vm_compute in Hu. discriminate.
Qed.

(** C3 at a service that fails its first call and then answers: the second
    attempt fills both fields. *)
Lemma rewrite_fields_atomic_after_retry :
  Forall RewriteSpec.atomic
    (Analyzer.written
       (Analyzer.rewrite_loop nat RewriteSpec.flaky RewriteSpec.prompt_en
          RewriteSpec.prompt_ru (fun _ => false) 1
          [RewriteSpec.unit_with_text "A post about an AI model release."]
          (RewriteSpec.loop_start 1%nat)).1).
Proof.
  apply (rewrite_fields_both_or_neither nat RewriteSpec.flaky RewriteSpec.prompt_en
           RewriteSpec.prompt_ru (fun _ => false) 1
           [RewriteSpec.unit_with_text "A post about an AI model release."]
           Analyzer.Absent 1%nat 0%nat 0%nat).
  exact flaky_answers_with_text.
Defined.

(** C3, as stated, fails: when the service answers the English call with an
    empty text and the Russian call with a text, the appended record has
    one field empty and the other filled. *)
Lemma rewrite_fields_one_empty_one_filled :
  exists vals,
    Analyzer.written
      (Analyzer.rewrite_loop (list (result string)) RewriteSpec.scripted
         RewriteSpec.prompt_en RewriteSpec.prompt_ru (fun _ => false) 1
         [RewriteSpec.unit_with_text "A post about an AI model release."]
         (RewriteSpec.loop_start [Ok ""; Ok "Privet"])).1
    = [vals]
    /\ RewriteSpec.rewritten_en vals = Frame.Str ""
    /\ RewriteSpec.rewritten_ru vals = Frame.Str "Privet"
    /\ ~ RewriteSpec.atomic vals.
Proof.
  eexists. split; [vm_compute; reflexivity|].
  split; [reflexivity|]. split; [reflexivity|].
  intros [[(s & Hs & Hne & _) _]|[(t & Ht) _]].
  - vm_compute in Hs. congruence.
  - vm_compute in Ht. discriminate.
Qed.

(** ** The sync engine *)

Lemma of_values_row_cells data (r : gmap string Frame.cell) c v :
  r ∈ Frame.rows (Frame.of_values data) -> r !! c = Some v ->
  (exists s, v = Frame.Str s)
  /\ exists header body, data = header :: body /\ c ∈ header.
Proof.
  destruct data as [|header body]; simpl; [intros H; by apply elem_of_nil in H|].
  intros Hr Hc. apply list_elem_of_fmap in Hr as (vs & -> & _).
  apply elem_of_list_to_map_2 in Hc.
  split.
  - apply elem_of_zip_r in Hc. apply list_elem_of_fmap in Hc as (s & -> & _). by exists s.
  - exists header, body. split; [reflexivity|]. by apply elem_of_zip_l in Hc.
Qed.

(** The remote-known set is the set of the URL cells of the snapshot's data
    rows: the rewrite fields play no part in it. *)
Lemma remote_known_iff data_tgt u :
  u ∈ Analyzer.remote_known (Ok data_tgt)
  <-> exists r, r ∈ Frame.rows (Frame.of_values data_tgt)
                /\ r !! "First Tweet URL" = Some (Frame.Str u).
Proof.
  unfold Analyzer.remote_known.
  destruct (Nat.leb_spec 2 (length data_tgt)) as [Hlen|Hlen].
  - destruct (Frame.has_column _ _) eqn:Hcol.
    + unfold Analyzer.url_set. rewrite elem_of_list_to_set, list_elem_of_omap. simpl.
      split.
      * intros (r' & Hr' & Hu). apply list_elem_of_fmap in Hr' as (r & -> & Hr).
        exists r. split; [assumption|].
        unfold Frame.get in Hu. rewrite lookup_fmap in Hu.
        destruct (r !! "First Tweet URL") as [v|] eqn:Hv; simpl in Hu; [|discriminate].
        destruct (of_values_row_cells _ _ _ _ Hr Hv) as [[s ->] _].
        simpl in Hu. congruence.
      * intros (r & Hr & Hu). exists (Frame.fillna <$> r). split.
        -- apply list_elem_of_fmap. by exists r.
        -- unfold Frame.get. rewrite lookup_fmap, Hu. reflexivity.
    + split; [intros H; by apply not_elem_of_empty in H|].
      intros (r & Hr & Hu).
      destruct (of_values_row_cells _ _ _ _ Hr Hu) as [_ (header & body & -> & Hc)].
      unfold Frame.has_column in Hcol. simpl in Hcol.
      apply bool_decide_eq_false in Hcol. contradiction.
  - split; [intros H; by apply not_elem_of_empty in H|].
    intros (r & Hr & _). destruct data_tgt as [|h [|b body]]; simpl in *; try lia;
      by apply elem_of_nil in Hr.
Qed.

Lemma find_missing_column_None df cols :
  Forall (fun c => c ∈ Frame.columns df) cols ->
  find (fun c => negb (Frame.has_column (Analyzer.fillna_all df) c)) cols = None.
Proof.
  induction 1 as [|c cols Hc _ IH]; simpl; [reflexivity|].
  unfold Frame.has_column at 1. simpl. rewrite bool_decide_eq_true_2 by assumption.
  simpl. assumption.
Qed.

Lemma elem_of_rows_to_upload known df (r : gmap string Frame.cell) :
  r ∈ Analyzer.rows_to_upload known df
  <-> r ∈ Frame.rows df
      /\ forall u, Frame.get r "First Tweet URL" = Frame.Str u -> u ∉ known.
Proof.
  unfold Analyzer.rows_to_upload. rewrite list_elem_of_filter.
  rewrite Is_true_true, negb_true_iff. unfold Analyzer.isin.
  split.
  - intros [H1 H2]. split; [assumption|].
    intros u Hu. rewrite Hu in H1. by apply bool_decide_eq_false in H1.
  - intros [H1 H2]. split; [|assumption].
    destruct (Frame.get r "First Tweet URL") as [|u|n]; try reflexivity.
    apply bool_decide_eq_false. by apply H2.
Qed.

Lemma sync_appends_eq df target_read append_result :
  SyncSpec.uploadable df ->
  Analyzer.appends (Analyzer.sync_local_to_gsheet (Analyzer.Log df) target_read append_result)
  = match Analyzer.rows_to_upload (Analyzer.remote_known target_read)
            (Analyzer.fillna_all df) with
    | [] => []
    | _ :: _ =>
        [Analyzer.rows_to_append
           (Analyzer.rows_to_upload (Analyzer.remote_known target_read)
              (Analyzer.fillna_all df))]
    end.
Proof.
  intros [Hne Hcols].
  assert (Frame.has_column (Analyzer.fillna_all df) "First Tweet URL" = true) as Hurl.
  { apply bool_decide_eq_true. rewrite Forall_forall in Hcols. apply Hcols.
    apply (bool_decide_unpack _); vm_compute; exact I. }
  unfold Analyzer.sync_local_to_gsheet. cbv zeta.
  rewrite Hne, Hurl. cbn [negb]. cbv iota.
  destruct (Analyzer.rows_to_upload _ _) as [|r0 rest] eqn:Hup; [reflexivity|].
  rewrite find_missing_column_None by assumption.
  destruct append_result; reflexivity.
Qed.

(** A cell of a row of the snapshot, by its position under the header. *)
Lemma lookup_zip_row (header row : list string) c v :
  NoDup header -> length row = length header ->
  (list_to_map (zip header (Frame.Str <$> row)) : gmap string Frame.cell) !! c = Some v
  <-> exists i s, header !! i = Some c /\ row !! i = Some s /\ v = Frame.Str s.
Proof.
  intros Hnd Hlen.
  rewrite <- elem_of_list_to_map
    by (rewrite fst_zip by (rewrite length_fmap; lia); exact Hnd).
  rewrite list_elem_of_lookup. unfold zip. split.
  - intros (i & Hi). apply lookup_zip_with_Some in Hi as (x & y & [= -> ->] & Hx & Hy).
    rewrite list_lookup_fmap in Hy.
    destruct (row !! i) as [s|] eqn:Hs; [|discriminate]. injection Hy as <-.
    by exists i, s.
  - intros (i & s & Hc & Hs & ->). exists i. apply lookup_zip_with_Some.
    exists c, (Frame.Str s). split; [reflexivity|]. split; [exact Hc|].
    rewrite list_lookup_fmap, Hs. reflexivity.
Qed.

(** The remote-known set, read off the snapshot: the texts that stand under
    the URL label in the data rows. *)
Lemma remote_known_raw data_tgt u :
  SyncSpec.is_table data_tgt ->
  u ∈ Analyzer.remote_known (Ok data_tgt)
  <-> exists header body row i,
        data_tgt = header :: body /\ row ∈ body
        /\ header !! i = Some "First Tweet URL" /\ row !! i = Some u.
Proof.
  intros Ht. rewrite remote_known_iff.
  destruct data_tgt as [|header body].
  { split; [intros (r & Hr & _); by apply elem_of_nil in Hr|].
    intros (h & b & _ & _ & [=] & _). }
  destruct Ht as [Hnd Hlen]. rewrite Forall_forall in Hlen.
  cbn [Frame.of_values Frame.rows]. split.
  - intros (r & Hr & Hu). apply list_elem_of_fmap in Hr as (row & -> & Hrow).
    apply lookup_zip_row in Hu as (i & s & Hi & Hs & [= ->]); [|assumption|by apply Hlen].
    by exists header, body, row, i.
  - intros (h & b & row & i & [= <- <-] & Hrow & Hi & Hs).
    eexists. split; [apply list_elem_of_fmap; by exists row|].
    apply lookup_zip_row; [assumption|by apply Hlen|]. by exists i, u.
Qed.

Lemma text_cell_filled (r : gmap string Frame.cell) c :
  r !! c = Some Frame.NaN \/ (exists s, r !! c = Some (Frame.Str s)) ->
  Frame.get (Frame.fillna <$> (Frame.fillna <$> r)) c
  = match r !! c with
    | Some (Frame.Str s) => Frame.Str s
    | _ => Frame.Str ""
    end
  /\ Frame.get (Frame.fillna <$> r) c
     = match r !! c with
       | Some (Frame.Str s) => Frame.Str s
       | _ => Frame.Str ""
       end.
Proof.
  unfold Frame.get. rewrite !lookup_fmap. intros [-> | [s ->]]; split; reflexivity.
Qed.

(** The batch of the sync, read off the log: the records whose URL is not
    known, as rows of texts in target column order. *)
Lemma rows_to_append_raw known df :
  SyncSpec.text_cells df ->
  Analyzer.rows_to_append (Analyzer.rows_to_upload known (Analyzer.fillna_all df))
  = SyncSpec.in_target_order <$> SyncSpec.missing_rows known df.
Proof.
  unfold SyncSpec.text_cells, Analyzer.rows_to_append, Analyzer.rows_to_upload,
    SyncSpec.missing_rows, Analyzer.fillna_all.
  cbn [Frame.rows].
  assert ("First Tweet URL" ∈ Analyzer.TARGET_COLUMNS) as Hurl
    by (apply (bool_decide_unpack _); vm_compute; exact I).
  induction 1 as [|r rows Hr _ IH]; [reflexivity|].
  cbn [fmap list_fmap]. rewrite Forall_forall in Hr.
  assert (Frame.get (Frame.fillna <$> r) "First Tweet URL" = Frame.Str (SyncSpec.url_of r))
    as Hu.
  { destruct (text_cell_filled r _ (Hr _ Hurl)) as [_ ->]. unfold SyncSpec.url_of.
    destruct (r !! "First Tweet URL") as [[|u|n]|]; reflexivity. }
  assert (Frame.values Analyzer.TARGET_COLUMNS (Frame.fillna <$> (Frame.fillna <$> r))
          = SyncSpec.in_target_order r) as Hv.
  { unfold Frame.values, SyncSpec.in_target_order. apply list_fmap_ext.
    intros i c Hc. apply text_cell_filled, Hr. by apply list_elem_of_lookup_2 in Hc. }
  destruct (decide (SyncSpec.url_of r ∈ known)) as [Hk|Hk].
  - rewrite filter_cons_False.
    2:{ rewrite Hu. cbn [Analyzer.isin].
        rewrite bool_decide_eq_true_2 by exact Hk. exact id. }
    rewrite (filter_cons_False (fun r => SyncSpec.url_of r ∉ known)) by (intros H; by apply H).
    exact IH.
  - rewrite filter_cons_True.
    2:{ rewrite Hu. cbn [Analyzer.isin].
        rewrite bool_decide_eq_false_2 by exact Hk. exact I. }
    rewrite (filter_cons_True (fun r => SyncSpec.url_of r ∉ known)) by exact Hk.
    cbn [fmap list_fmap]. f_equal; [exact Hv|exact IH].
Qed.

(** C4. The sync engine.  The remote-known set is the set of the texts that
    stand under the URL label in the data rows of the snapshot, whatever
    the rewrite fields of those rows hold.  The sync makes one bulk append
    (none when no record is missing) of exactly the local records whose URL
    is not in that set, in the order of the log, each as the texts of its
    fields in target column order.  So no appended row carries a URL that
    the snapshot has. *)
Theorem sync_uploads_exactly_missing
    (df : Frame.DataFrame) (data_tgt : list (list string)) (append_result : result unit) :
  SyncSpec.uploadable df ->
  SyncSpec.text_cells df ->
  SyncSpec.is_table data_tgt ->
  let known := Analyzer.remote_known (Ok data_tgt) in
  let batches :=
    Analyzer.appends
      (Analyzer.sync_local_to_gsheet (Analyzer.Log df) (Ok data_tgt) append_result) in
  (forall u, u ∈ known
             <-> exists header body row i,
                   data_tgt = header :: body /\ row ∈ body
                   /\ header !! i = Some "First Tweet URL" /\ row !! i = Some u)
  /\ batches
     = match SyncSpec.missing_rows known df with
       | [] => []
       | missing => [ SyncSpec.in_target_order <$> missing ]
       end
  /\ (forall batch row i u,
        batch ∈ batches -> row ∈ batch ->
        Analyzer.TARGET_COLUMNS !! i = Some "First Tweet URL" ->
        row !! i = Some (Frame.Str u) ->
        u ∉ known).
Proof.
  intros Hup Htext Htable known batches.
  assert (batches
          = match SyncSpec.missing_rows known df with
            | [] => []
            | missing => [ SyncSpec.in_target_order <$> missing ]
            end) as Hb.
  { subst batches known. rewrite sync_appends_eq by exact Hup.
    pose proof (rows_to_append_raw (Analyzer.remote_known (Ok data_tgt)) df Htext) as Hraw.
    destruct (Analyzer.rows_to_upload _ _) as [|r0 rest];
      destruct (SyncSpec.missing_rows _ _) as [|m0 missing]; try discriminate Hraw.
    - reflexivity.
    - by rewrite Hraw. }
  split; [intros u; by apply remote_known_raw|]. split; [exact Hb|].
  intros batch row i u Hbatch Hrow Hi Hu. rewrite Hb in Hbatch.
  assert (exists r, r ∈ SyncSpec.missing_rows known df
                    /\ row = SyncSpec.in_target_order r) as (r & Hr & ->).
  { destruct (SyncSpec.missing_rows known df) as [|m0 missing] eqn:Hm;
      [by apply elem_of_nil in Hbatch|].
    apply list_elem_of_singleton in Hbatch as ->.
    apply list_elem_of_fmap in Hrow as (r & -> & Hr). by exists r. }
  apply list_elem_of_filter in Hr as [Hr _].
  unfold SyncSpec.in_target_order in Hu. rewrite list_lookup_fmap, Hi in Hu.
  cbn [fmap option_fmap option_map] in Hu. unfold SyncSpec.url_of in Hr.
  destruct (r !! "First Tweet URL") as [[|u'|n]|]; injection Hu as <-; exact Hr.
Qed.

Lemma local_log_uploadable : SyncSpec.uploadable SyncSpec.local_log.
Proof.
  split; [reflexivity|]. apply Forall_forall. intros c Hc. exact Hc.
Defined.

Lemma local_log_text_cells : SyncSpec.text_cells SyncSpec.local_log.
Proof.
  unfold SyncSpec.text_cells, SyncSpec.local_log. cbn [Frame.rows].
  repeat (apply Forall_cons; split);
    try (apply Forall_nil; exact I);
    try (right; eexists; reflexivity).
Defined.

Lemma remote_with_failed_record_is_table :
  SyncSpec.is_table SyncSpec.remote_with_failed_record.
Proof.
  split; [apply (bool_decide_unpack _); vm_compute; exact I|].
  apply Forall_cons; split; [reflexivity|apply Forall_nil; exact I].
Defined.

(** C4 at Scenario D: the local log holds a rewritten record and a failed
    one, and the remote sheet already holds the failed one. *)
Lemma sync_uploads_exactly_missing_scenario_D :
  let known := Analyzer.remote_known (Ok SyncSpec.remote_with_failed_record) in
  let batches :=
    Analyzer.appends
      (Analyzer.sync_local_to_gsheet (Analyzer.Log SyncSpec.local_log)
         (Ok SyncSpec.remote_with_failed_record) (Ok tt)) in
  (forall u, u ∈ known
             <-> exists header body row i,
                   SyncSpec.remote_with_failed_record = header :: body /\ row ∈ body
                   /\ header !! i = Some "First Tweet URL" /\ row !! i = Some u)
  /\ batches
     = match SyncSpec.missing_rows known SyncSpec.local_log with
       | [] => []
       | missing => [ SyncSpec.in_target_order <$> missing ]
       end
  /\ (forall batch row i u,
        batch ∈ batches -> row ∈ batch ->
        Analyzer.TARGET_COLUMNS !! i = Some "First Tweet URL" ->
        row !! i = Some (Frame.Str u) ->
        u ∉ known).
Proof.
  exact (sync_uploads_exactly_missing SyncSpec.local_log SyncSpec.remote_with_failed_record
           (Ok tt) local_log_uploadable local_log_text_cells
           remote_with_failed_record_is_table).
Defined.

(** Scenario D, computed: only the rewritten record is appended; the failed
    record, whose URL the sheet already has, is not uploaded again. *)
Example scenario_D_uploads_only_the_new_record :
  Analyzer.appends
    (Analyzer.sync_local_to_gsheet (Analyzer.Log SyncSpec.local_log)
       (Ok SyncSpec.remote_with_failed_record) (Ok tt))
  = [ [ (fun c => Frame.Str (Frame.astype_str c)) <$> SyncSpec.rewritten_record ] ].
Proof. vm_compute. reflexivity. Qed.

(** ** Runs of [process_data] *)

Lemma sync_starts_app a b :
  RunSpec.sync_starts (a ++ b) = (RunSpec.sync_starts a + RunSpec.sync_starts b)%nat.
Proof. unfold RunSpec.sync_starts. rewrite omap_app. apply length_app. Qed.

Lemma sync_starts_read_sources sheets :
  RunSpec.sync_starts (Analyzer.read_sources sheets).2 = 0%nat.
Proof.
  unfold Analyzer.read_sources. simpl.
  induction sheets as [|[name r] sheets IH]; simpl; [reflexivity|].
  rewrite sync_starts_app.
  match goal with |- (_ + ?b)%nat = _ =>
    change b with (RunSpec.sync_starts (mjoin (Analyzer.read_sheet <$> sheets).*2))
  end.
  rewrite IH. unfold Analyzer.read_sheet. simpl.
  destruct r as [| |data]; try reflexivity.
  destruct (length data <? 2)%nat; reflexivity.
Qed.

Lemma sync_starts_sync f target append :
  RunSpec.sync_starts (Analyzer.sync_local_to_gsheet f target append) = 0%nat.
Proof.
  unfold Analyzer.sync_local_to_gsheet.
  destruct f as [| |df]; try reflexivity.
  destruct (Frame.empty _); [reflexivity|].
  destruct (negb _); [reflexivity|].
  destruct (Analyzer.rows_to_upload _ _); [reflexivity|].
  destruct (find _ _); [reflexivity|].
  destruct append; reflexivity.
Qed.

Lemma sync_starts_final_sync w f :
  RunSpec.sync_starts (Analyzer.final_sync w f) = 1%nat.
Proof.
  unfold Analyzer.final_sync.
  change (RunSpec.sync_starts (Analyzer.ESyncStart :: ?l)) with (S (RunSpec.sync_starts l)).
  by rewrite sync_starts_sync.
Qed.

Section RunFacts.
Variable sort_values : Frame.Sorter.
Variable PLATFORM : Analyzer.Platform.
Variable clock : nat -> string.
Variable to_numeric : Frame.cell -> option Z.
Variable astype_int_raises : list Frame.cell -> bool.
Variable parse_datetime : Frame.cell -> option Z.
Variable sort_raises : list (gmap string Frame.cell) -> bool.
Variable passes_content_filters : gmap string Frame.cell -> bool.
Variable Service : Type.
Variable generate_content : Service -> string -> result string * Service.
Variable prompt_en prompt_ru : string -> string.
Variable writerow_fails : list Frame.cell -> bool.

Lemma sync_starts_rewrite_once text s :
  RunSpec.sync_starts
    (Analyzer.rewrite_once Service generate_content prompt_en prompt_ru text s).2 = 0%nat.
Proof.
  unfold Analyzer.rewrite_once.
  destruct (generate_content s _) as [[t|e] s1]; [|reflexivity].
  destruct (generate_content s1 _) as [[t'|e] s2]; reflexivity.
Qed.

Lemma sync_starts_with_backoff n text s :
  RunSpec.sync_starts
    (Analyzer.with_backoff Service generate_content prompt_en prompt_ru n text s).2 = 0%nat.
Proof.
  revert s. induction n as [|n IH]; intros s; simpl;
    pose proof (sync_starts_rewrite_once text s) as Ho;
    destruct (Analyzer.rewrite_once _ _ _ _ text s) as [[r s1] ev1]; simpl in Ho.
  - destruct r; assumption.
  - destruct r as [v|e]; [assumption|].
    destruct n as [|n]; [assumption|].
    specialize (IH s1).
    destruct (Analyzer.with_backoff _ _ _ _ (S n) text s1) as [[r2 s2] ev2].
    simpl in *. rewrite sync_starts_app, Ho. simpl. exact IH.
Qed.

Lemma sync_starts_rewrite_unit (row : gmap string Frame.cell) s :
  RunSpec.sync_starts
    (Analyzer.rewrite_unit Service generate_content prompt_en prompt_ru row s).2 = 0%nat.
Proof.
  unfold Analyzer.rewrite_unit. destruct (Analyzer.is_blank _); [reflexivity|].
  unfold Analyzer.rewrite_text_gemini.
  pose proof (sync_starts_with_backoff Analyzer.max_tries
    (Frame.astype_str (Frame.get row "Combined Original Text")) s) as H.
  destruct (Analyzer.with_backoff _ _ _ _ _ _ s) as [[r s'] ev].
  destruct r as [[en ru]|e]; exact H.
Qed.

Lemma sync_starts_rewrite_loop total units st :
  RunSpec.sync_starts
    (Analyzer.rewrite_loop Service generate_content prompt_en prompt_ru writerow_fails
       total units st).2 = 0%nat.
Proof.
  revert st. induction units as [|row rest IH]; intros st; simpl; [reflexivity|].
  pose proof (sync_starts_rewrite_unit row (Analyzer.service st)) as Hu.
  destruct (Analyzer.rewrite_unit _ _ _ _ row (Analyzer.service st)) as [[[rr ok] s'] ev].
  match goal with |- context [Analyzer.rewrite_loop _ _ _ _ _ _ rest ?st'] =>
    specialize (IH st'); destruct (Analyzer.rewrite_loop _ _ _ _ _ _ rest st') as [st'' ev'']
  end.
  simpl in *. rewrite !sync_starts_app, Hu, IH.
  destruct (negb _), (_ <? _)%nat; reflexivity.
Qed.

Lemma rewrite_and_sync_starts w s0 units :
  let r := Analyzer.rewrite_and_sync Service generate_content prompt_en prompt_ru
             writerow_fails w s0 units in
  match Analyzer.file_ready w units with
  | Ok _ => r.1.1.1 = Analyzer.ExitFinished /\ RunSpec.sync_starts r.1.1.2 = 1%nat
  | Raise e => r.1.1.1 = Analyzer.ExitRaised e /\ RunSpec.sync_starts r.1.1.2 = 0%nat
  end.
Proof.
  unfold Analyzer.rewrite_and_sync.
  destruct (Analyzer.file_ready w units) as [u|e]; [|split; reflexivity].
  match goal with |- context [Analyzer.rewrite_loop _ _ _ _ _ ?t ?u ?st] =>
    pose proof (sync_starts_rewrite_loop t u st) as Hl;
    destruct (Analyzer.rewrite_loop _ _ _ _ _ t u st) as [st' ev]
  end.
  cbn [fst snd] in *. split; [reflexivity|].
  rewrite !sync_starts_app, Hl, sync_starts_final_sync.
  destruct (Analyzer.needs_header w units); reflexivity.
Qed.

End RunFacts.

Lemma columns_numeric_fold to_numeric cols df c :
  c ∈ Frame.columns df ->
  c ∈ Frame.columns
        (foldl (fun df col =>
                  if Frame.has_column df col
                  then Frame.map_column col
                         (fun c => Frame.Int (default 0 (to_numeric c))) df
                  else Frame.set_column col (Frame.Int 0) df)
               df cols).
Proof.
  revert df. induction cols as [|col cols IH]; intros df Hc; [exact Hc|].
  cbn [foldl]. apply IH. destruct (Frame.has_column df col) eqn:Hcol; [exact Hc|].
  unfold Frame.set_column. cbn [Frame.columns]. rewrite Hcol.
  apply elem_of_app. by left.
Qed.

Lemma columns_map_column col f df :
  Frame.columns (Frame.map_column col f df) = Frame.columns df.
Proof. reflexivity. Qed.

Lemma columns_preprocess to_numeric df c :
  c ∈ Frame.columns df -> c ∈ Frame.columns (Analyzer.preprocess to_numeric df).
Proof.
  intros Hc. unfold Analyzer.preprocess. cbv zeta.
  rewrite !columns_map_column. apply columns_numeric_fold. exact Hc.
Qed.

Lemma required_columns_iff df :
  forallb (Frame.has_column df) Analyzer.required_process_cols = true
  <-> Forall (fun c => c ∈ Frame.columns df) Analyzer.required_process_cols.
Proof.
  rewrite forallb_forall, Forall_forall. unfold Frame.has_column.
  split; intros H c Hc.
  - apply list_elem_of_In in Hc. apply H in Hc. by apply bool_decide_eq_true in Hc.
  - apply list_elem_of_In in Hc. apply bool_decide_eq_true. auto.
Qed.

Lemma grouping_columns_after_preprocess to_numeric df :
  Forall (fun c => c ∈ Frame.columns df) Analyzer.required_process_cols ->
  forallb (Frame.has_column (Analyzer.preprocess to_numeric df)) Analyzer.grouping_cols = true.
Proof.
  intros H. unfold Analyzer.required_process_cols in H.
  apply Forall_cons in H as [H1 H]. apply Forall_cons in H as [H2 _].
  unfold Analyzer.grouping_cols. cbn [forallb]. unfold Frame.has_column.
  rewrite !bool_decide_eq_true_2 by (apply columns_preprocess; assumption). reflexivity.
Qed.

(** The final sync is started exactly once in every run of [process_data]
    that meets no error on its way (over sheets whose labels are distinct),
    and in no other run.  The runs that sync are the three early exits that found nothing to rewrite (no
    processable group, no unit of an allowed content type, no unit that
    passes the content filters) and the run that rewrites.  A run that
    finds no source data, one whose source lacks a required column, one
    whose numeric conversion or whose sort raises, and one that an
    exception leaves, end without a sync. *)
Theorem final_sync_started_once_unless_error (sort_values : Frame.Sorter)
    (PLATFORM : Analyzer.Platform) (clock : nat -> string)
    (to_numeric : Frame.cell -> option Z) (astype_int_raises : list Frame.cell -> bool)
    (parse_datetime : Frame.cell -> option Z)
    (sort_raises : list (gmap string Frame.cell) -> bool)
    (passes_content_filters : gmap string Frame.cell -> bool)
    (Service : Type) (generate_content : Service -> string -> result string * Service)
    (prompt_en prompt_ru : string -> string) (writerow_fails : list Frame.cell -> bool)
    (w : Analyzer.World) (s0 : Service) :
  let r := Analyzer.process_data sort_values PLATFORM clock to_numeric astype_int_raises
             parse_datetime sort_raises passes_content_filters Service
             generate_content prompt_en prompt_ru
             writerow_fails w s0 in
  let x := r.1.1.1 in
  let tr := r.1.1.2 in
  RunSpec.sync_starts tr = (if RunSpec.reaches_sync x then 1 else 0)%nat
  /\ (RunSpec.reaches_sync x = true ->
      RunSpec.meets_no_error sort_values PLATFORM clock to_numeric astype_int_raises
        parse_datetime sort_raises passes_content_filters w)
  /\ (RunSpec.distinct_labels w ->
      RunSpec.meets_no_error sort_values PLATFORM clock to_numeric astype_int_raises
        parse_datetime sort_raises passes_content_filters w ->
      RunSpec.reaches_sync x = true)
  /\ (x = Analyzer.ExitNoSourceData <-> RunSpec.source_frames w = []).
Proof.
  cbv zeta.
  match goal with |- ?A /\ (?B -> ?C) /\ (?D -> ?C -> ?B) /\ ?E =>
    cut (A /\ (B <-> C) /\ E);
      [intros (H1 & [H2 H3] & H4);
       split; [exact H1|split; [exact H2|split; [intros _; exact H3|exact H4]]]|]
  end.
  unfold Analyzer.process_data, RunSpec.meets_no_error,
    RunSpec.consolidated, RunSpec.source_frames.
  pose proof (sync_starts_read_sources (Analyzer.source_sheets w)) as Hev.
  destruct (Analyzer.read_sources (Analyzer.source_sheets w)) as [dfs ev1].
  cbn [fst snd] in Hev |- *.
  destruct dfs as [|df0 dfs].
  { cbn [fst snd RunSpec.reaches_sync]. rewrite sync_starts_app, Hev.
    split; [reflexivity|].
    split; [|tauto]. split; [discriminate|]. intros [H _]. congruence. }
  set (all_dfs := df0 :: dfs).
  destruct (forallb _ Analyzer.required_process_cols) eqn:Hreq; cbn [negb].
  2:{ cbn [fst snd RunSpec.reaches_sync]. rewrite Hev. split; [reflexivity|].
      split; [|split; discriminate]. split; [discriminate|].
      intros (_ & Hc & _). apply required_columns_iff in Hc. congruence. }
  apply required_columns_iff in Hreq.
  destruct (Analyzer.preprocess_raises astype_int_raises _) eqn:Hpre.
  { cbn [fst snd RunSpec.reaches_sync]. rewrite sync_starts_app, Hev.
    split; [reflexivity|].
    split; [|split; discriminate]. split; [discriminate|].
    intros (_ & _ & Hp & _). discriminate. }
  rewrite (grouping_columns_after_preprocess to_numeric _ Hreq). cbn [negb].
  destruct (Analyzer.consolidate _ _ _ _) as [units|e] eqn:Hcons.
  2:{ cbn [fst snd RunSpec.reaches_sync]. rewrite Hev. split; [reflexivity|].
      split; [|split; discriminate]. split; [discriminate|].
      intros (_ & _ & _ & units & Hu & _). discriminate. }
  destruct units as [|u0 units].
  { cbn [fst snd RunSpec.reaches_sync].
    rewrite sync_starts_app, Hev, sync_starts_final_sync.
    split; [reflexivity|]. split; [|split; discriminate].
    split; [|reflexivity]. intros _. split; [discriminate|]. split; [assumption|].
    split; [reflexivity|].
    exists []. split; [reflexivity|].
    split; intros H; exfalso; apply H; reflexivity. }
  set (us := u0 :: units) in *.
  destruct (sort_raises (Analyzer.parsed parse_datetime us)) eqn:Hsort.
  { cbn [fst snd RunSpec.reaches_sync]. rewrite Hev. split; [reflexivity|].
    split; [|split; discriminate]. split; [discriminate|].
    intros (_ & _ & _ & units' & [= <-] & Hs & _).
    rewrite Hs in Hsort by discriminate. discriminate. }
  destruct (Analyzer.df_typed_filtered _ _ w us) as [|t0 typed] eqn:Htyped.
  { cbn [fst snd RunSpec.reaches_sync].
    rewrite sync_starts_app, Hev, sync_starts_app, sync_starts_final_sync.
    split; [reflexivity|]. split; [|split; discriminate].
    split; [|reflexivity]. intros _. split; [discriminate|]. split; [assumption|].
    split; [reflexivity|].
    exists us. split; [reflexivity|]. split; [intros _; exact Hsort|].
    intros H. exfalso. apply H.
    unfold Analyzer.df_final_filtered. rewrite Htyped. reflexivity. }
  destruct (Analyzer.df_final_filtered _ _ _ w us) as [|f0 final] eqn:Hfinal.
  { cbn [fst snd RunSpec.reaches_sync].
    rewrite sync_starts_app, Hev, sync_starts_app, sync_starts_final_sync.
    split; [reflexivity|]. split; [|split; discriminate].
    split; [|reflexivity]. intros _. split; [discriminate|]. split; [assumption|].
    split; [reflexivity|].
    exists us. split; [reflexivity|]. split; [intros _; exact Hsort|].
    intros H. exfalso. by apply H. }
  pose proof (rewrite_and_sync_starts Service generate_content prompt_en prompt_ru
                writerow_fails w s0 (f0 :: final)) as Hrs.
  cbv zeta in Hrs.
  destruct (Analyzer.rewrite_and_sync _ _ _ _ _ w s0 (f0 :: final)) as [[[x ev] f] s].
  cbn [fst snd] in Hrs |- *. rewrite sync_starts_app, Hev.
  destruct (Analyzer.file_ready w (f0 :: final)) as [u|e] eqn:Hready;
    destruct Hrs as [-> ->]; cbn [RunSpec.reaches_sync].
  - split; [reflexivity|]. split; [|split; discriminate].
    split; [|reflexivity]. intros _. split; [discriminate|]. split; [assumption|].
    split; [reflexivity|].
    exists us. split; [reflexivity|]. split; [intros _; exact Hsort|].
    intros _. rewrite Hfinal, Hready. exact I.
  - split; [reflexivity|]. split; [|split; discriminate].
    split; [discriminate|]. intros (_ & _ & _ & units' & [= <-] & _ & Hopen).
    rewrite Hfinal, Hready in Hopen. destruct (Hopen ltac:(discriminate)).
Qed.

(** C2. The claim is right and the code misses it on one early exit: a run
    that reads no data row from the source sheets sends its notification
    and returns without starting the sync, although the local log holds
    records that the remote sheet lacks and that a sync would upload in one
    batch.  The sibling early exit of a run that finds nothing to
    consolidate, over the same local log and remote sheet, starts the sync
    and uploads them. *)
Theorem run_without_source_data_skips_sync :
  let r := Analyzer.process_data insertion_sorter Analyzer.twitter RunSpec.clock0 RunSpec.to_numeric0
             RunSpec.never_raises RunSpec.parse_datetime0 RunSpec.never_raises
             RunSpec.keep_all nat RewriteSpec.flaky
             RewriteSpec.prompt_en RewriteSpec.prompt_ru (fun _ => false)
             RunSpec.world_without_source_data 0%nat in
  let r' := Analyzer.process_data insertion_sorter Analyzer.twitter RunSpec.clock0 RunSpec.to_numeric0
              RunSpec.never_raises RunSpec.parse_datetime0 RunSpec.never_raises
              RunSpec.keep_all nat RewriteSpec.flaky
              RewriteSpec.prompt_en RewriteSpec.prompt_ru (fun _ => false)
              RunSpec.world_with_nothing_new 0%nat in
  r.1.1.1 = Analyzer.ExitNoSourceData
  /\ r.1.1.2 = [ Analyzer.ENotify Analyzer.NNoSourceData ]
  /\ Analyzer.sync_invoked r.1.1.2 = false
  /\ Analyzer.appends r.1.1.2 = []
  /\ length (Analyzer.appends
               (Analyzer.sync_local_to_gsheet
                  (Analyzer.local_file RunSpec.world_without_source_data)
                  (Analyzer.target_read_sync RunSpec.world_without_source_data)
                  (Analyzer.append_result RunSpec.world_without_source_data))) = 1%nat
  /\ Analyzer.local_file RunSpec.world_with_nothing_new
     = Analyzer.local_file RunSpec.world_without_source_data
  /\ Analyzer.target_read_sync RunSpec.world_with_nothing_new
     = Analyzer.target_read_sync RunSpec.world_without_source_data
  /\ r'.1.1.1 = Analyzer.ExitNoProcessableData
  /\ Analyzer.sync_invoked r'.1.1.2 = true
  /\ length (Analyzer.appends r'.1.1.2) = 1%nat.
Proof.
  cbv zeta. repeat split; reflexivity.
Qed.

(** A run with one new post: it is rewritten, saved, and uploaded by the
    final sync. *)
Example run_with_one_post_rewrites_and_syncs :
  let r := Analyzer.process_data insertion_sorter Analyzer.twitter RunSpec.clock0 RunSpec.to_numeric0
             RunSpec.never_raises RunSpec.parse_datetime0 RunSpec.never_raises
             RunSpec.keep_all nat RewriteSpec.flaky
             RewriteSpec.prompt_en RewriteSpec.prompt_ru (fun _ => false)
             RunSpec.world_with_one_post 0%nat in
  r.1.1.1 = Analyzer.ExitFinished
  /\ Analyzer.sync_invoked r.1.1.2 = true
  /\ length (Analyzer.appends r.1.1.2) = 1%nat
  /\ Analyzer.notifications r.1.1.2 = [ Analyzer.NSuccess 1 ].
Proof.
  cbv zeta. repeat split; reflexivity.
Qed.

(** ** The script and its exit status *)





(** The two paths with a non-zero status: a command line without
    [--platform], and a number of concurrent requests that is no integer. *)
Example exit_status_nonzero_examples :
  let r := Analyzer.analyzer_script Analyzer.UsageError ScriptSpec.int_of_digits
             ScriptSpec.complete_config (Ok tt) (Ok tt) ([], Analyzer.RunReturned) in
  let r' := Analyzer.analyzer_script (Analyzer.Parsed Analyzer.reddit)
              ScriptSpec.int_of_digits ScriptSpec.config_with_bad_number (Ok tt) (Ok tt)
              ([], Analyzer.RunReturned) in
  Analyzer.exit_status r.2 = 2 /\ r.1 = []
  /\ Analyzer.exit_status r'.2 = 1 /\ r'.1 = [].
Proof. cbv zeta. repeat split; reflexivity. Qed.

(** ** The scraper's per-user state *)

Lemma foldl_max_spec (l : list Z) (a : Z) :
  a ≤ foldl Z.max a l
  /\ (foldl Z.max a l = a \/ foldl Z.max a l ∈ l)
  /\ Forall (fun x => x ≤ foldl Z.max a l) l.
Proof.
  revert a. induction l as [|x l IH]; intros a; simpl.
  - split; [lia|]. split; [by left|constructor].
  - destruct (IH (Z.max a x)) as (H1 & H2 & H3).
    split; [lia|]. split.
    + destruct H2 as [H2|H2].
      * destruct (Z.max_spec a x) as [[? Hm]|[? Hm]]; rewrite Hm in *.
        -- right. rewrite H2. left.
        -- by left.
      * right. by right.
    + constructor; [lia|assumption].
Qed.

Lemma latest_id_spec (tweets : list Scraper.Tweet) :
  tweets <> [] ->
  (exists t, t ∈ tweets /\ Scraper.id t = Scraper.latest_id tweets)
  /\ Forall (fun t => Scraper.id t ≤ Scraper.latest_id tweets) tweets.
Proof.
  destruct tweets as [|t rest]; [congruence|]. intros _. unfold Scraper.latest_id.
  destruct (foldl_max_spec (Scraper.id <$> rest) (Scraper.id t)) as (H1 & H2 & H3).
  split.
  - destruct H2 as [H2|H2].
    + exists t. split; [left|by symmetry].
    + apply list_elem_of_fmap in H2 as (t' & Ht' & Hin). exists t'. split; [by right|].
      by symmetry.
  - constructor; [assumption|]. apply Forall_forall. intros t0 Ht0.
    rewrite Forall_forall in H3. apply H3. apply list_elem_of_fmap. eauto.
Qed.

Lemma process_tweets_max username tweets m rows seen m' rows' seen' :
  Scraper.process_tweets username tweets m rows seen = (Ok m', rows', seen') ->
  m ≤ m'
  /\ (m' = m \/ exists t, t ∈ tweets /\ Scraper.id t = m')
  /\ Forall (fun t => Scraper.id t ≤ m') tweets.
Proof.
  revert m rows seen. induction tweets as [|t rest IH]; intros m rows seen; simpl.
  - intros [= <- <- <-]. split; [lia|]. split; [by left|constructor].
  - set (m1 := if m <? Scraper.id t then Scraper.id t else m).
    assert (m ≤ m1 /\ Scraper.id t ≤ m1 /\ (m1 = m \/ m1 = Scraper.id t)) as (Hm & Ht & Hc).
    { subst m1. destruct (Z.ltb_spec m (Scraper.id t)); lia. }
    assert (forall rows seen,
               Scraper.process_tweets username rest m1 rows seen = (Ok m', rows', seen') ->
               m ≤ m'
               /\ (m' = m \/ exists t0, t0 ∈ t :: rest /\ Scraper.id t0 = m')
               /\ Forall (fun t0 => Scraper.id t0 ≤ m') (t :: rest)) as Hstep.
    { intros rows0 seen0 H. apply IH in H as (H1 & H2 & H3).
      split; [lia|]. split.
      - destruct H2 as [H2|(t0 & Hin & Hid)].
        + destruct Hc as [Hc|Hc]; [left; lia|].
          right. exists t. split; [left|lia].
        + right. exists t0. split; [by right|assumption].
      - constructor; [lia|assumption]. }
    case_bool_decide; [apply Hstep|].
    destruct (Scraper.row_fields t); [apply Hstep|discriminate].
Qed.

(** What one user does to the state: nothing, or one entry, the user's own,
    set to an id above the one stored, which is the largest id fetched. *)
Lemma process_user_step keys st entry :
  Scraper.last_seen_state (Scraper.process_user keys st entry) = Scraper.last_seen_state st
  \/ exists m tweets,
       Scraper.last_seen_state (Scraper.process_user keys st entry)
       = <[entry.1 := m]> (Scraper.last_seen_state st)
       /\ Scraper.last_seen (Scraper.last_seen_state st) entry.1 < m
       /\ entry.2 = Scraper.Fetched tweets
       /\ (exists t, t ∈ tweets /\ Scraper.id t = m)
       /\ Forall (fun t => Scraper.id t ≤ m) tweets.
Proof.
  destruct entry as [username fetch]. unfold Scraper.process_user, Scraper.last_seen.
  cbn [fst snd].
  set (last := default 0 (Scraper.last_seen_state st !! username)).
  destruct fetch as [e| |e|tweets]; try (by left).
  destruct (filter (λ t, last < Scraper.id t) tweets) as [|n0 new] eqn:Hnew.
  - destruct (bool_decide (username ∉ keys) && _) eqn:Hinit; [|by left].
    cbn [Scraper.last_seen_state].
    destruct (Z.ltb_spec last (Scraper.latest_id tweets)) as [Hlt|Hge]; [|by left].
    right. exists (Scraper.latest_id tweets), tweets.
    assert (tweets <> []) as Hne.
    { apply andb_true_iff in Hinit as [_ Hinit]. destruct tweets; [discriminate|congruence]. }
    destruct (latest_id_spec tweets Hne) as [H1 H2]. auto.
  - destruct (Scraper.process_tweets username (reverse (n0 :: new)) last _ _)
      as [[[m'|e] rows'] seen'] eqn:Hp; [|by left].
    cbn [Scraper.last_seen_state].
    destruct (Z.ltb_spec last m') as [Hlt|Hge]; [|by left].
    right. exists m', tweets.
    apply process_tweets_max in Hp as (H1 & H2 & H3).
    split; [reflexivity|]. split; [assumption|]. split; [reflexivity|]. split.
    + destruct H2 as [H2|(t & Hin & Hid)]; [lia|].
      exists t. split; [|assumption].
      rewrite elem_of_reverse in Hin. rewrite <- Hnew in Hin.
      by apply list_elem_of_filter in Hin as [_ Hin].
    + apply Forall_forall. intros t Ht.
      destruct (decide (last < Scraper.id t)) as [Hl|Hl]; [|lia].
      rewrite Forall_forall in H3. apply H3. rewrite elem_of_reverse.
      rewrite <- Hnew. by apply list_elem_of_filter.
Qed.

Lemma process_user_monotone keys st entry u :
  Scraper.last_seen (Scraper.last_seen_state st) u
  ≤ Scraper.last_seen (Scraper.last_seen_state (Scraper.process_user keys st entry)) u
  /\ (is_Some (Scraper.last_seen_state st !! u) ->
      is_Some (Scraper.last_seen_state (Scraper.process_user keys st entry) !! u)).
Proof.
  destruct (process_user_step keys st entry) as [->|(m & tweets & -> & Hlt & _)].
  - split; [lia|auto].
  - unfold Scraper.last_seen in *.
    destruct (decide (entry.1 = u)) as [<-|Hne].
    + rewrite lookup_insert_eq. simpl. split; [lia|eauto].
    + rewrite lookup_insert_ne by assumption. split; [lia|auto].
Qed.

Lemma cycle_monotone keys users st u :
  Scraper.last_seen (Scraper.last_seen_state st) u
  ≤ Scraper.last_seen
      (Scraper.last_seen_state (foldl (Scraper.process_user keys) st users)) u
  /\ (is_Some (Scraper.last_seen_state st !! u) ->
      is_Some (Scraper.last_seen_state (foldl (Scraper.process_user keys) st users) !! u)).
Proof.
  revert st. induction users as [|entry users IH]; intros st; simpl; [split; [lia|auto]|].
  destruct (IH (Scraper.process_user keys st entry)) as [H1 H2].
  destruct (process_user_monotone keys st entry u) as [H3 H4].
  split; [lia|auto].
Qed.

(** C10. Across a scrape cycle no user's last-seen id decreases: read with
    the default 0 of [last_seen_state.get(username, 0)], the id saved at
    the end is at least the id loaded at the start, and an entry that
    existed still exists with an id at least as large.  Each user changes
    at most the user's own entry, and only to the largest id among the
    fetched tweets, when that id is strictly above the stored one. *)
Theorem last_seen_id_never_decreases
    (users : list (string * Scraper.Fetch)) (state : gmap string Z)
    (initial_state_keys : gset string) :
  let final :=
    Scraper.last_seen_state (Scraper.run_scrape_cycle users state initial_state_keys) in
  (forall username, Scraper.last_seen state username ≤ Scraper.last_seen final username)
  /\ (forall username v, state !! username = Some v ->
        exists v', final !! username = Some v' /\ v ≤ v')
  /\ (forall st entry,
        let st' := Scraper.process_user initial_state_keys st entry in
        Scraper.last_seen_state st' = Scraper.last_seen_state st
        \/ exists m tweets,
             Scraper.last_seen_state st' = <[entry.1 := m]> (Scraper.last_seen_state st)
             /\ Scraper.last_seen (Scraper.last_seen_state st) entry.1 < m
             /\ entry.2 = Scraper.Fetched tweets
             /\ (exists t, t ∈ tweets /\ Scraper.id t = m)
             /\ Forall (fun t => Scraper.id t ≤ m) tweets).
Proof.
  cbv zeta. unfold Scraper.run_scrape_cycle.
  split; [|split].
  - intros u. apply (cycle_monotone initial_state_keys users
      {| Scraper.last_seen_state := state; Scraper.all_rows_to_append := [];
         Scraper.processed_tweet_ids_this_run := ∅; Scraper.cycle_errors := [] |} u).
  - intros u v Hv.
    destruct (cycle_monotone initial_state_keys users
      {| Scraper.last_seen_state := state; Scraper.all_rows_to_append := [];
         Scraper.processed_tweet_ids_this_run := ∅; Scraper.cycle_errors := [] |} u)
      as [Hle Hsome].
    cbn [Scraper.last_seen_state] in Hle, Hsome.
    destruct Hsome as [v' Hv']; [eauto|].
    exists v'. split; [assumption|].
    unfold Scraper.last_seen in Hle. rewrite Hv, Hv' in Hle. exact Hle.
  - intros st entry. apply process_user_step.
Qed.

(** C10 on a cycle: the known user with new tweets moves from 100 to 105,
    the user whose fetch fails keeps 50, and the new user is entered at 7. *)
Example scrape_cycle_example :
  let final :=
    Scraper.last_seen_state
      (Scraper.run_scrape_cycle ScraperSpec.users ScraperSpec.state_before
         (dom ScraperSpec.state_before)) in
  final !! "alice" = Some 105 /\ final !! "bob" = Some 50 /\ final !! "carol" = Some 7.
Proof. cbv zeta. repeat split; reflexivity. Qed.

(** * Further properties of the code *)

(** ** Standardization of the source sheets *)

Lemma add_missing_general cols df :
  let df' :=
    foldl (fun df col =>
             if Frame.has_column df col then df else Frame.set_column col (Frame.Str "") df)
          df cols in
  (forall c, c ∈ Frame.columns df' <-> c ∈ Frame.columns df \/ c ∈ cols)
  /\ Forall2 (fun r r' : gmap string Frame.cell =>
                forall c, r' !! c
                          = if decide (c ∈ cols /\ c ∉ Frame.columns df)
                            then Some (Frame.Str "") else r !! c)
             (Frame.rows df) (Frame.rows df').
Proof.
  cbv zeta. revert df. induction cols as [|col cols IH]; intros df.
  - cbn [foldl]. split.
    + intros c. rewrite elem_of_nil. tauto.
    + apply Forall2_same_length_lookup_2; [reflexivity|].
      intros i r r' Hr Hr' c. assert (r = r') as -> by congruence.
      case_decide as H; [|reflexivity]. destruct H as [H _]. by apply elem_of_nil in H.
  - cbn [foldl]. destruct (Frame.has_column df col) eqn:Hcol.
    + apply bool_decide_eq_true in Hcol. destruct (IH df) as [Hc Hr]. split.
      * intros c. rewrite Hc, elem_of_cons. split; [tauto|].
        intros [H|[->|H]]; auto.
      * eapply Forall2_impl; [exact Hr|]. intros r r' H c. rewrite (H c).
        repeat case_decide; try reflexivity.
        -- exfalso. destruct H0 as [? ?]. apply H1. split; [by right|assumption].
        -- exfalso. destruct H1 as [H1 H2]. apply elem_of_cons in H1 as [->|H1];
             [contradiction|]. apply H0. split; assumption.
    + apply bool_decide_eq_false in Hcol.
      destruct (IH (Frame.set_column col (Frame.Str "") df)) as [Hc Hr].
      assert (Frame.columns (Frame.set_column col (Frame.Str "") df)
              = Frame.columns df ++ [col]) as Hcols.
      { unfold Frame.set_column, Frame.has_column. cbn [Frame.columns].
        rewrite (bool_decide_eq_false_2 _ Hcol). reflexivity. }
      assert (forall c, c ∈ Frame.columns (Frame.set_column col (Frame.Str "") df)
                        <-> c ∈ Frame.columns df \/ c = col) as Hiff.
      { intros c. rewrite Hcols, elem_of_app, list_elem_of_singleton. tauto. }
      clear Hcols. split.
      * intros c. rewrite Hc, Hiff, elem_of_cons. tauto.
      * unfold Frame.set_column in Hr at 1. cbn [Frame.rows] in Hr.
        apply Forall2_fmap_l in Hr.
        eapply Forall2_impl; [exact Hr|]. intros r r' H c. rewrite (H c). cbn beta.
        destruct (decide (c = col)) as [->|Hne].
        -- rewrite lookup_insert_eq.
           rewrite decide_False.
           2:{ intros [_ H']. apply H'. apply Hiff. by right. }
           rewrite decide_True; [reflexivity|]. split; [left|assumption].
        -- rewrite lookup_insert_ne by congruence.
           repeat case_decide; try reflexivity.
           ++ exfalso. destruct H0 as [H0 H0']. apply H1. split; [by right|].
              intros H2. apply H0'. apply Hiff. by left.
           ++ exfalso. destruct H1 as [H1 H1']. apply elem_of_cons in H1 as [->|H1];
                [congruence|]. apply H0. split; [assumption|].
              intros H2. apply Hiff in H2 as [H2|H2]; [contradiction|congruence].
Qed.

Lemma add_missing_columns_columns (df : Frame.DataFrame) c :
  c ∈ Frame.columns (Analyzer.add_missing_columns df)
  <-> c ∈ Frame.columns df \/ c ∈ Analyzer.TARGET_COLUMNS.
Proof. exact (proj1 (add_missing_general Analyzer.TARGET_COLUMNS df) c). Qed.

Lemma add_missing_columns_rows (df : Frame.DataFrame) :
  Forall2 (fun r r' : gmap string Frame.cell =>
             forall c, r' !! c
                       = if decide (c ∈ Analyzer.TARGET_COLUMNS /\ c ∉ Frame.columns df)
                         then Some (Frame.Str "") else r !! c)
          (Frame.rows df) (Frame.rows (Analyzer.add_missing_columns df)).
Proof. exact (proj2 (add_missing_general Analyzer.TARGET_COLUMNS df)). Qed.

(** Standardization adds exactly the target columns that the sheet lacks,
    filled with the empty string, and leaves every cell of the sheet as it
    was. *)
Theorem add_missing_columns_standardizes (df : Frame.DataFrame) :
  let df' := Analyzer.add_missing_columns df in
  (forall c, c ∈ Frame.columns df' <-> c ∈ Frame.columns df \/ c ∈ Analyzer.TARGET_COLUMNS)
  /\ Forall2 (fun r r' : gmap string Frame.cell =>
                forall c, r' !! c
                          = if decide (c ∈ Analyzer.TARGET_COLUMNS /\ c ∉ Frame.columns df)
                            then Some (Frame.Str "") else r !! c)
             (Frame.rows df) (Frame.rows df').
Proof. split; [apply add_missing_columns_columns | apply add_missing_columns_rows]. Qed.

Lemma target_columns_read_empty (c : string) (header : list string) (body : list (list string)) :
  c ∈ Analyzer.TARGET_COLUMNS -> c ∉ header ->
  Forall (fun r : gmap string Frame.cell => r !! c = Some (Frame.Str ""))
         (Frame.rows (Analyzer.add_missing_columns (Frame.of_values (header :: body)))).
Proof.
  intros Hc Hh.
  pose proof (add_missing_columns_rows (Frame.of_values (header :: body))) as Hr.
  apply Forall_forall. intros r' Hr'.
  apply list_elem_of_lookup in Hr' as [i Hi].
  destruct (Forall2_lookup_r _ _ _ _ _ Hr Hi) as (r & _ & Hrel).
  rewrite (Hrel c). apply decide_True. split; assumption.
Qed.

Lemma scraper_header_rows (header : list string) (body : list (list string)) :
  header = Sheets.twitter_header \/ header = Sheets.OUTPUT_COLUMNS ->
  Forall PipelineSpec.anonymous
         (Frame.rows (Analyzer.add_missing_columns (Frame.of_values (header :: body)))).
Proof.
  intros Hh.
  assert ("Original Username" ∈ Analyzer.TARGET_COLUMNS) as H1
    by (apply (bool_decide_unpack _); vm_compute; exact I).
  assert ("First Tweet URL" ∈ Analyzer.TARGET_COLUMNS) as H2
    by (apply (bool_decide_unpack _); vm_compute; exact I).
  assert (("Original Username" ∉ header) /\ ("First Tweet URL" ∉ header)) as [H3 H4].
  { destruct Hh as [-> | ->]; split; apply (bool_decide_unpack _); vm_compute; exact I. }
  pose proof (target_columns_read_empty _ header body H1 H3) as Ha.
  pose proof (target_columns_read_empty _ header body H2 H4) as Hb.
  rewrite Forall_forall in Ha, Hb. apply Forall_forall. intros r Hr.
  split; [apply Ha | apply Hb]; assumption.
Qed.

(** A sheet written by either scraper is read by the analyzer without an
    author and without a record URL: its header has [Username] and
    [Tweet URL], not the [Original Username] and [First Tweet URL] that the
    analyzer groups and deduplicates by, so standardization fills both with
    the empty string in every row. *)
Theorem scraper_sheets_read_without_author
    (name : string) (header : list string) (body : list (list string)) :
  header = Sheets.twitter_header \/ header = Sheets.OUTPUT_COLUMNS ->
  body <> [] ->
  exists df,
    Analyzer.read_sheet (name, Analyzer.Values (header :: body)) = (Some df, [])
    /\ length (Frame.rows df) = length body
    /\ Forall (fun r : gmap string Frame.cell =>
                 r !! "Original Username" = Some (Frame.Str "")
                 /\ r !! "First Tweet URL" = Some (Frame.Str ""))
              (Frame.rows df).
Proof.
  intros Hh Hb.
  exists (Analyzer.add_missing_columns (Frame.of_values (header :: body))).
  split.
  { unfold Analyzer.read_sheet. cbn [snd length].
    destruct body as [|b body]; [congruence|]. reflexivity. }
  split.
  { pose proof (add_missing_columns_rows (Frame.of_values (header :: body))) as Hr.
    apply Forall2_length in Hr. rewrite <- Hr. cbn [Frame.of_values Frame.rows]. apply length_fmap. }
  exact (scraper_header_rows header body Hh).
Qed.

Lemma scraper_sheets_read_without_author_twitter :
  exists df,
    Analyzer.read_sheet ("Sheet1", Analyzer.Values [Sheets.twitter_header; Sheets.twitter_row])
    = (Some df, [])
    /\ length (Frame.rows df) = 1%nat
    /\ Forall (fun r : gmap string Frame.cell =>
                 r !! "Original Username" = Some (Frame.Str "")
                 /\ r !! "First Tweet URL" = Some (Frame.Str ""))
              (Frame.rows df).
Proof.
  apply (scraper_sheets_read_without_author "Sheet1" Sheets.twitter_header
           [Sheets.twitter_row]).
  - left. reflexivity.
  - discriminate.
Defined.

Lemma reply_to_other_empty_author text : Analyzer.reply_to_other "" text = false.
Proof.
  unfold Analyzer.reply_to_other.
  destruct (Text.lstrip text) as [|c rest]; [reflexivity|].
  destruct (ascii_dec c "@") as [->|Hc].
  - unfold Analyzer.author_at_boundary, Analyzer.word_run_1_15, Analyzer.word_boundary.
    cbn [Analyzer.match_literal_ci].
    destruct rest as [|d rest]; [reflexivity|].
    change (Text.is_word "@") with false. cbn [xorb].
    destruct (Text.is_word d); reflexivity.
  - destruct c as [[] [] [] [] [] [] [] []]; try reflexivity. congruence.
Qed.

Lemma filter_all {A} (P : A -> Prop) `{forall x, Decision (P x)} (l : list A) :
  Forall P l -> filter P l = l.
Proof.
  induction 1 as [|x l Hx _ IH]; [reflexivity|].
  rewrite filter_cons_True by assumption. by rewrite IH.
Qed.

(** With an empty author the reply pattern matches no text, so the
    ownership filter retains every row of the group: the look-ahead
    [(?!\b)] fails exactly where a mention could begin.  The retained rows
    are the rows of the group in timestamp order; in a group of up to
    sixteen rows, rows with the same timestamp are in the order of the
    sheet, and a group whose rows all carry one timestamp is retained as it
    stands. *)
Theorem ownership_filter_keeps_all_for_empty_author (sort_values : Frame.Sorter)
    (group : list (gmap string Frame.cell)) :
  (forall text, Analyzer.reply_to_other "" text = false)
  /\ (Analyzer.core_thread_tweets sort_values "" group
      = Frame.sort_rows sort_values "First Tweet Timestamp" group)
  /\ (Analyzer.core_thread_tweets sort_values "" group ≡ₚ group)
  /\ StronglySorted (Frame.by_column "First Tweet Timestamp")
                    (Analyzer.core_thread_tweets sort_values "" group)
  /\ ((length group <= 16)%nat ->
      (forall t : Frame.cell,
         filter (fun r => Frame.get r "First Tweet Timestamp" = t)
                (Analyzer.core_thread_tweets sort_values "" group)
         = filter (fun r => Frame.get r "First Tweet Timestamp" = t) group)
      /\ (forall t : Frame.cell,
            Forall (fun r => Frame.get r "First Tweet Timestamp" = t) group ->
            Analyzer.core_thread_tweets sort_values "" group = group)).
Proof.
  split; [apply reply_to_other_empty_author|].
  assert (Analyzer.core_thread_tweets sort_values "" group
          = Frame.sort_rows sort_values "First Tweet Timestamp" group) as Heq.
  { unfold Analyzer.core_thread_tweets. apply filter_all. apply Forall_forall.
    intros r _. unfold Analyzer.contains_reply_to_other.
    destruct (Frame.get r "Tweet Text"); try reflexivity.
    rewrite reply_to_other_empty_author. reflexivity. }
  split; [exact Heq|].
  split; [rewrite Heq; apply Frame.sort_Permutation|].
  split; [apply core_thread_tweets_sorted|].
  intros Hlen.
  assert (forall t : Frame.cell,
            filter (fun r => Frame.get r "First Tweet Timestamp" = t)
                   (Analyzer.core_thread_tweets sort_values "" group)
            = filter (fun r => Frame.get r "First Tweet Timestamp" = t) group) as Hstable.
  { intros t. rewrite Heq. by apply Frame.sort_stable. }
  split; [exact Hstable|].
  intros t Ht. rewrite <- (filter_all _ group Ht) at 2. rewrite <- Hstable.
  symmetry. apply filter_all. rewrite Heq.
  rewrite Forall_forall in Ht |- *. intros r Hr. apply Ht.
  by rewrite Frame.sort_Permutation in Hr.
Qed.

(** ** The exits of a run before consolidation *)

Lemma elem_of_dedup_fold (l acc : list string) c :
  c ∈ foldl (fun acc c => if bool_decide (c ∈ acc) then acc else acc ++ [c]) acc l
  <-> c ∈ acc \/ c ∈ l.
Proof.
  revert acc. induction l as [|x l IH]; intros acc; cbn [foldl].
  - rewrite elem_of_nil. tauto.
  - rewrite IH, elem_of_cons. case_bool_decide as Hx.
    + split; [tauto|]. intros [H|[->|H]]; auto.
    + rewrite elem_of_app, list_elem_of_singleton. tauto.
Qed.

Lemma elem_of_union_columns (dfs : list Frame.DataFrame) c :
  c ∈ Analyzer.union_columns dfs <-> exists df, df ∈ dfs /\ c ∈ Frame.columns df.
Proof.
  unfold Analyzer.union_columns. rewrite elem_of_dedup_fold, elem_of_nil.
  rewrite list_elem_of_join. split.
  - intros [[]|(l & Hc & Hl)]. apply list_elem_of_fmap in Hl as (df & -> & Hdf).
    exists df. split; assumption.
  - intros (df & Hdf & Hc). right. exists (Frame.columns df). split; [assumption|].
    apply list_elem_of_fmap. exists df. split; [reflexivity|assumption].
Qed.

Lemma read_sources_standardized sheets (df : Frame.DataFrame) c :
  df ∈ (Analyzer.read_sources sheets).1 -> c ∈ Analyzer.TARGET_COLUMNS ->
  c ∈ Frame.columns df.
Proof.
  unfold Analyzer.read_sources. cbn [fst]. intros Hdf Hc.
  apply list_elem_of_omap in Hdf as (r & Hr & Hdf).
  apply list_elem_of_fmap in Hr as ([name sr] & -> & _).
  unfold Analyzer.read_sheet in Hdf. cbn [snd fst] in Hdf.
  destruct sr as [| |data]; try discriminate.
  destruct (length data <? 2)%nat; [discriminate|].
  cbn [fst] in Hdf. apply (inj Some) in Hdf. rewrite <- Hdf.
  apply add_missing_columns_columns. by right.
Qed.

Section ExitFacts.
Variable sort_values : Frame.Sorter.
Variable PLATFORM : Analyzer.Platform.
Variable clock : nat -> string.
Variable to_numeric : Frame.cell -> option Z.
Variable astype_int_raises : list Frame.cell -> bool.
Variable parse_datetime : Frame.cell -> option Z.
Variable sort_raises : list (gmap string Frame.cell) -> bool.
Variable passes_content_filters : gmap string Frame.cell -> bool.
Variable Service : Type.
Variable generate_content : Service -> string -> result string * Service.
Variable prompt_en prompt_ru : string -> string.
Variable writerow_fails : list Frame.cell -> bool.


End ExitFacts.

(** ** The final sync, run after run *)

Lemma filter_nil_iff {A} (P : A -> Prop) `{forall x, Decision (P x)} (l : list A) :
  filter P l = [] <-> Forall (fun x => ~ P x) l.
Proof.
  induction l as [|x l IH]; [split; [constructor|reflexivity]|].
  rewrite Forall_cons, <- IH. destruct (decide (P x)).
  - rewrite filter_cons_True by assumption. split; [discriminate|tauto].
  - rewrite filter_cons_False by assumption. tauto.
Qed.

(** A sync makes at most one bulk append and never an empty one; it sends
    at most one notification, and none when it appends with success. *)
Theorem sync_appends_at_most_once
    (file : Analyzer.LocalFile) (target_read : result (list (list string)))
    (append_result : result unit) :
  let tr := Analyzer.sync_local_to_gsheet file target_read append_result in
  (Analyzer.appends tr = []
   \/ exists batch, batch <> [] /\ Analyzer.appends tr = [batch])
  /\ (length (Analyzer.notifications tr) <= 1)%nat
  /\ (Analyzer.appends tr <> [] -> append_result = Ok tt ->
      Analyzer.notifications tr = []).
Proof.
  cbv zeta. unfold Analyzer.sync_local_to_gsheet.
  destruct file as [| |df]; cbv zeta.
  - split; [by left|]. split; [cbn; lia|]. intros H; by destruct H.
  - split; [by left|]. split; [cbn; lia|]. intros H; by destruct H.
  - destruct (Frame.empty _).
    { split; [by left|]. split; [cbn; lia|]. intros H; by destruct H. }
    destruct (negb _).
    { split; [by left|]. split; [cbn; lia|]. intros H; by destruct H. }
    destruct (Analyzer.rows_to_upload _ _) as [|r0 rest].
    { split; [by left|]. split; [cbn; lia|]. intros H; by destruct H. }
    destruct (find _ _).
    { split; [by left|]. split; [cbn; lia|]. intros H; by destruct H. }
    split; [|split].
    + right. exists (Analyzer.rows_to_append (r0 :: rest)).
      split; [discriminate|]. destruct append_result; reflexivity.
    + destruct append_result; cbn; lia.
    + intros _ ->. reflexivity.
Qed.





Lemma lookup_zip_fmap (l : list string) (f : string -> Frame.cell) c :
  c ∈ l -> (list_to_map (zip l (f <$> l)) : gmap string Frame.cell) !! c = Some (f c).
Proof.
  induction l as [|x l IH]; intros Hc; [by apply elem_of_nil in Hc|].
  cbn [fmap list_fmap zip zip_with list_to_map foldr].
  change (foldr _ _ ?l) with (list_to_map l : gmap string Frame.cell).
  destruct (decide (c = x)) as [->|Hne].
  - apply lookup_insert_eq.
  - rewrite lookup_insert_ne by (intros Heq; apply Hne; symmetry; exact Heq). apply IH.
    apply elem_of_cons in Hc as [?|?]; [contradiction|assumption].
Qed.

Lemma rows_of_values header body :
  Frame.rows (Frame.of_values (header :: body))
  = (fun vs : list string =>
       list_to_map (zip header (Frame.Str <$> vs)) : gmap string Frame.cell) <$> body.
Proof. reflexivity. Qed.

Lemma sync_nothing_to_upload df target_read append_result :
  SyncSpec.uploadable df ->
  Analyzer.rows_to_upload (Analyzer.remote_known target_read) (Analyzer.fillna_all df) = [] ->
  Analyzer.sync_local_to_gsheet (Analyzer.Log df) target_read append_result = [].
Proof.
  intros [Hne Hcols] Hkey.
  assert (Frame.has_column (Analyzer.fillna_all df) "First Tweet URL" = true) as Hurl.
  { apply bool_decide_eq_true. rewrite Forall_forall in Hcols. apply Hcols.
    apply (bool_decide_unpack _); vm_compute; exact I. }
  unfold Analyzer.sync_local_to_gsheet. cbv zeta.
  rewrite Hne, Hurl. cbn [negb]. cbv iota.
  rewrite Hkey. reflexivity.
Qed.

(** The sync converges: once a sync has appended what the sheet lacked, and
    the sheet stores the appended values as their texts under the target
    header, a second sync of the same log finds every URL known and does
    nothing, whatever the sheet held before. *)
Theorem sync_twice_appends_once
    (df : Frame.DataFrame) (body : list (list string)) (append_result : result unit) :
  SyncSpec.uploadable df ->
  Forall StoreSpec.url_is_text (Frame.rows df) ->
  let data := Analyzer.TARGET_COLUMNS :: body in
  let first :=
    Analyzer.appends (Analyzer.sync_local_to_gsheet (Analyzer.Log df) (Ok data) (Ok tt)) in
  Analyzer.sync_local_to_gsheet (Analyzer.Log df)
    (Ok (StoreSpec.after_append data first)) append_result
  = [].
Proof.
  intros Hup Htext. cbv zeta.
  rewrite sync_appends_eq by assumption.
  set (known := Analyzer.remote_known (Ok (Analyzer.TARGET_COLUMNS :: body))).
  set (to_upload := Analyzer.rows_to_upload known (Analyzer.fillna_all df)).
  set (first := match to_upload with [] => [] | _ => [Analyzer.rows_to_append to_upload] end).
  assert (Analyzer.rows_to_upload
            (Analyzer.remote_known
               (Ok (StoreSpec.after_append (Analyzer.TARGET_COLUMNS :: body) first)))
            (Analyzer.fillna_all df) = []) as Hkey.
  { apply filter_nil_iff, Forall_forall. intros r Hr.
    assert (exists u, Frame.get r "First Tweet URL" = Frame.Str u) as [u Hu].
    { unfold Analyzer.fillna_all in Hr. cbn [Frame.rows] in Hr.
      apply list_elem_of_fmap in Hr as (r0 & -> & Hr0).
      rewrite Forall_forall in Htext. specialize (Htext r0 Hr0).
      unfold StoreSpec.url_is_text in Htext. unfold Frame.get. rewrite lookup_fmap.
      destruct (r0 !! "First Tweet URL") as [[|u|n]|]; try contradiction;
        eexists; reflexivity. }
    rewrite Hu. cbn [Analyzer.isin].
    intros Hneg. apply negb_prop_elim in Hneg. apply Hneg. apply bool_decide_pack.
    apply remote_known_iff.
    unfold StoreSpec.after_append. rewrite <- app_comm_cons, rows_of_values, fmap_app.
    destruct (decide (u ∈ known)) as [Hk|Hk].
    - apply remote_known_iff in Hk as (r' & Hr' & Hu').
      exists r'. split; [|assumption]. apply elem_of_app. left.
      rewrite rows_of_values in Hr'. exact Hr'.
    - assert (r ∈ to_upload) as Hin.
      { apply elem_of_rows_to_upload. split; [assumption|].
        intros u' Hu''. rewrite Hu in Hu''. by injection Hu'' as <-. }
      assert (first = [Analyzer.rows_to_append to_upload]) as ->.
      { subst first. destruct to_upload; [by apply elem_of_nil in Hin|reflexivity]. }
      eexists. split.
      + apply elem_of_app. right. apply list_elem_of_fmap. eexists. split; [reflexivity|].
        apply list_elem_of_fmap. eexists. split; [reflexivity|].
        cbn [mjoin list_join]. rewrite app_nil_r. unfold Analyzer.rows_to_append.
        apply list_elem_of_fmap. exists r. split; [reflexivity|assumption].
      + unfold Frame.values. rewrite <- !list_fmap_compose.
        rewrite lookup_zip_fmap by (apply (bool_decide_unpack _); vm_compute; exact I).
        cbn [compose]. f_equal.
        assert (Frame.get (Frame.fillna <$> r) "First Tweet URL" = Frame.Str u) as ->.
        { unfold Frame.get in *. rewrite lookup_fmap.
          destruct (r !! "First Tweet URL") as [c|]; [|discriminate].
          cbn in Hu |- *. subst c. reflexivity. }
        reflexivity. }
  exact (sync_nothing_to_upload _ _ _ Hup Hkey).
Qed.

Lemma local_log_urls_are_text : Forall StoreSpec.url_is_text (Frame.rows SyncSpec.local_log).
Proof.
  unfold SyncSpec.local_log. cbn [Frame.rows].
  apply Forall_cons; split; [exact I|]. apply Forall_cons; split; [exact I|]. constructor.
Qed.

Lemma sync_twice_appends_once_empty_sheet :
  Analyzer.sync_local_to_gsheet (Analyzer.Log SyncSpec.local_log)
    (Ok (StoreSpec.after_append [Analyzer.TARGET_COLUMNS]
           (Analyzer.appends
              (Analyzer.sync_local_to_gsheet (Analyzer.Log SyncSpec.local_log)
                 (Ok [Analyzer.TARGET_COLUMNS]) (Ok tt)))))
    (Ok tt)
  = [].
Proof.
  apply (sync_twice_appends_once SyncSpec.local_log [] (Ok tt)).
  - exact local_log_uploadable.
  - exact local_log_urls_are_text.
Defined.

(** ** The rewrite engine: calls, retries and counters *)

Lemma count_app p tr1 tr2 :
  TraceSpec.count p (tr1 ++ tr2) = (TraceSpec.count p tr1 + TraceSpec.count p tr2)%nat.
Proof. unfold TraceSpec.count. by rewrite filter_app, length_app. Qed.

Lemma count_cons p e tr :
  TraceSpec.count p (e :: tr) = ((if p e then 1 else 0) + TraceSpec.count p tr)%nat.
Proof.
  unfold TraceSpec.count. destruct (p e) eqn:He.
  - rewrite filter_cons_True by (rewrite He; exact I). reflexivity.
  - rewrite filter_cons_False by (rewrite He; exact id). reflexivity.
Qed.

Section CallFacts.
Variable Service : Type.
Variable generate_content : Service -> string -> result string * Service.
Variable prompt_en prompt_ru : string -> string.
Variable writerow_fails : list Frame.cell -> bool.

(** What one attempt does: the English call, and the Russian call only
    after the English one was answered. *)
Lemma rewrite_once_calls text s :
  let r := Analyzer.rewrite_once Service generate_content prompt_en prompt_ru text s in
  TraceSpec.calls Analyzer.EN r.2 = 1%nat
  /\ TraceSpec.count TraceSpec.is_backoff r.2 = 0%nat
  /\ (TraceSpec.calls Analyzer.RU r.2 <= 1)%nat
  /\ (forall v, r.1.1 = Ok v -> TraceSpec.calls Analyzer.RU r.2 = 1%nat).
Proof.
  cbv zeta. unfold Analyzer.rewrite_once.
  destruct (generate_content s (prompt_en text)) as [[t_en|e] s1].
  - destruct (generate_content s1 (prompt_ru text)) as [[t_ru|e] s2];
      cbn [fst snd]; repeat split;
      try reflexivity; try (vm_compute; lia); intros; discriminate.
  - cbn [fst snd]. repeat split;
      try reflexivity; try (vm_compute; lia); intros; discriminate.
Qed.

Lemma with_backoff_calls n text s :
  let r := Analyzer.with_backoff Service generate_content prompt_en prompt_ru n text s in
  let en := TraceSpec.calls Analyzer.EN r.2 in
  (1 <= en <= Nat.max 1 n)%nat
  /\ S (TraceSpec.count TraceSpec.is_backoff r.2) = en
  /\ (TraceSpec.calls Analyzer.RU r.2 <= en)%nat
  /\ (forall v, r.1.1 = Ok v -> (1 <= TraceSpec.calls Analyzer.RU r.2)%nat)
  /\ (forall e, r.1.1 = Raise e -> en = Nat.max 1 n).
Proof.
  cbv zeta. revert s. induction n as [|n IH]; intros s.
  - cbn [Analyzer.with_backoff].
    pose proof (rewrite_once_calls text s) as H. cbv zeta in H.
    destruct (Analyzer.rewrite_once Service generate_content prompt_en prompt_ru text s) as [[r s1] ev]. cbn [fst snd] in *.
    destruct H as (H1 & H2 & H3 & H4).
    destruct r as [v|e]; cbn [fst snd]; rewrite H1, H2;
      (repeat split; try lia; intros; try discriminate;
       try (rewrite (H4 _ eq_refl); lia)).
  - cbn [Analyzer.with_backoff].
    pose proof (rewrite_once_calls text s) as H. cbv zeta in H.
    destruct (Analyzer.rewrite_once Service generate_content prompt_en prompt_ru text s) as [[r s1] ev]. cbn [fst snd] in *.
    destruct H as (H1 & H2 & H3 & H4).
    destruct r as [v|e].
    { cbn [fst snd]; rewrite H1, H2.
      repeat split; try lia; intros; try discriminate. rewrite (H4 v eq_refl). lia. }
    destruct n as [|n'].
    { cbn [fst snd]; rewrite H1, H2.
      repeat split; try lia. intros; discriminate. }
    specialize (IH s1).
    destruct (Analyzer.with_backoff Service generate_content prompt_en prompt_ru (S n') text s1) as [[r2 s2] ev2]. cbn [fst snd] in *.
    unfold TraceSpec.calls in *.
    rewrite !count_app, !count_cons, H1, H2. cbn [TraceSpec.is_call TraceSpec.is_backoff].
    destruct IH as (I1 & I2 & I3 & I4 & I5).
    repeat split; try lia.
    + intros v Hv. specialize (I4 v Hv). lia.
    + intros e' He'. specialize (I5 e' He'). lia.
Qed.

(** The decorated rewrite makes between one and three attempts.  Every
    attempt starts with the English call, also when only the Russian call
    of the attempt before failed; there is one wait between two attempts;
    a result means the last attempt made both calls, a failure means all
    three attempts were used. *)
Theorem rewrite_text_gemini_call_bounds (text : string) (s : Service) :
  let r := Analyzer.rewrite_text_gemini Service generate_content prompt_en prompt_ru text s in
  let en := TraceSpec.calls Analyzer.EN r.2 in
  let ru := TraceSpec.calls Analyzer.RU r.2 in
  (1 <= en <= 3)%nat
  /\ (ru <= en)%nat
  /\ S (TraceSpec.count TraceSpec.is_backoff r.2) = en
  /\ (forall v, r.1.1 = Ok v -> (1 <= ru)%nat)
  /\ (forall e, r.1.1 = Raise e -> en = 3%nat).
Proof.
  cbv zeta. unfold Analyzer.rewrite_text_gemini, Analyzer.max_tries.
  pose proof (with_backoff_calls 3 text s) as H. cbv zeta in H.
  destruct H as (H1 & H2 & H3 & H4 & H5).
  change (Nat.max 1 3) with 3%nat in *.
  repeat split; try assumption; try lia.
Qed.

Lemma count_none p tr :
  Forall (fun e => p e = false) tr -> TraceSpec.count p tr = 0%nat.
Proof.
  induction 1 as [|e tr He _ IH]; [reflexivity|]. by rewrite count_cons, He, IH.
Qed.

Lemma with_backoff_events n text s :
  Forall (fun e => TraceSpec.is_pause e = false /\ TraceSpec.is_row_write e = false)
    (Analyzer.with_backoff Service generate_content prompt_en prompt_ru n text s).2.
Proof.
  assert (forall s,
             Forall (fun e => TraceSpec.is_pause e = false
                              /\ TraceSpec.is_row_write e = false)
               (Analyzer.rewrite_once Service generate_content prompt_en prompt_ru text s).2)
    as Honce.
  { intros s0. unfold Analyzer.rewrite_once.
    destruct (generate_content s0 (prompt_en text)) as [[t_en|e] s1].
    - destruct (generate_content s1 (prompt_ru text)) as [[t_ru|e] s2];
        cbn [snd]; repeat constructor.
    - cbn [snd]. repeat constructor. }
  revert s. induction n as [|n IH]; intros s; cbn [Analyzer.with_backoff];
    specialize (Honce s);
    destruct (Analyzer.rewrite_once Service generate_content prompt_en prompt_ru text s)
      as [[r s1] ev]; cbn [snd] in Honce.
  - destruct r; exact Honce.
  - destruct r as [v|e]; [exact Honce|]. destruct n as [|n']; [exact Honce|].
    specialize (IH s1).
    destruct (Analyzer.with_backoff Service generate_content prompt_en prompt_ru
                (S n') text s1) as [[r2 s2] ev2].
    cbn [snd] in *. apply Forall_app. split; [assumption|].
    constructor; [split; reflexivity|assumption].
Qed.

Lemma rewrite_unit_events (row : gmap string Frame.cell) s :
  let ev := (Analyzer.rewrite_unit Service generate_content prompt_en prompt_ru row s).2 in
  TraceSpec.count TraceSpec.is_pause ev = 0%nat
  /\ TraceSpec.count TraceSpec.is_row_write ev = 0%nat
  /\ (TraceSpec.calls Analyzer.EN ev <= 3)%nat.
Proof.
  cbv zeta. unfold Analyzer.rewrite_unit.
  destruct (Analyzer.is_blank _); [cbn [snd]; repeat split; cbn; lia|].
  unfold Analyzer.rewrite_text_gemini, Analyzer.max_tries.
  match goal with |- context [Analyzer.with_backoff _ _ _ _ ?n ?t ?s] =>
    pose proof (with_backoff_events n t s) as Hev;
    pose proof (with_backoff_calls n t s) as Hc;
    destruct (Analyzer.with_backoff _ _ _ _ n t s) as [[r s'] ev]
  end.
  cbv zeta in Hc. cbn [fst snd] in Hev, Hc.
  change (Nat.max 1 3) with 3%nat in Hc. destruct Hc as ([_ Hc] & _).
  assert (TraceSpec.count TraceSpec.is_pause ev = 0%nat
          /\ TraceSpec.count TraceSpec.is_row_write ev = 0%nat) as [H1 H2].
  { split; apply count_none; eapply Forall_impl; try exact Hev; cbn beta; tauto. }
  destruct r as [[en ru]|e]; cbn [snd]; auto.
Qed.

(** The rewrite loop counts every unit exactly once, as processed or as
    failed; it writes at most one row per unit, after the rows that were
    written before, and exactly one when no write fails; it pauses between
    two units and not after the last one; and it makes at most three
    English calls per unit. *)
Theorem rewrite_loop_accounting
    (total : nat) (units : list (gmap string Frame.cell)) (st : Analyzer.Loop Service) :
  let r := Analyzer.rewrite_loop Service generate_content prompt_en prompt_ru
             writerow_fails total units st in
  let done := (Analyzer.processed_count st + Analyzer.failed_count st)%nat in
  (Analyzer.processed_count r.1 + Analyzer.failed_count r.1 = done + length units)%nat
  /\ (Analyzer.processed_count st <= Analyzer.processed_count r.1)%nat
  /\ (Analyzer.failed_count st <= Analyzer.failed_count r.1)%nat
  /\ (exists new,
         Analyzer.written r.1 = Analyzer.written st ++ new
         /\ length new = TraceSpec.count TraceSpec.is_row_write r.2
         /\ (length new <= length units)%nat
         /\ ((forall vals, writerow_fails vals = false) -> length new = length units))
  /\ TraceSpec.count TraceSpec.is_pause r.2 = Nat.min (length units) (total - S done)
  /\ (TraceSpec.calls Analyzer.EN r.2 <= 3 * length units)%nat.
Proof.
  cbv zeta. revert st. induction units as [|row rest IH]; intros st.
  - cbn [Analyzer.rewrite_loop fst snd length].
    repeat split; try lia; try (cbn; lia).
    exists []. rewrite app_nil_r. repeat split; cbn; lia.
  - cbn [Analyzer.rewrite_loop].
    pose proof (rewrite_unit_events row (Analyzer.service st)) as Hu. cbv zeta in Hu.
    destruct (Analyzer.rewrite_unit _ _ _ _ row (Analyzer.service st)) as [[[rr ok] s'] ev].
    cbn [snd] in Hu. destruct Hu as (Hu1 & Hu2 & Hu3).
    match goal with |- context [Analyzer.rewrite_loop _ _ _ _ _ _ rest ?st'] =>
      specialize (IH st'); destruct (Analyzer.rewrite_loop _ _ _ _ _ _ rest st') as [st'' ev'']
    end.
    cbn [fst snd Analyzer.processed_count Analyzer.failed_count Analyzer.written length]
      in IH |- *.
    destruct IH as (I1 & I2 & I3 & (new & I4 & I5 & I6 & I7) & I8 & I9).
    unfold TraceSpec.calls in *.
    rewrite !count_app, Hu1, Hu2.
    split; [destruct ok; lia|]. split; [destruct ok; lia|]. split; [destruct ok; lia|].
    split; [|split].
    + destruct (writerow_fails (Analyzer.final_row_for_csv rr)) eqn:Hw; cbn [negb] in *.
      * exists new. split; [assumption|]. split; [|split; [lia|]].
        -- cbn [TraceSpec.count filter length list_filter]. rewrite I5.
           destruct (_ <? _)%nat; reflexivity.
        -- intros Hall. rewrite Hall in Hw. discriminate.
      * exists (Analyzer.final_row_for_csv rr :: new).
        split; [rewrite I4, <- app_assoc; reflexivity|].
        split; [|split; [cbn [length]; lia|]].
        -- rewrite count_cons. cbn [TraceSpec.is_row_write length]. rewrite I5.
           destruct (_ <? _)%nat; reflexivity.
        -- intros Hall. cbn [length]. rewrite (I7 Hall). reflexivity.
    + rewrite I8.
      assert (TraceSpec.count TraceSpec.is_pause
                (if negb (writerow_fails (Analyzer.final_row_for_csv rr))
                 then [Analyzer.EWriteRow (Analyzer.final_row_for_csv rr)] else [])
              = 0%nat) as ->.
      { destruct (negb _); reflexivity. }
      destruct (Nat.ltb_spec (Analyzer.processed_count st + Analyzer.failed_count st + 1)
                  total) as [Hlt|Hge].
      * rewrite count_cons. cbn [TraceSpec.is_pause].
        change (TraceSpec.count TraceSpec.is_pause []) with 0%nat.
        destruct ok; lia.
      * change (TraceSpec.count TraceSpec.is_pause []) with 0%nat.
        destruct ok; lia.
    + assert (forall b (x : Analyzer.Event),
                 TraceSpec.is_call Analyzer.EN x = false ->
                 TraceSpec.count (TraceSpec.is_call Analyzer.EN) (if b : bool then [x] else [])
                 = 0%nat) as Hz.
      { intros b x Hx. destruct b; [|reflexivity]. rewrite count_cons, Hx. reflexivity. }
      rewrite !Hz by reflexivity. lia.
Qed.

End CallFacts.

(** ** From one run to the next: the local log *)

Lemma foldl_append_row_Log df ws :
  foldl Analyzer.append_row (Analyzer.Log df) ws
  = Analyzer.Log {| Frame.columns := Frame.columns df;
                    Frame.rows := Frame.rows df
                                  ++ (Analyzer.csv_row (Frame.columns df) <$> ws) |}.
Proof.
  revert df. induction ws as [|v ws IH]; intros df.
  - cbn [foldl fmap list_fmap]. rewrite app_nil_r. by destruct df.
  - cbn [foldl Analyzer.append_row]. rewrite IH. cbn [Frame.columns Frame.rows].
    rewrite <- app_assoc. reflexivity.
Qed.

Lemma lookup_list_to_map_fmap (l : list string) (f : string -> Frame.cell) c :
  c ∈ l ->
  (list_to_map ((fun c => (c, f c)) <$> l) : gmap string Frame.cell) !! c = Some (f c).
Proof.
  induction l as [|x l IH]; intros Hc; [by apply elem_of_nil in Hc|].
  cbn [fmap list_fmap list_to_map foldr].
  change (foldr _ _ ?l) with (list_to_map l : gmap string Frame.cell).
  destruct (decide (c = x)) as [->|Hne].
  - apply lookup_insert_eq.
  - rewrite lookup_insert_ne by (intros Heq; apply Hne; symmetry; exact Heq). apply IH.
    apply elem_of_cons in Hc as [?|?]; [contradiction|assumption].
Qed.

Lemma add_missing_columns_complete df :
  Forall (fun c => c ∈ Frame.columns df) Analyzer.TARGET_COLUMNS ->
  Frame.rows (Analyzer.add_missing_columns df) = Frame.rows df.
Proof.
  intros Hall. pose proof (add_missing_columns_rows df) as Hr.
  symmetry. apply list_eq_Forall2. eapply Forall2_impl; [exact Hr|].
  intros r r' H. cbn beta in H. apply map_eq. intros c. rewrite (H c).
  rewrite decide_False; [reflexivity|]. intros [Hc Hn]. apply Hn.
  rewrite Forall_forall in Hall. by apply Hall.
Qed.

Lemma stored_cell (rr : gmap string Frame.cell) c :
  c ∈ Analyzer.TARGET_COLUMNS ->
  (Frame.fillna <$> Analyzer.csv_row Analyzer.TARGET_COLUMNS (Analyzer.final_row_for_csv rr))
    !! c
  = Some (Frame.Str (Frame.astype_str (default (Frame.Str "") (rr !! c)))).
Proof.
  intros Hc. rewrite lookup_fmap.
  unfold Analyzer.csv_row, Analyzer.final_row_for_csv.
  rewrite <- list_fmap_compose, lookup_zip_fmap by assumption. reflexivity.
Qed.

Lemma load_processed_urls_intro df (r : gmap string Frame.cell) :
  ProcessedSpec.usable df -> r ∈ Frame.rows df -> ProcessedSpec.counted_as_processed r ->
  Frame.astype_str (Frame.get r "First Tweet URL")
  ∈ Analyzer.load_processed_urls (Some df).
Proof.
  intros Hu Hr Hp. unfold Analyzer.load_processed_urls.
  rewrite (proj2 (usable_iff df) Hu).
  rewrite elem_of_list_to_set, list_elem_of_fmap. exists r. split; [reflexivity|].
  apply list_elem_of_filter. split; [|assumption].
  apply Is_true_true. by apply processed_mask_iff.
Qed.

Lemma good_rewrite_counts s :
  StoreSpec.good_rewrite s -> s <> "" /\ ~ (exists t, s = "Error:" +:+ t).
Proof.
  intros [Hne Hs]. split; [assumption|]. intros Ht. apply startswith_iff in Ht. congruence.
Qed.

(** A record that the rewrite stage wrote with both rewrites filled is in
    the processed set of every later run that starts from that log, so no
    unit with its URL is rewritten again.  This needs a log that can be
    parsed and has the target header (a new file gets it). *)
Theorem rewritten_record_is_durable
    (PLATFORM : Analyzer.Platform) (parse_datetime : Frame.cell -> option Z)
    (f : Analyzer.LocalFile) (written : list (list Frame.cell))
    (row : gmap string Frame.cell) (en ru : string) (w : Analyzer.World) :
  f <> Analyzer.Unreadable ->
  (forall df, f = Analyzer.Log df -> Frame.columns df = Analyzer.TARGET_COLUMNS) ->
  StoreSpec.good_rewrite en -> StoreSpec.good_rewrite ru ->
  Analyzer.final_row_for_csv (Analyzer.set_rewrites en ru row) ∈ written ->
  Analyzer.local_file w = foldl Analyzer.append_row (Analyzer.write_header f) written ->
  let u := Frame.astype_str (default (Frame.Str "") (row !! "First Tweet URL")) in
  u ∈ Analyzer.processed_urls w
  /\ forall units r,
       r ∈ Analyzer.df_typed_filtered PLATFORM parse_datetime w units ->
       Frame.get r "First Tweet URL" <> Frame.Str u.
Proof.
  intros Hf Hcols Hen Hru Hin Hfile u.
  assert (u ∈ Analyzer.processed_urls w) as Hu.
  { assert (exists df0, Analyzer.write_header f = Analyzer.Log df0
                        /\ Frame.columns df0 = Analyzer.TARGET_COLUMNS) as (df0 & Hh & Hc0).
    { destruct f as [| |df]; [|congruence|].
      - eexists. split; reflexivity.
      - exists df. split; [reflexivity|]. by apply Hcols. }
    rewrite Hh, foldl_append_row_Log, Hc0 in Hfile.
    unfold Analyzer.processed_urls. rewrite Hfile. apply elem_of_union. left.
    set (rr := Analyzer.set_rewrites en ru row) in *.
    set (log := {| Frame.columns := Analyzer.TARGET_COLUMNS;
                   Frame.rows := Frame.rows df0
                                 ++ (Analyzer.csv_row Analyzer.TARGET_COLUMNS <$> written) |}).
    set (stored := Frame.fillna
                   <$> Analyzer.csv_row Analyzer.TARGET_COLUMNS (Analyzer.final_row_for_csv rr)).
    set (r3 := (list_to_map ((fun c => (c, Frame.get stored c)) <$> Analyzer.TARGET_COLUMNS)
                : gmap string Frame.cell)).
    assert (Frame.rows (Analyzer.local_state log)
            = (fun r : gmap string Frame.cell =>
                 list_to_map ((fun c => (c, Frame.get r c)) <$> Analyzer.TARGET_COLUMNS)
                 : gmap string Frame.cell)
                <$> Frame.rows (Analyzer.fillna_all log)) as Hrows.
    { unfold Analyzer.local_state, Frame.select. cbn [Frame.rows].
      rewrite add_missing_columns_complete; [reflexivity|].
      apply Forall_forall. intros c Hc. exact Hc. }
    assert (r3 ∈ Frame.rows (Analyzer.local_state log)) as Hr3.
    { rewrite Hrows. apply list_elem_of_fmap. exists stored. split; [reflexivity|].
      unfold Analyzer.fillna_all. cbn [Frame.rows]. apply list_elem_of_fmap.
      eexists. split; [reflexivity|]. apply elem_of_app. right.
      apply list_elem_of_fmap. eexists. split; [reflexivity|exact Hin]. }
    assert (forall c, c ∈ Analyzer.TARGET_COLUMNS ->
                      Frame.get r3 c
                      = Frame.Str (Frame.astype_str (default (Frame.Str "") (rr !! c))))
      as Hcell.
    { intros c Hc. unfold Frame.get at 1. subst r3.
      rewrite lookup_list_to_map_fmap by assumption. cbn [default].
      unfold Frame.get. subst stored. rewrite stored_cell by assumption. reflexivity. }
    assert (Frame.astype_str (Frame.get r3 "First Tweet URL") = u) as <-.
    { rewrite Hcell by (apply (bool_decide_unpack _); vm_compute; exact I).
      subst rr u. unfold Analyzer.set_rewrites.
      rewrite !lookup_insert_ne by discriminate. reflexivity. }
    apply load_processed_urls_intro; [|assumption|].
    - split.
      + unfold Frame.empty. destruct (Frame.rows (Analyzer.local_state log));
          [by apply elem_of_nil in Hr3|reflexivity].
      + apply Forall_forall. intros c Hc.
        unfold Analyzer.local_state, Frame.select. cbn [Frame.columns].
        revert c Hc. apply Forall_forall.
        apply (bool_decide_unpack _); vm_compute; exact I.
    - apply good_rewrite_counts in Hen as [He1 He2].
      apply good_rewrite_counts in Hru as [Hr1 Hr2].
      unfold ProcessedSpec.counted_as_processed.
      rewrite !Hcell by (apply (bool_decide_unpack _); vm_compute; exact I).
      subst rr. rewrite set_rewrites_en, set_rewrites_ru.
      unfold Analyzer.set_rewrites. cbn [default Frame.astype_str].
      repeat split; try assumption. discriminate. }
  split; [assumption|].
  intros units r Hr. unfold Analyzer.df_typed_filtered in Hr.
  apply list_elem_of_filter in Hr as [_ Hr]. apply list_elem_of_filter in Hr as [Hr _].
  intros Heq. rewrite Heq in Hr. cbn [Analyzer.isin] in Hr.
  apply negb_prop_elim in Hr. apply Hr. by apply bool_decide_pack.
Qed.

Lemma rewritten_record_is_durable_next_run :
  "https://x.com/alice/status/1" ∈ Analyzer.processed_urls NextRunSpec.world_of_next_run
  /\ forall units r,
       r ∈ Analyzer.df_typed_filtered Analyzer.twitter RunSpec.parse_datetime0
             NextRunSpec.world_of_next_run units ->
       Frame.get r "First Tweet URL" <> Frame.Str "https://x.com/alice/status/1".
Proof.
  apply (rewritten_record_is_durable Analyzer.twitter RunSpec.parse_datetime0
           Analyzer.Absent [SyncSpec.rewritten_record]
           (Analyzer.processed_row Analyzer.twitter "2024-01-01" "conv1"
              (Frame.Str "alice") (Frame.Str "Alice") (Frame.Str "t1") (Frame.Str "A post")
              (Frame.Str "https://x.com/alice/status/1")
              (Frame.Int 0) (Frame.Int 0) (Frame.Int 0) (Frame.Int 0) (Frame.Int 0)
              (Frame.Int 0) (Frame.Str "Original Tweet") (Frame.Int 1))
           "Hello" "Privet" NextRunSpec.world_of_next_run).
  - discriminate.
  - intros df H. discriminate H.
  - split; [discriminate|reflexivity].
  - split; [discriminate|reflexivity].
  - left.
  - reflexivity.
Defined.

(** ** The content filters *)

Lemma skip_nonspace_length s :
  (String.length (Filters.skip_nonspace s) <= String.length s)%nat.
Proof.
  induction s as [|c s IH]; [reflexivity|]. cbn [Filters.skip_nonspace].
  destruct (Text.is_space c); cbn [String.length]; lia.
Qed.

Lemma match_url_length s rest :
  Filters.match_url s = Some rest -> (String.length rest < String.length s)%nat.
Proof.
  unfold Filters.match_url.
  repeat (match goal with
          | |- context [match ?x with _ => _ end] =>
              is_var x; destruct x; try discriminate
          end).
  all: cbn [String.length].
  all: repeat (match goal with
               | |- context [if ?b then _ else _] => destruct b; try discriminate
               end).
  all: intros [= <-];
    match goal with |- context [Filters.skip_nonspace ?r] =>
      pose proof (skip_nonspace_length r) end; lia.
Qed.

Lemma sub_urls_length fuel s :
  (String.length (Filters.sub_urls fuel s) <= String.length s)%nat.
Proof.
  revert s. induction fuel as [|fuel IH]; intros s; [reflexivity|].
  cbn [Filters.sub_urls]. destruct (Filters.match_url s) as [rest|] eqn:Hm.
  - apply match_url_length in Hm. specialize (IH rest). lia.
  - destruct s as [|c s]; [reflexivity|]. cbn [String.length]. specialize (IH s). lia.
Qed.

(** The length of the text is fuel enough: more fuel gives the same text. *)
Lemma sub_urls_enough_fuel fuel s :
  (String.length s <= fuel)%nat ->
  Filters.sub_urls fuel s = Filters.remove_urls s.
Proof.
  unfold Filters.remove_urls.
  assert (forall n m s, (String.length s <= n)%nat -> (String.length s <= m)%nat ->
                        Filters.sub_urls n s = Filters.sub_urls m s) as H.
  { induction n as [|n IH]; intros m t Hn Hm.
    - destruct t; [|cbn in Hn; lia]. destruct m; reflexivity.
    - destruct m as [|m].
      + destruct t; [reflexivity|cbn in Hm; lia].
      + cbn [Filters.sub_urls]. destruct (Filters.match_url t) as [rest|] eqn:Hu.
        * apply match_url_length in Hu. apply IH; lia.
        * destruct t as [|c t]; [reflexivity|]. cbn [String.length] in *.
          f_equal. apply IH; lia. }
  intros Hf. apply H; [assumption|reflexivity].
Qed.

Lemma remove_separators_length s :
  (String.length (Filters.remove_separators s) <= String.length s)%nat.
Proof.
  assert (forall n s, (String.length s <= n)%nat ->
                      (String.length (Filters.remove_separators s) <= String.length s)%nat)
    as H.
  { induction n as [|n IH]; intros t Hn.
    - destruct t; [reflexivity|cbn in Hn; lia].
    - destruct t as [|c t]; [reflexivity|]. cbn [String.length] in Hn.
      cbn [Filters.remove_separators].
      destruct t as [|c2 [|c3 rest]].
      + reflexivity.
      + cbn [String.length]. reflexivity.
      + destruct (_ && _).
        * cbn [String.length] in *. specialize (IH rest). lia.
        * change (String.length (String c ?x)) with (S (String.length x)).
          specialize (IH (String c2 (String c3 rest))). cbn [String.length] in *. lia. }
  apply (H (String.length s)). reflexivity.
Qed.

Lemma append_length s1 s2 :
  String.length (s1 +:+ s2) = (String.length s1 + String.length s2)%nat.
Proof.
  induction s1 as [|c s1 IH]; [reflexivity|].
  change (S (String.length (s1 +:+ s2)) = S (String.length s1 + String.length s2)).
  by rewrite IH.
Qed.

Lemma join_cons_length sep w ws :
  String.length (Text.join sep (w :: ws))
  = match ws with
    | [] => String.length w
    | _ => (String.length w + String.length sep + String.length (Text.join sep ws))%nat
    end.
Proof.
  unfold Text.join. destruct ws as [|w' ws]; [reflexivity|].
  cbn [String.concat]. rewrite !append_length. lia.
Qed.

Lemma split_join_length s :
  (String.length (Text.join " " (Filters.split s))
   + (match s with
      | EmptyString => 0
      | String c _ => if Text.is_space c then 1 else 0
      end)
   <= String.length s)%nat.
Proof.
  induction s as [|c s IH]; [reflexivity|].
  cbn [Filters.split String.length]. destruct (Text.is_space c) eqn:Hc.
  - destruct s as [|d s]; [cbn; lia|]. destruct (Text.is_space d); lia.
  - destruct (Filters.split s) as [|w ws] eqn:Hs.
    + cbn. lia.
    + destruct s as [|d s]; [discriminate|]. cbn [Filters.head_is_space].
      destruct (Text.is_space d) eqn:Hd.
      * rewrite join_cons_length. cbn [String.length] in *. lia.
      * rewrite join_cons_length in IH |- *. cbn [String.length] in *.
        destruct ws; lia.
Qed.

Lemma lstrip_length s : (String.length (Text.lstrip s) <= String.length s)%nat.
Proof.
  induction s as [|c s IH]; [reflexivity|]. cbn [Text.lstrip].
  destruct (Text.is_space c); cbn [String.length]; lia.
Qed.

Lemma rstrip_length s : (String.length (Text.rstrip s) <= String.length s)%nat.
Proof.
  induction s as [|c s IH]; [reflexivity|]. cbn [Text.rstrip].
  destruct (Text.rstrip s); [destruct (Text.is_space c)|]; cbn [String.length] in *; lia.
Qed.

Lemma clean_text_length c :
  (String.length (Filters.clean_text_for_filtering c)
   <= String.length (Frame.astype_str c))%nat.
Proof.
  unfold Filters.clean_text_for_filtering, Text.strip, Filters.remove_urls. cbv zeta.
  set (t := Frame.astype_str c).
  pose proof (sub_urls_length (String.length t) t) as H1.
  set (t1 := Filters.sub_urls _ t) in *.
  pose proof (remove_separators_length t1) as H2.
  set (t2 := Filters.remove_separators t1) in *.
  pose proof (split_join_length t2) as H3.
  set (t3 := Text.join " " (Filters.split t2)) in *.
  pose proof (lstrip_length t3) as H4.
  pose proof (rstrip_length (Text.lstrip t3)) as H5.
  lia.
Qed.





(** Cleaning never lengthens a text, so a unit that passes the content
    filters has a combined text of at least fifty characters. *)
Theorem filtered_text_has_min_length (r : gmap string Frame.cell) :
  Filters.passes_content_filters r = true ->
  (forall c, String.length (Filters.clean_text_for_filtering c)
             <= String.length (Frame.astype_str c))%nat
  /\ exists s, Frame.get r "Combined Original Text" = Frame.Str s
               /\ (50 <= String.length s)%nat.
Proof.
  intros Hp. split; [apply clean_text_length|].
  unfold Filters.passes_content_filters in Hp.
  apply andb_true_iff in Hp as [Hp _]. apply andb_true_iff in Hp as [Hl Hk].
  unfold Filters.keyword_ok in Hk. unfold Filters.length_ok in Hl.
  destruct (Frame.get r "Combined Original Text") as [|s|n]; try discriminate.
  exists s. split; [reflexivity|].
  apply Nat.leb_le in Hl. unfold Filters.MIN_CONTENT_LENGTH in Hl.
  pose proof (clean_text_length (Frame.Str s)) as H. cbn [Frame.astype_str] in H. lia.
Qed.

Lemma filtered_text_has_min_length_post :
  (forall c, String.length (Filters.clean_text_for_filtering c)
             <= String.length (Frame.astype_str c))%nat
  /\ exists s, Frame.get FilterSpec.post_about_a_model "Combined Original Text" = Frame.Str s
               /\ (50 <= String.length s)%nat.
Proof.
  apply (filtered_text_has_min_length FilterSpec.post_about_a_model).
  vm_compute. reflexivity.
Defined.

(** ** The scrapers' sheets through the analyzer *)

Lemma Ok_inj {A} (a b : A) : Ok a = Ok b -> a = b.
Proof. intros H. by injection H. Qed.

Lemma getitem_Ok_inv (r : gmap string Frame.cell) c v :
  Frame.getitem r c = Ok v -> r !! c = Some v.
Proof. unfold Frame.getitem. destruct (r !! c); [|discriminate]. by intros [= ->]. Qed.

Lemma thread_row_fields platform now conv core (f row : gmap string Frame.cell) c :
  PipelineSpec.copied c ->
  Analyzer.thread_row platform now conv core f = Ok row ->
  row !! c = f !! c.
Proof.
  unfold Analyzer.thread_row. intros Hc H.
  destruct (Frame.getitem f "Original Username") as [username|] eqn:E1;
    cbn [mbind result_bind] in H; [|discriminate H].
  destruct (Frame.getitem f "Display Name") as [display|] eqn:E2;
    cbn [mbind result_bind] in H; [|discriminate H].
  destruct (Frame.getitem f "First Tweet Timestamp") as [ts|] eqn:E3;
    cbn [mbind result_bind] in H; [|discriminate H].
  destruct (Frame.getitem f "First Tweet URL") as [url|] eqn:E4;
    cbn [mbind result_bind] in H; [|discriminate H].
  repeat match type of H with
         | context [Frame.getitem f ?c] =>
             let E := fresh "E" in
             destruct (Frame.getitem f c) eqn:E; cbn [mbind result_bind] in H;
             [|discriminate H]
         end.
  cbn [mret result_ret] in H. apply Ok_inj in H. subst row.
  apply getitem_Ok_inv in E1, E3, E4.
  destruct Hc as [-> | [-> | ->]]; [rewrite E1|rewrite E3|rewrite E4]; reflexivity.
Qed.

Lemma single_row_fields platform now conv (f row : gmap string Frame.cell) c :
  PipelineSpec.copied c ->
  Analyzer.single_row platform now conv f = Ok row ->
  row !! c = f !! c.
Proof.
  unfold Analyzer.single_row. intros Hc H.
  destruct (Frame.getitem f "Original Username") as [username|] eqn:E1;
    cbn [mbind result_bind] in H; [|discriminate H].
  destruct (Frame.getitem f "Display Name") as [display|] eqn:E2;
    cbn [mbind result_bind] in H; [|discriminate H].
  destruct (Frame.getitem f "First Tweet Timestamp") as [ts|] eqn:E3;
    cbn [mbind result_bind] in H; [|discriminate H].
  destruct (Frame.getitem f "Tweet Text") as [txt|] eqn:E5;
    cbn [mbind result_bind] in H; [|discriminate H].
  destruct (Frame.getitem f "First Tweet URL") as [url|] eqn:E4;
    cbn [mbind result_bind] in H; [|discriminate H].
  repeat match type of H with
         | context [Frame.getitem f ?c] =>
             let E := fresh "E" in
             destruct (Frame.getitem f c) eqn:E; cbn [mbind result_bind] in H;
             [|discriminate H]
         end.
  cbn [mret result_ret] in H. apply Ok_inj in H. subst row.
  apply getitem_Ok_inv in E1, E3, E4.
  destruct Hc as [-> | [-> | ->]]; [rewrite E1|rewrite E3|rewrite E4]; reflexivity.
Qed.

Lemma fmap_Some_Ok_inv {A} (m : result A) (o : option A) :
  Some <$> m = Ok o -> exists a, m = Ok a /\ o = Some a.
Proof.
  destruct m as [a|e]; [|discriminate]. intros H. apply Ok_inj in H. eauto.
Qed.

Lemma consolidate_group_copies (sort_values : Frame.Sorter) platform now name group (row : gmap string Frame.cell) c v :
  PipelineSpec.copied c ->
  Forall (fun r : gmap string Frame.cell => r !! c = Some v) group ->
  Analyzer.consolidate_group sort_values platform now name group = Ok (Some row) ->
  row !! c = Some v.
Proof.
  intros Hc Hg. unfold Analyzer.consolidate_group. destruct name as [username conv_id].
  cbv zeta.
  pose proof (fun r => proj1 (elem_of_core_thread_tweets sort_values username group r)) as Hcore.
  destruct (Analyzer.core_thread_tweets sort_values username group) as [|first rest]; [discriminate|].
  assert (first !! c = Some v) as Hfirst.
  { rewrite Forall_forall in Hg. apply Hg. apply (Hcore first). left. }
  destruct (1 <? _)%nat; intros H; apply fmap_Some_Ok_inv in H as (a & H & [= <-]).
  - apply (thread_row_fields _ _ _ _ _ _ c Hc) in H. congruence.
  - apply (single_row_fields _ _ _ _ _ c Hc) in H. congruence.
Qed.

Lemma consolidate_copies (sort_values : Frame.Sorter) platform clock k groups units c v :
  PipelineSpec.copied c ->
  Forall (fun g : (string * string) * list (gmap string Frame.cell) =>
            Forall (fun r : gmap string Frame.cell => r !! c = Some v) g.2) groups ->
  Analyzer.consolidate sort_values platform clock k groups = Ok units ->
  Forall (fun u : gmap string Frame.cell => u !! c = Some v) units.
Proof.
  intros Hc. revert k units. induction groups as [|[name group] groups IH]; intros k units Hg.
  - cbn [Analyzer.consolidate]. intros H. apply Ok_inj in H. subst. constructor.
  - apply Forall_cons in Hg as [Hg1 Hg2]. cbn [Analyzer.consolidate snd] in *.
    destruct (Analyzer.consolidate_group sort_values platform (clock k) name group) as [u|] eqn:Hu;
      cbn [mbind result_bind]; [|discriminate].
    destruct (Analyzer.consolidate sort_values platform clock (S k) groups) as [us|] eqn:Hus;
      cbn [mbind result_bind mret result_ret]; [|discriminate].
    intros H. apply Ok_inj in H. subst units.
    specialize (IH _ _ Hg2 Hus). destruct u as [row|]; [|assumption].
    constructor; [|assumption]. eapply consolidate_group_copies; eassumption.
Qed.

Lemma groupby_rows (rs : list (gmap string Frame.cell)) k g (r : gmap string Frame.cell) :
  (k, g) ∈ Analyzer.groupby rs -> r ∈ g -> r ∈ rs.
Proof.
  unfold Analyzer.groupby. cbv zeta. intros Hk Hr.
  apply list_elem_of_fmap in Hk as (k' & [= -> ->] & _).
  apply list_elem_of_fmap in Hr as ([k1 r1] & -> & Hr).
  apply list_elem_of_filter in Hr as [_ Hr].
  apply list_elem_of_omap in Hr as (r0 & Hr0 & Hk0).
  destruct (Analyzer.group_key r0); [|discriminate]. cbn in Hk0. by injection Hk0 as _ <-.
Qed.

Lemma numeric_fold_lookup to_numeric cols df c (P : option Frame.cell -> Prop) :
  c ∉ cols ->
  Forall (fun r : gmap string Frame.cell => P (r !! c)) (Frame.rows df) ->
  Forall (fun r : gmap string Frame.cell => P (r !! c))
    (Frame.rows
       (foldl (fun df col =>
                 if Frame.has_column df col
                 then Frame.map_column col
                        (fun c => Frame.Int (default 0 (to_numeric c))) df
                 else Frame.set_column col (Frame.Int 0) df)
              df cols)).
Proof.
  revert df. induction cols as [|col cols IH]; intros df Hc Hdf; [exact Hdf|].
  apply not_elem_of_cons in Hc as [Hne Hc]. cbn [foldl]. apply IH; [assumption|].
  destruct (Frame.has_column df col).
  - unfold Frame.map_column. cbn [Frame.rows]. apply Forall_fmap.
    eapply Forall_impl; [exact Hdf|]. intros r Hr. cbn.
    rewrite lookup_insert_ne by (intros Heq; apply Hne; symmetry; exact Heq). exact Hr.
  - unfold Frame.set_column. cbn [Frame.rows]. apply Forall_fmap.
    eapply Forall_impl; [exact Hdf|]. intros r Hr. cbn.
    rewrite lookup_insert_ne by (intros Heq; apply Hne; symmetry; exact Heq). exact Hr.
Qed.

Lemma map_column_lookup col f df c (P : option Frame.cell -> Prop) :
  c <> col ->
  Forall (fun r : gmap string Frame.cell => P (r !! c)) (Frame.rows df) ->
  Forall (fun r : gmap string Frame.cell => P (r !! c))
         (Frame.rows (Frame.map_column col f df)).
Proof.
  intros Hne Hdf. unfold Frame.map_column. cbn [Frame.rows]. apply Forall_fmap.
  eapply Forall_impl; [exact Hdf|]. intros r Hr. cbn.
  rewrite lookup_insert_ne by (intros Heq; apply Hne; symmetry; exact Heq). exact Hr.
Qed.

Lemma preprocess_lookup to_numeric df c (P : option Frame.cell -> Prop) :
  c ∉ Analyzer.num_cols_in_target -> c <> "Conversation ID" -> c <> "Tweet Text" ->
  Forall (fun r : gmap string Frame.cell => P (r !! c)) (Frame.rows df) ->
  Forall (fun r : gmap string Frame.cell => P (r !! c))
         (Frame.rows (Analyzer.preprocess to_numeric df)).
Proof.
  intros H1 H2 H3 Hdf. unfold Analyzer.preprocess. cbv zeta.
  apply map_column_lookup; [assumption|]. apply map_column_lookup; [assumption|].
  apply numeric_fold_lookup; assumption.
Qed.

Lemma concat_lookup (dfs : list Frame.DataFrame) c v :
  Forall (fun df => c ∈ Frame.columns df
                    /\ Forall (fun r : gmap string Frame.cell => r !! c = Some v)
                              (Frame.rows df)) dfs ->
  Forall (fun r : gmap string Frame.cell => r !! c = Some v)
         (Frame.rows (Analyzer.concat dfs)).
Proof.
  intros Hdfs. unfold Analyzer.concat. cbv zeta. cbn [Frame.rows].
  apply Forall_forall. intros r Hr.
  apply list_elem_of_join in Hr as (l & Hr & Hl).
  apply list_elem_of_fmap in Hl as (df & -> & Hdf).
  unfold Frame.select in Hr. cbn [Frame.rows] in Hr.
  apply list_elem_of_fmap in Hr as (r0 & -> & Hr0).
  rewrite Forall_forall in Hdfs. destruct (Hdfs df Hdf) as [Hc Hrows].
  rewrite lookup_list_to_map_fmap.
  - rewrite Forall_forall in Hrows. unfold Frame.get. by rewrite (Hrows r0 Hr0).
  - apply elem_of_union_columns. exists df. split; assumption.
Qed.

Lemma add_missing_columns_complete_rows_nil cols :
  Frame.rows (Analyzer.add_missing_columns {| Frame.columns := cols; Frame.rows := [] |}) = [].
Proof.
  pose proof (add_missing_columns_rows {| Frame.columns := cols; Frame.rows := [] |}) as H.
  cbn [Frame.rows] in H. by apply Forall2_nil_inv_l in H.
Qed.

Lemma source_frames_blank c w :
  c ∈ Analyzer.TARGET_COLUMNS ->
  PipelineSpec.headers_lack c w ->
  Forall (fun df => Forall (fun r : gmap string Frame.cell => r !! c = Some (Frame.Str ""))
                           (Frame.rows df))
         (RunSpec.source_frames w).
Proof.
  unfold PipelineSpec.headers_lack, RunSpec.source_frames, Analyzer.read_sources.
  cbn [fst]. intros Hc Hw. apply Forall_forall. intros df Hdf.
  apply list_elem_of_omap in Hdf as (x & Hx & Hdf).
  apply list_elem_of_fmap in Hx as ([name sr] & -> & Hin).
  rewrite Forall_forall in Hw. specialize (Hw _ Hin). cbn [snd] in Hw.
  unfold Analyzer.read_sheet in Hdf. cbn [snd fst] in Hdf.
  destruct sr as [| |data]; try discriminate.
  destruct (length data <? 2)%nat; [discriminate|].
  cbn [fst] in Hdf. apply (inj Some) in Hdf. rewrite <- Hdf.
  destruct data as [|header body].
  { unfold Frame.of_values.
    rewrite add_missing_columns_complete_rows_nil. constructor. }
  exact (target_columns_read_empty c header body Hc Hw).
Qed.

Lemma copied_target c : PipelineSpec.copied c -> c ∈ Analyzer.TARGET_COLUMNS.
Proof.
  intros [-> | [-> | ->]]; apply (bool_decide_unpack _); vm_compute; exact I.
Qed.

Lemma consolidate_sources_blank (sort_values : Frame.Sorter) PLATFORM clock to_numeric w dfs ev units c :
  Analyzer.read_sources (Analyzer.source_sheets w) = (dfs, ev) ->
  PipelineSpec.copied c ->
  PipelineSpec.headers_lack c w ->
  Analyzer.consolidate sort_values PLATFORM clock 0
    (Analyzer.groupby (Frame.rows (Analyzer.preprocess to_numeric (Analyzer.concat dfs))))
  = Ok units ->
  Forall (fun u : gmap string Frame.cell => u !! c = Some (Frame.Str "")) units.
Proof.
  intros Hrs Hc Hw. apply consolidate_copies; [assumption|].
  pose proof (copied_target c Hc) as Htarget.
  pose proof (source_frames_blank c w Htarget Hw) as Hsrc.
  assert (Forall (fun df => c ∈ Frame.columns df) (RunSpec.source_frames w)) as Hcols.
  { apply Forall_forall. intros df Hdf.
    by apply (read_sources_standardized (Analyzer.source_sheets w)). }
  unfold RunSpec.source_frames in Hsrc, Hcols. rewrite Hrs in Hsrc, Hcols.
  cbn [fst] in Hsrc, Hcols.
  assert (Forall (fun r : gmap string Frame.cell => r !! c = Some (Frame.Str ""))
                 (Frame.rows (Analyzer.preprocess to_numeric (Analyzer.concat dfs)))) as Hu.
  { apply (preprocess_lookup to_numeric _ _ (fun o => o = Some (Frame.Str ""))).
    - destruct Hc as [-> | [-> | ->]]; apply (bool_decide_unpack _); vm_compute; exact I.
    - destruct Hc as [-> | [-> | ->]]; discriminate.
    - destruct Hc as [-> | [-> | ->]]; discriminate.
    - apply concat_lookup. rewrite Forall_forall in Hsrc, Hcols |- *. intros df Hdf.
      split; [by apply Hcols|by apply Hsrc]. }
  apply Forall_forall. intros [k g] Hg. cbn [snd]. apply Forall_forall. intros r Hr.
  pose proof (groupby_rows _ _ _ _ Hg Hr) as Hin.
  rewrite Forall_forall in Hu. by apply Hu.
Qed.

Lemma scraper_sheets_lack w c :
  c = "Original Username" \/ c = "First Tweet URL" ->
  PipelineSpec.scraper_sheets w -> PipelineSpec.headers_lack c w.
Proof.
  unfold PipelineSpec.scraper_sheets, PipelineSpec.headers_lack. intros Hc Hw.
  eapply Forall_impl; [exact Hw|]. intros [name sr]. cbn [snd].
  destruct sr as [| |[|header body]]; try exact id.
  intros [-> | ->]; destruct Hc as [-> | ->];
    apply (bool_decide_unpack _); vm_compute; exact I.
Qed.

Lemma consolidate_sources_anonymous (sort_values : Frame.Sorter) PLATFORM clock to_numeric w dfs ev units :
  Analyzer.read_sources (Analyzer.source_sheets w) = (dfs, ev) ->
  PipelineSpec.scraper_sheets w ->
  Analyzer.consolidate sort_values PLATFORM clock 0
    (Analyzer.groupby (Frame.rows (Analyzer.preprocess to_numeric (Analyzer.concat dfs))))
  = Ok units ->
  Forall PipelineSpec.anonymous units.
Proof.
  intros Hrs Hw Hc.
  pose proof (consolidate_sources_blank _ _ _ _ _ _ _ _ "Original Username" Hrs
                ltac:(by left) (scraper_sheets_lack w _ ltac:(by left) Hw) Hc) as H1.
  pose proof (consolidate_sources_blank _ _ _ _ _ _ _ _ "First Tweet URL" Hrs
                ltac:(by right; right) (scraper_sheets_lack w _ ltac:(by right) Hw) Hc) as H2.
  rewrite Forall_forall in H1, H2. apply Forall_forall. intros u Hu.
  split; [by apply H1|by apply H2].
Qed.

(** A run of the analyzer over sheets that the scrapers wrote consolidates
    every unit without author and without URL: both fields of every
    consolidated record are the empty string, because the analyzer reads
    them from columns that the scrapers name differently. *)
Theorem scraper_sheets_consolidate_without_url (sort_values : Frame.Sorter)
    (PLATFORM : Analyzer.Platform) (clock : nat -> string)
    (to_numeric : Frame.cell -> option Z) (w : Analyzer.World)
    (units : list (gmap string Frame.cell)) :
  PipelineSpec.scraper_sheets w ->
  RunSpec.consolidated sort_values PLATFORM clock to_numeric w = Ok units ->
  Forall (fun u : gmap string Frame.cell =>
            u !! "Original Username" = Some (Frame.Str "")
            /\ u !! "First Tweet URL" = Some (Frame.Str "")) units.
Proof.
  intros Hw. unfold RunSpec.consolidated, RunSpec.source_frames.
  destruct (Analyzer.read_sources (Analyzer.source_sheets w)) as [dfs ev] eqn:Hrs.
  cbn [fst]. exact (consolidate_sources_anonymous _ _ _ _ _ _ _ _ Hrs Hw).
Qed.

Lemma world_after_first_run_scraper_sheets :
  PipelineSpec.scraper_sheets PipelineSpec.world_after_first_run.
Proof.
  unfold PipelineSpec.scraper_sheets, PipelineSpec.world_after_first_run.
  cbn [Analyzer.source_sheets]. constructor; [right; reflexivity|constructor].
Qed.

Lemma scraper_sheets_consolidate_without_url_reddit :
  Forall (fun u : gmap string Frame.cell =>
            u !! "Original Username" = Some (Frame.Str "")
            /\ u !! "First Tweet URL" = Some (Frame.Str ""))
         [ PipelineSpec.consolidated_post ].
Proof.
  apply (scraper_sheets_consolidate_without_url insertion_sorter Analyzer.reddit RunSpec.clock0
           RunSpec.to_numeric0 PipelineSpec.world_after_first_run).
  - exact world_after_first_run_scraper_sheets.
  - reflexivity.
Defined.

Lemma typed_filtered_nil PLATFORM parse_datetime w units u :
  u ∈ Analyzer.processed_urls w ->
  Forall (fun r : gmap string Frame.cell => r !! "First Tweet URL" = Some (Frame.Str u))
         units ->
  Analyzer.df_typed_filtered PLATFORM parse_datetime w units = [].
Proof.
  intros Hu Hunits. unfold Analyzer.df_typed_filtered.
  match goal with |- filter _ ?l = [] => assert (l = []) as ->; [|reflexivity] end.
  apply filter_nil_iff, Forall_forall. intros r Hr.
  unfold Analyzer.parse_and_sort, Analyzer.parsed in Hr.
  rewrite stable_sort_Permutation in Hr.
  apply list_elem_of_omap in Hr as (r0 & Hr0 & Hr).
  destruct (parse_datetime _) as [t|]; [|discriminate]. cbn in Hr. injection Hr as <-.
  rewrite Forall_forall in Hunits. specialize (Hunits r0 Hr0).
  cbn beta. unfold Frame.get. rewrite lookup_insert_ne by discriminate. rewrite Hunits.
  cbn [default id Analyzer.isin]. rewrite bool_decide_eq_true_2 by assumption.
  exact id.
Qed.

Lemma read_sources_events (p : Analyzer.Event -> bool) sheets :
  (forall name e, p (Analyzer.ENotify (Analyzer.NSourceReadError name e)) = false) ->
  Forall (fun e => p e = false) (Analyzer.read_sources sheets).2.
Proof.
  intros Hp. unfold Analyzer.read_sources. cbn [snd].
  induction sheets as [|[name sr] sheets IH]; [constructor|].
  cbn [fmap list_fmap mjoin list_join]. apply Forall_app. split; [|exact IH].
  unfold Analyzer.read_sheet. cbn [snd fst].
  destruct sr as [| |data]; cbn [snd]; repeat constructor; [apply Hp|].
  destruct (length data <? 2)%nat; constructor.
Qed.

Lemma final_sync_events (p : Analyzer.Event -> bool) w f :
  p Analyzer.ESyncStart = false ->
  (forall rs, p (Analyzer.EAppendRows rs) = false) ->
  (forall n, p (Analyzer.ENotify n) = true ->
             n <> Analyzer.NSyncLocalReadError
             /\ forall e, n <> Analyzer.NSyncAppendError e) ->
  Forall (fun e => p e = false) (Analyzer.final_sync w f).
Proof.
  intros H1 H2 H3.
  assert (p (Analyzer.ENotify Analyzer.NSyncLocalReadError) = false) as H4.
  { destruct (p (Analyzer.ENotify Analyzer.NSyncLocalReadError)) eqn:E; [|reflexivity].
    by destruct (H3 _ E) as [? _]. }
  assert (forall e, p (Analyzer.ENotify (Analyzer.NSyncAppendError e)) = false) as H5.
  { intros e. destruct (p (Analyzer.ENotify (Analyzer.NSyncAppendError e))) eqn:E;
      [|reflexivity]. destruct (H3 _ E) as [_ H]. by destruct (H e). }
  unfold Analyzer.final_sync. constructor; [assumption|].
  unfold Analyzer.sync_local_to_gsheet. destruct f as [| |df]; repeat constructor;
    try assumption.
  cbv zeta. destruct (Frame.empty _); [constructor|].
  destruct (negb _); [constructor|].
  destruct (Analyzer.rows_to_upload _ _); [constructor|].
  destruct (find _ _); repeat constructor; try apply H5; try apply H2.
  destruct (Analyzer.append_result w); repeat constructor; apply H5.
Qed.

Section StallFacts.
Variable sort_values : Frame.Sorter.
Variable PLATFORM : Analyzer.Platform.
Variable clock : nat -> string.
Variable to_numeric : Frame.cell -> option Z.
Variable astype_int_raises : list Frame.cell -> bool.
Variable parse_datetime : Frame.cell -> option Z.
Variable sort_raises : list (gmap string Frame.cell) -> bool.
Variable passes_content_filters : gmap string Frame.cell -> bool.
Variable Service : Type.
Variable generate_content : Service -> string -> result string * Service.
Variable prompt_en prompt_ru : string -> string.
Variable writerow_fails : list Frame.cell -> bool.

(** Over the scrapers' sheets the analyzer rewrites nothing once its log
    holds one rewritten record: every consolidated unit has the empty URL,
    the logged record put the empty URL into the processed set, and the
    already-processed filter then drops every unit.  The run calls the
    rewrite service for no unit, writes nothing to the local log, and ends
    at one of the exits before the rewrite stage. *)
Theorem analyzer_stalls_on_scraper_sheets (w : Analyzer.World) (s0 : Service) :
  PipelineSpec.scraper_sheets w ->
  "" ∈ Analyzer.processed_urls w ->
  let r := Analyzer.process_data sort_values PLATFORM clock to_numeric astype_int_raises
             parse_datetime sort_raises passes_content_filters Service
             generate_content prompt_en prompt_ru
             writerow_fails w s0 in
  Forall (fun e => TraceSpec.is_rewrite_work e = false) r.1.1.2
  /\ r.1.2 = Analyzer.local_file w
  /\ r.2 = s0
  /\ r.1.1.1 <> Analyzer.ExitFinished
  /\ r.1.1.1 <> Analyzer.ExitNothingRelevant.
Proof.
  intros Hw Hu. cbv zeta.
  unfold Analyzer.process_data.
  pose proof (read_sources_events TraceSpec.is_rewrite_work (Analyzer.source_sheets w)
                ltac:(reflexivity)) as Hev.
  assert (forall f, Forall (fun e => TraceSpec.is_rewrite_work e = false)
                           (Analyzer.final_sync w f)) as Hsync.
  { intros f. apply final_sync_events; [reflexivity|reflexivity|]. intros n Hn. discriminate Hn. }
  destruct (Analyzer.read_sources (Analyzer.source_sheets w)) as [dfs ev1] eqn:Hrs.
  cbn [fst snd] in Hev |- *.
  destruct dfs as [|df0 dfs].
  { cbn [fst snd]. repeat split; try discriminate.
    apply Forall_app. split; [assumption|repeat constructor]. }
  destruct (negb (forallb _ Analyzer.required_process_cols)).
  { cbn [fst snd]. repeat split; try discriminate. assumption. }
  destruct (Analyzer.preprocess_raises astype_int_raises _).
  { cbn [fst snd]. repeat split; try discriminate.
    apply Forall_app. split; [assumption|repeat constructor]. }
  destruct (negb (forallb _ Analyzer.grouping_cols)).
  { cbn [fst snd]. repeat split; try discriminate. assumption. }
  destruct (Analyzer.consolidate _ _ _ _) as [units|e] eqn:Hc.
  2:{ cbn [fst snd]. repeat split; try discriminate. assumption. }
  pose proof (consolidate_sources_anonymous _ _ _ _ _ _ _ _ Hrs Hw Hc) as Hcons.
  destruct units as [|u0 units].
  { cbn [fst snd]. repeat split; try discriminate.
    apply Forall_app. split; [assumption|apply Hsync]. }
  destruct (sort_raises _).
  { cbn [fst snd]. repeat split; try discriminate. assumption. }
  rewrite (typed_filtered_nil PLATFORM parse_datetime w (u0 :: units) "" Hu).
  2:{ eapply Forall_impl; [exact Hcons|]. by intros r [_ ?]. }
  cbn [fst snd]. repeat split; try discriminate.
  apply Forall_app. split; [assumption|]. apply Forall_app.
  split; [apply Hsync|repeat constructor].
Qed.

End StallFacts.

Lemma typed_filtered_no_time PLATFORM parse_datetime w units :
  parse_datetime (Frame.Str "") = None ->
  Forall (fun r : gmap string Frame.cell =>
            r !! "First Tweet Timestamp" = Some (Frame.Str "")) units ->
  Analyzer.df_typed_filtered PLATFORM parse_datetime w units = [].
Proof.
  intros Hp Hunits.
  unfold Analyzer.df_typed_filtered, Analyzer.parse_and_sort, Analyzer.parsed.
  match goal with |- context [omap ?f units] => assert (omap f units = []) as -> end.
  { induction Hunits as [|r units Hr _ IH]; [reflexivity|].
    cbn [omap list_omap]. unfold Frame.get at 1. rewrite Hr. cbn [default id].
    rewrite Hp. cbn [fmap option_fmap option_map]. exact IH. }
  reflexivity.
Qed.

Lemma twitter_sheets_lack_time w :
  PipelineSpec.twitter_sheets w -> PipelineSpec.headers_lack "First Tweet Timestamp" w.
Proof.
  unfold PipelineSpec.twitter_sheets, PipelineSpec.headers_lack. intros Hw.
  eapply Forall_impl; [exact Hw|]. intros [name sr]. cbn [snd].
  destruct sr as [| |[|header body]]; try exact id.
  intros ->. apply (bool_decide_unpack _); vm_compute; exact I.
Qed.

Section TwitterSheetFacts.
Variable sort_values : Frame.Sorter.
Variable PLATFORM : Analyzer.Platform.
Variable clock : nat -> string.
Variable to_numeric : Frame.cell -> option Z.
Variable astype_int_raises : list Frame.cell -> bool.
Variable parse_datetime : Frame.cell -> option Z.
Variable sort_raises : list (gmap string Frame.cell) -> bool.
Variable passes_content_filters : gmap string Frame.cell -> bool.
Variable Service : Type.
Variable generate_content : Service -> string -> result string * Service.
Variable prompt_en prompt_ru : string -> string.
Variable writerow_fails : list Frame.cell -> bool.

(** Over the sheet that [scraper.py] writes the analyzer rewrites nothing,
    in any run: the sheet has a [Tweet Timestamp] column and no
    [First Tweet Timestamp], so every consolidated unit has the empty
    string for its timestamp, which does not parse, and step 3a drops
    every unit.  The run calls the rewrite service for no unit and writes
    nothing to the local log. *)
Theorem twitter_sheet_is_never_rewritten (w : Analyzer.World) (s0 : Service) :
  PipelineSpec.twitter_sheets w ->
  parse_datetime (Frame.Str "") = None ->
  let r := Analyzer.process_data sort_values PLATFORM clock to_numeric astype_int_raises
             parse_datetime sort_raises passes_content_filters Service
             generate_content prompt_en prompt_ru
             writerow_fails w s0 in
  Forall (fun e => TraceSpec.is_rewrite_work e = false) r.1.1.2
  /\ r.1.2 = Analyzer.local_file w
  /\ r.2 = s0
  /\ r.1.1.1 <> Analyzer.ExitFinished
  /\ r.1.1.1 <> Analyzer.ExitNothingRelevant.
Proof.
  intros Hw Hp. cbv zeta.
  pose proof (twitter_sheets_lack_time w Hw) as Hlack.
  unfold Analyzer.process_data.
  pose proof (read_sources_events TraceSpec.is_rewrite_work (Analyzer.source_sheets w)
                ltac:(reflexivity)) as Hev.
  assert (forall f, Forall (fun e => TraceSpec.is_rewrite_work e = false)
                           (Analyzer.final_sync w f)) as Hsync.
  { intros f. apply final_sync_events; [reflexivity|reflexivity|]. intros n Hn. discriminate Hn. }
  destruct (Analyzer.read_sources (Analyzer.source_sheets w)) as [dfs ev1] eqn:Hrs.
  cbn [fst snd] in Hev |- *.
  destruct dfs as [|df0 dfs].
  { cbn [fst snd]. repeat split; try discriminate.
    apply Forall_app. split; [assumption|repeat constructor]. }
  destruct (negb (forallb _ Analyzer.required_process_cols)).
  { cbn [fst snd]. repeat split; try discriminate. assumption. }
  destruct (Analyzer.preprocess_raises astype_int_raises _).
  { cbn [fst snd]. repeat split; try discriminate.
    apply Forall_app. split; [assumption|repeat constructor]. }
  destruct (negb (forallb _ Analyzer.grouping_cols)).
  { cbn [fst snd]. repeat split; try discriminate. assumption. }
  destruct (Analyzer.consolidate _ _ _ _) as [units|e] eqn:Hc.
  2:{ cbn [fst snd]. repeat split; try discriminate. assumption. }
  pose proof (consolidate_sources_blank _ _ _ _ _ _ _ _ "First Tweet Timestamp" Hrs
                ltac:(by right; left) Hlack Hc) as Hcons.
  destruct units as [|u0 units].
  { cbn [fst snd]. repeat split; try discriminate.
    apply Forall_app. split; [assumption|apply Hsync]. }
  destruct (sort_raises _).
  { cbn [fst snd]. repeat split; try discriminate. assumption. }
  rewrite (typed_filtered_no_time PLATFORM parse_datetime w (u0 :: units) Hp Hcons).
  cbn [fst snd]. repeat split; try discriminate.
  apply Forall_app. split; [assumption|]. apply Forall_app.
  split; [apply Hsync|repeat constructor].
Qed.

End TwitterSheetFacts.

Lemma twitter_sheet_is_never_rewritten_first_run :
  let r := Analyzer.process_data insertion_sorter Analyzer.twitter RunSpec.clock0 RunSpec.to_numeric0
             RunSpec.never_raises RunSpec.parse_datetime0 RunSpec.never_raises
             Filters.passes_content_filters nat RewriteSpec.flaky
             RewriteSpec.prompt_en RewriteSpec.prompt_ru (fun _ => false)
             PipelineSpec.world_with_twitter_sheet 0%nat in
  Forall (fun e => TraceSpec.is_rewrite_work e = false) r.1.1.2
  /\ r.1.2 = Analyzer.local_file PipelineSpec.world_with_twitter_sheet
  /\ r.2 = 0%nat
  /\ r.1.1.1 <> Analyzer.ExitFinished
  /\ r.1.1.1 <> Analyzer.ExitNothingRelevant.
Proof.
  apply (twitter_sheet_is_never_rewritten insertion_sorter Analyzer.twitter RunSpec.clock0
           RunSpec.to_numeric0 RunSpec.never_raises RunSpec.parse_datetime0
           RunSpec.never_raises Filters.passes_content_filters
           nat RewriteSpec.flaky RewriteSpec.prompt_en RewriteSpec.prompt_ru
           (fun _ => false) PipelineSpec.world_with_twitter_sheet 0%nat).
  - unfold PipelineSpec.twitter_sheets, PipelineSpec.world_with_twitter_sheet.
    cbn [Analyzer.source_sheets]. constructor; [reflexivity|constructor].
  - reflexivity.
Defined.

Lemma world_after_first_run_knows_empty_url :
  "" ∈ Analyzer.processed_urls PipelineSpec.world_after_first_run.
Proof.
  unfold Analyzer.processed_urls. apply elem_of_union. left.
  cbn [Analyzer.local_file PipelineSpec.world_after_first_run].
  vm_compute. reflexivity.
Qed.

Lemma analyzer_stalls_on_reddit_sheet :
  let r := Analyzer.process_data insertion_sorter Analyzer.reddit RunSpec.clock0 RunSpec.to_numeric0
             RunSpec.never_raises RunSpec.parse_datetime0 RunSpec.never_raises
             Filters.passes_content_filters nat RewriteSpec.flaky
             RewriteSpec.prompt_en RewriteSpec.prompt_ru (fun _ => false)
             PipelineSpec.world_after_first_run 0%nat in
  Forall (fun e => TraceSpec.is_rewrite_work e = false) r.1.1.2
  /\ r.1.2 = Analyzer.local_file PipelineSpec.world_after_first_run
  /\ r.2 = 0%nat
  /\ r.1.1.1 <> Analyzer.ExitFinished
  /\ r.1.1.1 <> Analyzer.ExitNothingRelevant.
Proof.
  apply (analyzer_stalls_on_scraper_sheets insertion_sorter Analyzer.reddit RunSpec.clock0
           RunSpec.to_numeric0 RunSpec.never_raises RunSpec.parse_datetime0
           RunSpec.never_raises Filters.passes_content_filters
           nat RewriteSpec.flaky RewriteSpec.prompt_en RewriteSpec.prompt_ru
           (fun _ => false) PipelineSpec.world_after_first_run 0%nat).
  - exact world_after_first_run_scraper_sheets.
  - exact world_after_first_run_knows_empty_url.
Defined.

(** ** The reddit scraper *)

Lemma process_posts_app a b rows seen :
  Reddit.process_posts (a ++ b) rows seen
  = Reddit.process_posts b (Reddit.process_posts a rows seen).1
                           (Reddit.process_posts a rows seen).2.
Proof.
  revert rows seen. induction a as [|p a IH]; intros rows seen; [reflexivity|].
  cbn [app Reddit.process_posts]. case_bool_decide; apply IH.
Qed.

Lemma process_posts_spec posts rows seen :
  exists ps,
    Reddit.process_posts posts rows seen
    = (rows ++ (Reddit.row_list <$> ps), list_to_set (Reddit.id <$> ps) ∪ seen)
    /\ ps `sublist_of` posts
    /\ NoDup (Reddit.id <$> ps)
    /\ (forall p, p ∈ ps -> Reddit.id p ∉ seen)
    /\ (forall p, p ∈ posts -> Reddit.id p ∈ seen \/ Reddit.id p ∈ Reddit.id <$> ps).
Proof.
  revert rows seen. induction posts as [|p posts IH]; intros rows seen.
  - exists []. cbn [Reddit.process_posts fmap list_fmap list_to_set foldr].
    rewrite app_nil_r. split; [|split; [|split; [|split]]].
    + f_equal. by rewrite (left_id_L ∅ (∪)).
    + constructor.
    + constructor.
    + intros p Hp. by apply elem_of_nil in Hp.
    + intros p Hp. by apply elem_of_nil in Hp.
  - cbn [Reddit.process_posts]. case_bool_decide as Hin.
    + destruct (IH rows seen) as (ps & Heq & Hsub & Hnd & Hnew & Hall).
      exists ps. split; [|split; [|split; [|split]]]; try assumption.
      * by apply sublist_cons.
      * intros q Hq. apply elem_of_cons in Hq as [->|Hq]; [by left|by apply Hall].
    + destruct (IH (rows ++ [Reddit.row_list p]) ({[Reddit.id p]} ∪ seen))
        as (ps & Heq & Hsub & Hnd & Hnew & Hall).
      exists (p :: ps). split; [|split; [|split; [|split]]].
      * rewrite Heq. cbn [fmap list_fmap]. rewrite <- app_assoc. f_equal.
        cbn [list_to_set foldr].
        rewrite (assoc_L (∪)), (comm_L (∪) (list_to_set _) {[Reddit.id p]}).
        reflexivity.
      * by apply sublist_skip.
      * cbn [fmap list_fmap]. apply NoDup_cons. split; [|assumption].
        intros Hp. apply list_elem_of_fmap in Hp as (q & Hq & Hqin).
        apply (Hnew q Hqin). rewrite <- Hq. apply elem_of_union. left.
        by apply elem_of_singleton.
      * intros q Hq. apply elem_of_cons in Hq as [->|Hq]; [assumption|].
        specialize (Hnew q Hq). intros Hs. apply Hnew. apply elem_of_union. by right.
      * intros q Hq. apply elem_of_cons in Hq as [->|Hq].
        -- right. cbn [fmap list_fmap]. left.
        -- destruct (Hall q Hq) as [H|H].
           ++ apply elem_of_union in H as [H|H]; [|by left].
              apply elem_of_singleton in H. right. cbn [fmap list_fmap].
              rewrite H. left.
           ++ right. cbn [fmap list_fmap]. by right.
Qed.

Lemma all_yielded_cons name listing listings :
  Reddit.all_yielded ((name, listing) :: listings)
  = Reddit.yielded listing ++ Reddit.all_yielded listings.
Proof. reflexivity. Qed.

Lemma process_subreddit_eq rows seen trace name listing :
  Reddit.process_subreddit (rows, seen, trace) (name, listing)
  = ((Reddit.process_posts (Reddit.yielded listing) rows seen).1,
     (Reddit.process_posts (Reddit.yielded listing) rows seen).2,
     trace
       ++ match Reddit.failure listing with
          | None => []
          | Some (Reddit.PRAWException e) => [Reddit.ENotify (Reddit.NSubredditError name e)]
          | Some (Reddit.Unexpected e) =>
              [Reddit.ENotify (Reddit.NSubredditUnexpected name e)]
          end
       ++ [Reddit.ESleep 2]).
Proof.
  unfold Reddit.process_subreddit.
  destruct (Reddit.process_posts (Reddit.yielded listing) rows seen). reflexivity.
Qed.

Lemma subreddit_loop_spec listings rows seen trace :
  let st := foldl Reddit.process_subreddit (rows, seen, trace) listings in
  (st.1.1, st.1.2) = Reddit.process_posts (Reddit.all_yielded listings) rows seen
  /\ exists tr, st.2 = trace ++ tr /\ Reddit.appends tr = [].
Proof.
  cbv zeta. revert rows seen trace.
  induction listings as [|[name listing] listings IH]; intros rows seen trace.
  - cbn [foldl Reddit.all_yielded fmap list_fmap mjoin list_join Reddit.process_posts fst snd].
    split; [reflexivity|]. exists []. by rewrite app_nil_r.
  - cbn [foldl]. rewrite process_subreddit_eq, all_yielded_cons, process_posts_app.
    destruct (Reddit.process_posts (Reddit.yielded listing) rows seen) as [rows1 seen1].
    cbn [fst snd].
    match goal with |- context [foldl _ (rows1, seen1, ?t)] =>
      destruct (IH rows1 seen1 t) as (H1 & tr & H2 & H3) end.
    split; [exact H1|]. rewrite H2. eexists. rewrite <- !app_assoc. split; [reflexivity|].
    unfold Reddit.appends in *. rewrite !omap_app, H3.
    destruct (Reddit.failure listing) as [[e|e]|]; reflexivity.
Qed.

Lemma scrape_reddit_eq existing listings append_result :
  exists tr,
    Reddit.appends tr = []
    /\ Reddit.scrape_reddit existing listings append_result
       = tr ++ match (Reddit.process_posts (Reddit.all_yielded listings) []
                        (Reddit.existing_post_ids existing)).1 with
               | [] => [Reddit.ENotify Reddit.NNoNewPosts]
               | _ :: _ =>
                   Reddit.EAppendRows
                     (Reddit.process_posts (Reddit.all_yielded listings) []
                        (Reddit.existing_post_ids existing)).1
                     :: match append_result with
                        | Ok _ =>
                            [Reddit.ENotify
                               (Reddit.NSuccess
                                  (length (Reddit.process_posts
                                             (Reddit.all_yielded listings) []
                                             (Reddit.existing_post_ids existing)).1))]
                        | Raise e => [Reddit.ENotify (Reddit.NAppendError e)]
                        end
               end.
Proof.
  unfold Reddit.scrape_reddit.
  pose proof (subreddit_loop_spec listings [] (Reddit.existing_post_ids existing) []) as Hl.
  cbv zeta in Hl.
  destruct (foldl Reddit.process_subreddit _ listings) as [[rows seen] trace].
  cbn [fst snd] in Hl. destruct Hl as (Hp & tr & -> & Htr).
  rewrite <- Hp. cbn [fst app]. exists tr. split; [assumption|].
  destruct rows; reflexivity.
Qed.

(** [scrape_reddit] gives one row to each post that is new: the rows it
    appends are those of the yielded posts, in order, whose id is not in
    the sheet and was not handled earlier in the run, also over a listing
    that fails half way.  It appends at most once and never an empty
    batch. *)
Theorem scrape_reddit_appends_each_new_post_once
    (existing : result (list (list string))) (listings : list (string * Reddit.Listing))
    (append_result : result unit) :
  exists ps,
    ps `sublist_of` Reddit.all_yielded listings
    /\ NoDup (Reddit.id <$> ps)
    /\ (forall p, p ∈ ps -> Reddit.id p ∉ Reddit.existing_post_ids existing)
    /\ (forall p, p ∈ Reddit.all_yielded listings ->
                  Reddit.id p ∈ Reddit.existing_post_ids existing
                  \/ Reddit.id p ∈ Reddit.id <$> ps)
    /\ Reddit.appends (Reddit.scrape_reddit existing listings append_result)
       = match ps with [] => [] | _ => [Reddit.row_list <$> ps] end.
Proof.
  destruct (scrape_reddit_eq existing listings append_result) as (tr & Htr & ->).
  destruct (process_posts_spec (Reddit.all_yielded listings) []
              (Reddit.existing_post_ids existing)) as (ps & Heq & Hsub & Hnd & Hnew & Hall).
  rewrite Heq. cbn [fst app].
  exists ps. split; [|split; [|split; [|split]]]; try assumption.
  unfold Reddit.appends in *. rewrite omap_app, Htr. cbn [app].
  destruct ps as [|p ps]; [reflexivity|]. cbn [fmap list_fmap].
  destruct append_result; reflexivity.
Qed.

Lemma process_posts_known posts rows seen :
  (forall p, p ∈ posts -> Reddit.id p ∈ seen) ->
  Reddit.process_posts posts rows seen = (rows, seen).
Proof.
  induction posts as [|p posts IH]; intros Hall; [reflexivity|].
  cbn [Reddit.process_posts]. rewrite bool_decide_eq_true_2 by (apply Hall; left).
  apply IH. intros q Hq. apply Hall. by right.
Qed.

Lemma existing_post_ids_intro body vs i :
  vs ∈ body ->
  (list_to_map (zip Sheets.OUTPUT_COLUMNS (Frame.Str <$> vs)) : gmap string Frame.cell)
    !! "Post ID" = Some (Frame.Str i) ->
  i ∈ Reddit.existing_post_ids (Ok (Sheets.OUTPUT_COLUMNS :: body)).
Proof.
  intros Hvs Hi. unfold Reddit.existing_post_ids.
  destruct body as [|b body]; [by apply elem_of_nil in Hvs|].
  change (2 <=? length (Sheets.OUTPUT_COLUMNS :: b :: body))%nat with true. cbv zeta iota.
  assert (Frame.has_column (Frame.of_values (Sheets.OUTPUT_COLUMNS :: b :: body)) "Post ID"
          = true) as -> by reflexivity.
  apply elem_of_list_to_set, list_elem_of_omap.
  eexists. rewrite rows_of_values. split.
  - apply list_elem_of_fmap. exists vs. split; [reflexivity|assumption].
  - cbn beta. unfold Frame.get. rewrite Hi. reflexivity.
Qed.

Lemma existing_post_ids_elim body i :
  i ∈ Reddit.existing_post_ids (Ok (Sheets.OUTPUT_COLUMNS :: body)) ->
  exists vs,
    vs ∈ body
    /\ (list_to_map (zip Sheets.OUTPUT_COLUMNS (Frame.Str <$> vs)) : gmap string Frame.cell)
         !! "Post ID" = Some (Frame.Str i).
Proof.
  unfold Reddit.existing_post_ids.
  destruct (2 <=? _)%nat; [|intros H; by apply not_elem_of_empty in H].
  cbv zeta. destruct (Frame.has_column _ _); [|intros H; by apply not_elem_of_empty in H].
  rewrite elem_of_list_to_set, list_elem_of_omap, rows_of_values.
  intros (r & Hr & Hi). apply list_elem_of_fmap in Hr as (vs & -> & Hvs).
  exists vs. split; [assumption|].
  unfold Frame.get in Hi.
  destruct (_ !! "Post ID") as [c|] eqn:Hc; [|discriminate].
  pose proof Hc as Hc'. apply elem_of_list_to_map_2, elem_of_zip_r in Hc'.
  apply list_elem_of_fmap in Hc' as (s & -> & _). cbn in Hi. by injection Hi as ->.
Qed.

Lemma row_list_post_id (p : Reddit.Post) :
  (list_to_map (zip Sheets.OUTPUT_COLUMNS (Frame.Str <$> Reddit.row_list p))
   : gmap string Frame.cell) !! "Post ID" = Some (Frame.Str (Reddit.id p)).
Proof.
  unfold Reddit.row_list. rewrite <- list_fmap_compose.
  rewrite lookup_zip_fmap by (apply (bool_decide_unpack _); vm_compute; exact I).
  reflexivity.
Qed.

(** A second run of the reddit scraper appends nothing: the ids of the rows
    that the first run appended are read back from the sheet, which has
    the scraper's header and stores the appended texts as they are, and
    every post that is listed again is skipped. *)
Theorem scrape_reddit_twice_appends_once
    (body : list (list string)) (listings listings' : list (string * Reddit.Listing))
    (append_result : result unit) :
  (forall p, p ∈ Reddit.all_yielded listings' ->
             exists q, q ∈ Reddit.all_yielded listings /\ Reddit.id q = Reddit.id p) ->
  let data := Sheets.OUTPUT_COLUMNS :: body in
  let first := Reddit.appends (Reddit.scrape_reddit (Ok data) listings (Ok tt)) in
  let second :=
    Reddit.scrape_reddit (Ok (Reddit.after_append data first)) listings' append_result in
  Reddit.appends second = []
  /\ last (Reddit.notifications second) = Some Reddit.NNoNewPosts.
Proof.
  intros Hsame data first second.
  assert (exists ps, first = match ps with [] => [] | _ => [Reddit.row_list <$> ps] end
                     /\ forall p, p ∈ Reddit.all_yielded listings ->
                                  Reddit.id p ∈ Reddit.existing_post_ids (Ok data)
                                  \/ Reddit.id p ∈ Reddit.id <$> ps)
    as (ps & Hfirst & Hall).
  { subst first.
    destruct (scrape_reddit_eq (Ok data) listings (Ok tt)) as (tr & Htr & ->).
    destruct (process_posts_spec (Reddit.all_yielded listings) []
                (Reddit.existing_post_ids (Ok data)))
      as (ps & Heq & _ & _ & _ & Hall).
    exists ps. split; [|exact Hall]. rewrite Heq. cbn [fst app].
    unfold Reddit.appends in *. rewrite omap_app, Htr. cbn [app].
    destruct ps; reflexivity. }
  assert (forall p, p ∈ Reddit.all_yielded listings' ->
                    Reddit.id p
                    ∈ Reddit.existing_post_ids (Ok (Reddit.after_append data first)))
    as Hknown.
  { intros p Hp. destruct (Hsame p Hp) as (q & Hq & <-).
    unfold Reddit.after_append. subst data. rewrite <- app_comm_cons.
    destruct (Hall q Hq) as [Hold|Hnew].
    - apply existing_post_ids_elim in Hold as (vs & Hvs & Hi).
      apply (existing_post_ids_intro _ vs); [|assumption]. apply elem_of_app. by left.
    - apply list_elem_of_fmap in Hnew as (q' & Hid & Hq').
      apply (existing_post_ids_intro _ (Reddit.row_list q')).
      + apply elem_of_app. right. rewrite Hfirst.
        destruct ps as [|p0 ps]; [by apply elem_of_nil in Hq'|].
        cbn [mjoin list_join]. rewrite app_nil_r.
        apply list_elem_of_fmap. exists q'. split; [reflexivity|assumption].
      + rewrite Hid. apply row_list_post_id. }
  subst second.
  destruct (scrape_reddit_eq (Ok (Reddit.after_append data first)) listings' append_result)
    as (tr & Htr & ->).
  rewrite (process_posts_known _ _ _ Hknown). cbn [fst].
  unfold Reddit.appends, Reddit.notifications in *. rewrite !omap_app, Htr.
  split; [reflexivity|]. cbn [omap list_omap]. apply last_snoc.
Qed.

Lemma scrape_reddit_twice_appends_once_example :
  let data := [ Sheets.OUTPUT_COLUMNS ] in
  let first :=
    Reddit.appends (Reddit.scrape_reddit (Ok data) RedditSpec.listings (Ok tt)) in
  let second :=
    Reddit.scrape_reddit (Ok (Reddit.after_append data first)) RedditSpec.listings (Ok tt) in
  Reddit.appends second = []
  /\ last (Reddit.notifications second) = Some Reddit.NNoNewPosts.
Proof.
  apply (scrape_reddit_twice_appends_once [] RedditSpec.listings RedditSpec.listings (Ok tt)).
  intros p Hp. exists p. split; [exact Hp|reflexivity].
Defined.

(** ** The scrape cycle: rows and tweet ids *)

Lemma process_tweets_count username tweets m rows seen :
  let r := Scraper.process_tweets username tweets m rows seen in
  exists new,
    r.1.2 = rows ++ new
    /\ seen ⊆ r.2
    /\ size r.2
       = (size seen + length new + match r.1.1 with Ok _ => 0 | Raise _ => 1 end)%nat.
Proof.
  cbv zeta. revert m rows seen. induction tweets as [|t rest IH]; intros m rows seen.
  - cbn [Scraper.process_tweets fst snd]. exists []. rewrite app_nil_r.
    split; [reflexivity|]. split; [reflexivity|]. cbn [length]. lia.
  - cbn [Scraper.process_tweets]. case_bool_decide as Hin; [apply IH|].
    assert (size ({[Scraper.id t]} ∪ seen) = S (size seen)) as Hsize.
    { rewrite size_union by (apply disjoint_singleton_l; exact Hin).
      rewrite size_singleton. reflexivity. }
    destruct (Scraper.row_fields t) as [fields|e].
    + match goal with |- context [Scraper.process_tweets _ _ ?m1 ?rows1 ?seen1] =>
        destruct (IH m1 rows1 seen1) as (new & H1 & H2 & H3) end.
      exists ((username :: fields) :: new). rewrite H1, H3, Hsize, <- app_assoc.
      split; [reflexivity|]. split; [|cbn [length]; lia].
      etrans; [|exact H2]. apply union_subseteq_r.
    + cbn [fst snd]. exists []. rewrite app_nil_r, Hsize.
      split; [reflexivity|]. split; [apply union_subseteq_r|]. cbn [length]. lia.
Qed.

Lemma process_user_count keys st entry :
  let st' := Scraper.process_user keys st entry in
  exists new errs,
    Scraper.all_rows_to_append st' = Scraper.all_rows_to_append st ++ new
    /\ Scraper.cycle_errors st' = Scraper.cycle_errors st ++ errs
    /\ (length errs <= 1)%nat
    /\ Scraper.processed_tweet_ids_this_run st ⊆ Scraper.processed_tweet_ids_this_run st'
    /\ (size (Scraper.processed_tweet_ids_this_run st) + length new
        <= size (Scraper.processed_tweet_ids_this_run st')
        <= size (Scraper.processed_tweet_ids_this_run st) + length new + length errs)%nat
    /\ (errs <> [] -> Scraper.last_seen_state st' = Scraper.last_seen_state st).
Proof.
  cbv zeta. destruct entry as [username fetch]. unfold Scraper.process_user.
  destruct fetch as [e| |e|tweets].
  - exists [], ["ERROR fetching user profile"]. cbn. rewrite app_nil_r.
    repeat split; try reflexivity; lia.
  - exists [], []. rewrite !app_nil_r. cbn. repeat split; try reflexivity; try lia.
  - exists [], ["ERROR fetching/processing tweets"]. cbn. rewrite app_nil_r.
    repeat split; try reflexivity; lia.
  - cbv zeta. destruct (filter _ tweets) as [|n0 new] eqn:Hnew.
    + exists [], []. rewrite !app_nil_r.
      destruct (_ && _); [destruct (_ <? _)|]; cbn;
        (repeat split; try reflexivity; try lia; try (intros H; by destruct H)).
    + match goal with |- context [Scraper.process_tweets ?u ?ts ?m ?rows ?seen] =>
        pose proof (process_tweets_count u ts m rows seen) as Hc;
        destruct (Scraper.process_tweets u ts m rows seen) as [[r rows'] seen']
      end.
      cbv zeta in Hc. cbn [fst snd] in Hc. destruct Hc as (added & -> & Hsub & Hsize).
      destruct r as [max_new_id|e].
      * exists added, []. cbn. rewrite app_nil_r.
        repeat split; try reflexivity; try assumption; try lia;
          try (intros H; by destruct H).
      * exists added, ["ERROR fetching/processing tweets"]. cbn.
        repeat split; try reflexivity; try assumption; lia.
Qed.

(** A scrape cycle collects at most one row for a tweet id: the rows are
    never more than the ids handled in the run, and the ids handled
    without a row are never more than the errors recorded (a tweet whose
    reading raises is marked as handled and gets no row).  Each user adds
    at most one error, and an iteration that records an error leaves the
    saved state as it was, whatever rows it collected before the error. *)
Theorem scrape_cycle_one_row_per_tweet_id
    (users : list (string * Scraper.Fetch)) (state : gmap string Z)
    (initial_state_keys : gset string) :
  let c := Scraper.run_scrape_cycle users state initial_state_keys in
  (length (Scraper.all_rows_to_append c)
   <= size (Scraper.processed_tweet_ids_this_run c)
   <= length (Scraper.all_rows_to_append c) + length (Scraper.cycle_errors c))%nat
  /\ (length (Scraper.cycle_errors c) <= length users)%nat
  /\ (forall st entry,
        let st' := Scraper.process_user initial_state_keys st entry in
        Scraper.cycle_errors st' <> Scraper.cycle_errors st ->
        Scraper.last_seen_state st' = Scraper.last_seen_state st
        /\ exists new,
             Scraper.all_rows_to_append st' = Scraper.all_rows_to_append st ++ new).
Proof.
  cbv zeta. split; [|split].
  - unfold Scraper.run_scrape_cycle.
    assert (forall st,
               (length (Scraper.all_rows_to_append st)
                <= size (Scraper.processed_tweet_ids_this_run st)
                <= length (Scraper.all_rows_to_append st)
                   + length (Scraper.cycle_errors st))%nat ->
               let c := foldl (Scraper.process_user initial_state_keys) st users in
               (length (Scraper.all_rows_to_append c)
                <= size (Scraper.processed_tweet_ids_this_run c)
                <= length (Scraper.all_rows_to_append c)
                   + length (Scraper.cycle_errors c))%nat) as H.
    { induction users as [|entry users IH]; intros st Hst; [exact Hst|].
      cbn [foldl]. apply IH.
      destruct (process_user_count initial_state_keys st entry)
        as (new & errs & -> & -> & _ & _ & Hsize & _).
      rewrite !length_app. lia. }
    apply H. cbn. rewrite size_empty. lia.
  - unfold Scraper.run_scrape_cycle.
    assert (forall st,
               (length (Scraper.cycle_errors
                          (foldl (Scraper.process_user initial_state_keys) st users))
                <= length (Scraper.cycle_errors st) + length users)%nat) as H.
    { induction users as [|entry users IH]; intros st; [cbn; lia|].
      cbn [foldl length]. etrans; [apply IH|].
      destruct (process_user_count initial_state_keys st entry)
        as (new & errs & _ & -> & Hlen & _).
      rewrite length_app. lia. }
    etrans; [apply H|]. cbn. lia.
  - intros st entry Hne.
    destruct (process_user_count initial_state_keys st entry)
      as (new & errs & Hrows & Herrs & _ & _ & _ & Hstate).
    split; [|by exists new]. apply Hstate. intros ->.
    rewrite app_nil_r in Herrs. congruence.
Qed.

(** ** The lists of names in the configuration *)

Lemma split_on_nonempty sep s : Names.split_on sep s <> [].
Proof.
  destruct s as [|c s]; [discriminate|]. cbn [Names.split_on].
  destruct (Ascii.eqb c sep); [discriminate|]. destruct (Names.split_on sep s); discriminate.
Qed.

Lemma split_on_pieces (p : ascii -> bool) s :
  Forall (fun piece => Text.all_chars p piece = true) (Names.split_on "," s)
  <-> Text.all_chars (fun c => p c || Names.is_comma c) s = true.
Proof.
  induction s as [|c s IH]; cbn [Names.split_on Text.all_chars].
  - split; [reflexivity|]. intros _. by repeat constructor.
  - unfold Names.is_comma at 1. destruct (Ascii.eqb c ",") eqn:Hc.
    + rewrite orb_true_r, andb_true_l, <- IH, Forall_cons. cbn [Text.all_chars]. tauto.
    + rewrite orb_false_r. pose proof (split_on_nonempty "," s) as Hne.
      destruct (Names.split_on "," s) as [|w ws]; [congruence|].
      rewrite andb_true_iff, <- IH, !Forall_cons. cbn [Text.all_chars].
      rewrite andb_true_iff. tauto.
Qed.

Lemma all_chars_lstrip p s :
  Text.all_chars p s = true -> Text.all_chars p (Text.lstrip s) = true.
Proof.
  induction s as [|c s IH]; [reflexivity|]. cbn [Text.lstrip Text.all_chars].
  intros H. destruct (Text.is_space c); [|exact H].
  apply andb_true_iff in H as [_ H]. by apply IH.
Qed.

Lemma all_chars_rstrip p s :
  Text.all_chars p s = true -> Text.all_chars p (Text.rstrip s) = true.
Proof.
  induction s as [|c s IH]; [reflexivity|]. cbn [Text.rstrip Text.all_chars].
  intros H. apply andb_true_iff in H as [Hc H]. specialize (IH H).
  destruct (Text.rstrip s) as [|d r].
  - destruct (Text.is_space c); [reflexivity|]. cbn [Text.all_chars]. by rewrite Hc.
  - cbn [Text.all_chars] in *. by rewrite Hc, IH.
Qed.

Lemma rstrip_idempotent s : Text.rstrip (Text.rstrip s) = Text.rstrip s.
Proof.
  induction s as [|c s IH]; [reflexivity|]. cbn [Text.rstrip].
  destruct (Text.rstrip s) as [|d r] eqn:Hr.
  - destruct (Text.is_space c) eqn:Hc; [reflexivity|]. cbn [Text.rstrip]. by rewrite Hc.
  - cbn [Text.rstrip] in *. rewrite IH. reflexivity.
Qed.

Lemma rstrip_head c s :
  Text.is_space c = false ->
  exists t, Text.rstrip (String c s) = String c t.
Proof.
  intros Hc. cbn [Text.rstrip]. destruct (Text.rstrip s); [rewrite Hc|]; eauto.
Qed.

Lemma strip_idempotent s : Text.strip (Text.strip s) = Text.strip s.
Proof.
  unfold Text.strip. destruct (Text.lstrip s) as [|c t] eqn:Hl; [reflexivity|].
  pose proof (lstrip_head _ _ _ Hl) as Hc.
  destruct (rstrip_head c t Hc) as (t' & Ht). rewrite Ht.
  cbn [Text.lstrip]. rewrite Hc, <- Ht. apply rstrip_idempotent.
Qed.

(** The names read from a comma-separated setting are never empty, carry
    no comma and no whitespace at either end; a setting that holds only
    commas and whitespace gives no name at all. *)
Theorem parse_names_clean (names_str : string) :
  Forall (fun name => name <> ""
                      /\ Text.strip name = name
                      /\ Text.all_chars (fun c => negb (Names.is_comma c)) name = true)
         (Names.parse_names names_str)
  /\ (Names.parse_names names_str = []
      <-> Text.all_chars (fun c => Text.is_space c || Names.is_comma c) names_str = true).
Proof.
  unfold Names.parse_names. split.
  - apply Forall_fmap, Forall_forall. intros piece Hp.
    apply list_elem_of_filter in Hp as [Ht Hp]. cbn beta. split; [|split].
    + intros Hs. rewrite Hs in Ht. exact Ht.
    + apply strip_idempotent.
    + unfold Text.strip. apply all_chars_rstrip, all_chars_lstrip.
      assert (Forall (fun piece => Text.all_chars (fun c => negb (Names.is_comma c)) piece
                                   = true) (Names.split_on "," names_str)) as Hall.
      { apply split_on_pieces. clear. induction names_str as [|c s IH]; [reflexivity|].
        cbn [Text.all_chars]. rewrite IH. by destruct (Names.is_comma c). }
      rewrite Forall_forall in Hall. by apply Hall.
  - rewrite <- split_on_pieces.
    match goal with |- ?f <$> ?l = [] <-> _ =>
      assert (f <$> l = [] <-> l = []) as ->
        by (split; [apply fmap_nil_inv|intros ->; reflexivity]) end.
    rewrite filter_nil_iff. apply Forall_iff. intros piece. rewrite <- strip_empty_iff.
    destruct (Text.strip piece); cbn; split; try tauto; try discriminate.
Qed.

(** ** Grouping *)

Lemma fst_fmap_pair {A B} (f : A -> B) (l : list A) :
  ((fun k => (k, f k)) <$> l).*1 = l.
Proof. induction l as [|x l IH]; [reflexivity|]. cbn. by rewrite IH. Qed.

Lemma groupby_keys (rs : list (gmap string Frame.cell)) :
  (Analyzer.groupby rs).*1
  ≡ₚ remove_dups (omap Analyzer.group_key rs).
Proof.
  unfold Analyzer.groupby. cbv zeta.
  rewrite fst_fmap_pair, merge_sort_Permutation.
  assert ((omap (fun r : gmap string Frame.cell =>
                   (fun k => (k, r)) <$> Analyzer.group_key r) rs).*1
          = omap Analyzer.group_key rs) as ->; [|reflexivity].
  induction rs as [|r rs IH]; [reflexivity|]. cbn [omap list_omap].
  destruct (Analyzer.group_key r); cbn; by rewrite IH.
Qed.

Lemma elem_of_group (rs : list (gmap string Frame.cell)) k g (r : gmap string Frame.cell) :
  (k, g) ∈ Analyzer.groupby rs ->
  (r ∈ g <-> r ∈ rs /\ Analyzer.group_key r = Some k).
Proof.
  unfold Analyzer.groupby. cbv zeta. intros Hk.
  apply list_elem_of_fmap in Hk as (k' & [= -> ->] & _).
  rewrite list_elem_of_fmap. split.
  - intros ([k1 r1] & -> & Hr). apply list_elem_of_filter in Hr as [Hk1 Hr].
    cbn in Hk1. subst k1. apply list_elem_of_omap in Hr as (r0 & Hr0 & Hk0).
    destruct (Analyzer.group_key r0) eqn:Hg; [|discriminate]. cbn in Hk0.
    injection Hk0 as -> ->. cbn. split; assumption.
  - intros [Hr Hg]. exists (k', r). split; [reflexivity|].
    apply list_elem_of_filter. split; [reflexivity|].
    apply list_elem_of_omap. exists r. split; [assumption|]. by rewrite Hg.
Qed.

(** [groupby] partitions the rows that have a key: the keys of the groups
    are pairwise different, every row with both key cells is in the group
    of its key and in no other, no group is empty, and a row without a key
    cell is in no group. *)
Theorem groupby_partitions (rs : list (gmap string Frame.cell)) :
  NoDup (Analyzer.groupby rs).*1
  /\ (forall k g, (k, g) ∈ Analyzer.groupby rs ->
        g <> [] /\ forall r, r ∈ g <-> r ∈ rs /\ Analyzer.group_key r = Some k)
  /\ (forall r k, r ∈ rs -> Analyzer.group_key r = Some k ->
        exists g, (k, g) ∈ Analyzer.groupby rs /\ r ∈ g).
Proof.
  split; [|split].
  - rewrite groupby_keys. apply NoDup_remove_dups.
  - intros k g Hg. split; [|intros r; by apply elem_of_group].
    assert (k ∈ (Analyzer.groupby rs).*1) as Hk.
    { apply list_elem_of_fmap. exists (k, g). split; [reflexivity|assumption]. }
    rewrite groupby_keys, elem_of_remove_dups, list_elem_of_omap in Hk.
    destruct Hk as (r & Hr & Hkey).
    intros ->. assert (r ∈ ([] : list (gmap string Frame.cell))) as Hin
      by (apply (elem_of_group rs k [] r Hg); split; assumption).
    by apply elem_of_nil in Hin.
  - intros r k Hr Hkey.
    assert (k ∈ (Analyzer.groupby rs).*1) as Hk.
    { rewrite groupby_keys, elem_of_remove_dups, list_elem_of_omap.
      exists r. split; assumption. }
    apply list_elem_of_fmap in Hk as ([k' g] & -> & Hg). cbn [fst].
    exists g. split; [assumption|]. apply (elem_of_group rs k' g r Hg). split; assumption.
Qed.

(** ** How a run reports its outcome *)

Section OutcomeFacts.
Variable sort_values : Frame.Sorter.
Variable PLATFORM : Analyzer.Platform.
Variable clock : nat -> string.
Variable to_numeric : Frame.cell -> option Z.
Variable astype_int_raises : list Frame.cell -> bool.
Variable parse_datetime : Frame.cell -> option Z.
Variable sort_raises : list (gmap string Frame.cell) -> bool.
Variable passes_content_filters : gmap string Frame.cell -> bool.
Variable Service : Type.
Variable generate_content : Service -> string -> result string * Service.
Variable prompt_en prompt_ru : string -> string.
Variable writerow_fails : list Frame.cell -> bool.

Lemma with_backoff_no_notice n text s :
  Forall (fun e => match e with Analyzer.ENotify _ => False | _ => True end)
    (Analyzer.with_backoff Service generate_content prompt_en prompt_ru n text s).2.
Proof.
  assert (forall s,
             Forall (fun e => match e with Analyzer.ENotify _ => False | _ => True end)
               (Analyzer.rewrite_once Service generate_content prompt_en prompt_ru text s).2)
    as Honce.
  { intros s0. unfold Analyzer.rewrite_once.
    destruct (generate_content s0 (prompt_en text)) as [[t_en|e] s1].
    - destruct (generate_content s1 (prompt_ru text)) as [[t_ru|e] s2];
        cbn [snd]; repeat constructor.
    - cbn [snd]. repeat constructor. }
  revert s. induction n as [|n IH]; intros s; cbn [Analyzer.with_backoff];
    specialize (Honce s);
    destruct (Analyzer.rewrite_once Service generate_content prompt_en prompt_ru text s)
      as [[r s1] ev]; cbn [snd] in Honce.
  - destruct r; exact Honce.
  - destruct r as [v|e]; [exact Honce|]. destruct n as [|n']; [exact Honce|].
    specialize (IH s1).
    destruct (Analyzer.with_backoff Service generate_content prompt_en prompt_ru
                (S n') text s1) as [[r2 s2] ev2].
    cbn [snd] in *. apply Forall_app. split; [assumption|].
    constructor; [exact I|assumption].
Qed.

Lemma rewrite_loop_no_notice total units st :
  Forall (fun e => match e with Analyzer.ENotify _ => False | _ => True end)
    (Analyzer.rewrite_loop Service generate_content prompt_en prompt_ru writerow_fails
       total units st).2.
Proof.
  revert st. induction units as [|row rest IH]; intros st; [constructor|].
  cbn [Analyzer.rewrite_loop].
  assert (Forall (fun e => match e with Analyzer.ENotify _ => False | _ => True end)
            (Analyzer.rewrite_unit Service generate_content prompt_en prompt_ru row
               (Analyzer.service st)).2) as Hu.
  { unfold Analyzer.rewrite_unit. destruct (Analyzer.is_blank _); [constructor|].
    unfold Analyzer.rewrite_text_gemini.
    match goal with |- context [Analyzer.with_backoff _ _ _ _ ?n ?t ?s] =>
      pose proof (with_backoff_no_notice n t s) as Hev;
      destruct (Analyzer.with_backoff _ _ _ _ n t s) as [[r s'] ev]
    end.
    destruct r as [[en ru]|e]; exact Hev. }
  destruct (Analyzer.rewrite_unit _ _ _ _ row (Analyzer.service st)) as [[[rr ok] s'] ev].
  cbn [snd] in Hu.
  match goal with |- context [Analyzer.rewrite_loop _ _ _ _ _ _ rest ?st'] =>
    specialize (IH st'); destruct (Analyzer.rewrite_loop _ _ _ _ _ _ rest st') as [st'' ev'']
  end.
  cbn [snd] in *. repeat (apply Forall_app; split); try assumption.
  - destruct (negb _); repeat constructor.
  - destruct (_ <? _)%nat; repeat constructor.
Qed.

Lemma count_outcome_no_notice tr :
  Forall (fun e => match e with Analyzer.ENotify _ => False | _ => True end) tr ->
  TraceSpec.count TraceSpec.is_outcome tr = 0%nat.
Proof.
  intros H. apply count_none. eapply Forall_impl; [exact H|].
  intros e He. destruct e; try reflexivity. destruct He.
Qed.

(** [process_data] reports how it ended by exactly one notification, sent
    last, when it ends for lack of source data, on an exception of the
    pre-processing, for lack of new units of an allowed type, for lack of
    relevant units, or after the rewrite loop.  It ends without any such
    notification when required columns are missing, when the consolidation
    yields no unit, when the sort of the consolidated units raises, and
    when an exception leaves it. *)
Theorem process_data_reports_outcome_once (w : Analyzer.World) (s0 : Service) :
  let r := Analyzer.process_data sort_values PLATFORM clock to_numeric astype_int_raises
             parse_datetime sort_raises passes_content_filters Service
             generate_content prompt_en prompt_ru
             writerow_fails w s0 in
  let x := r.1.1.1 in
  let tr := r.1.1.2 in
  TraceSpec.count TraceSpec.is_outcome tr
  = match x with
    | Analyzer.ExitNoSourceData | Analyzer.ExitPreprocessError
    | Analyzer.ExitNoContentTypes
    | Analyzer.ExitNothingRelevant | Analyzer.ExitFinished => 1%nat
    | _ => 0%nat
    end
  /\ match x with
     | Analyzer.ExitNoSourceData =>
         last tr = Some (Analyzer.ENotify Analyzer.NNoSourceData)
     | Analyzer.ExitPreprocessError =>
         last tr = Some (Analyzer.ENotify Analyzer.NPreprocessError)
     | Analyzer.ExitNoContentTypes =>
         last tr = Some (Analyzer.ENotify Analyzer.NNoNewTweets)
     | Analyzer.ExitNothingRelevant =>
         last tr = Some (Analyzer.ENotify Analyzer.NNoRelevant)
     | Analyzer.ExitFinished =>
         exists processed_count,
           last tr = Some (Analyzer.ENotify (Analyzer.NSuccess processed_count))
     | _ => True
     end.
Proof.
  cbv zeta. unfold Analyzer.process_data.
  pose proof (count_none _ _ (read_sources_events TraceSpec.is_outcome
                                (Analyzer.source_sheets w) ltac:(reflexivity))) as Hev.
  assert (forall f, TraceSpec.count TraceSpec.is_outcome (Analyzer.final_sync w f) = 0%nat)
    as Hsync.
  { intros f. apply count_none, final_sync_events; [reflexivity|reflexivity|].
    intros n Hn. split; [|intros e]; intros ->; discriminate Hn. }
  destruct (Analyzer.read_sources (Analyzer.source_sheets w)) as [dfs ev1].
  cbn [fst snd] in Hev |- *.
  destruct dfs as [|df0 dfs].
  { cbn [fst snd]. rewrite count_app, Hev. split; [reflexivity|apply last_snoc]. }
  destruct (negb (forallb _ Analyzer.required_process_cols)).
  { cbn [fst snd]. split; [assumption|exact I]. }
  destruct (Analyzer.preprocess_raises astype_int_raises _).
  { cbn [fst snd]. rewrite count_app, Hev. split; [reflexivity|apply last_snoc]. }
  destruct (negb (forallb _ Analyzer.grouping_cols)).
  { cbn [fst snd]. split; [assumption|exact I]. }
  destruct (Analyzer.consolidate _ _ _ _) as [units|e].
  2:{ cbn [fst snd]. split; [assumption|exact I]. }
  destruct units as [|u0 units].
  { cbn [fst snd]. rewrite count_app, Hev, Hsync. split; [reflexivity|exact I]. }
  destruct (sort_raises _).
  { cbn [fst snd]. split; [assumption|exact I]. }
  destruct (Analyzer.df_typed_filtered _ _ w (u0 :: units)) as [|t0 typed].
  { cbn [fst snd]. rewrite !count_app, Hev, Hsync. split; [reflexivity|].
    rewrite !app_assoc. apply last_snoc. }
  destruct (Analyzer.df_final_filtered _ _ _ w (u0 :: units)) as [|f0 final].
  { cbn [fst snd]. rewrite !count_app, Hev, Hsync. split; [reflexivity|].
    rewrite !app_assoc. apply last_snoc. }
  unfold Analyzer.rewrite_and_sync.
  destruct (Analyzer.file_ready w (f0 :: final)) as [u|e].
  2:{ cbn [fst snd]. rewrite count_app, Hev. split; [reflexivity|exact I]. }
  match goal with |- context [Analyzer.rewrite_loop _ _ _ _ _ ?t ?us ?st] =>
    pose proof (count_outcome_no_notice _ (rewrite_loop_no_notice t us st)) as Hl;
    destruct (Analyzer.rewrite_loop _ _ _ _ _ t us st) as [st' ev]
  end.
  cbn [fst snd] in Hl |- *.
  rewrite !count_app, Hev, Hl, Hsync. split.
  - destruct (Analyzer.needs_header w (f0 :: final)); reflexivity.
  - eexists. rewrite !app_assoc. apply last_snoc.
Qed.

End OutcomeFacts.

(** ** The units handed to the rewrite loop *)

Lemma cell_le_antisym (a b : Frame.cell) : Frame.cell_le a b -> Frame.cell_le b a -> a = b.
Proof.
  destruct a as [|x|x], b as [|y|y]; cbn; intros H1 H2; try lia; try reflexivity.
  - f_equal. by apply (anti_symm String.le).
  - f_equal. lia.
Qed.

Lemma unit_le_total : Total Analyzer.unit_le.
Proof.
  intros a b. unfold Analyzer.unit_le.
  repeat case_decide; try congruence; apply cell_le_total.
Qed.

Lemma unit_le_trans : Transitive Analyzer.unit_le.
Proof.
  intros a b c. unfold Analyzer.unit_le.
  set (au := Frame.get a "Original Username"). set (bu := Frame.get b "Original Username").
  set (cu := Frame.get c "Original Username").
  set (ac := Frame.get a "Conversation ID"). set (bc := Frame.get b "Conversation ID").
  set (cc := Frame.get c "Conversation ID").
  destruct (decide (au = bu)) as [E1|N1], (decide (bu = cu)) as [E2|N2],
    (decide (au = cu)) as [E3|N3]; try congruence.
  all: try (destruct (decide (ac = bc)) as [F1|M1], (decide (bc = cc)) as [F2|M2],
      (decide (ac = cc)) as [F3|M3]; try congruence).
  all: intros H1 H2.
  all: try (eapply cell_le_trans; eassumption).
  all: try (rewrite F1; assumption).
  all: try (rewrite <- F2; assumption).
  all: try (rewrite E1; assumption).
  all: try (rewrite <- E2; assumption).
  all: exfalso.
  all: try (apply M1; apply cell_le_antisym; [assumption|rewrite F3; assumption]).
  all: try (apply N1; apply cell_le_antisym; [assumption|rewrite E3; assumption]).
Qed.

(** The units handed to the rewrite loop are sorted by author, conversation
    and parsed time, and they are exactly the consolidated units whose
    timestamp parses, whose URL is not in the processed set, whose content
    type is on the platform's list, and which pass the content filters. *)
Theorem rewrite_queue_sorted_and_new
    (PLATFORM : Analyzer.Platform) (parse_datetime : Frame.cell -> option Z)
    (passes_content_filters : gmap string Frame.cell -> bool)
    (w : Analyzer.World) (units : list (gmap string Frame.cell)) :
  let queue :=
    Analyzer.df_final_filtered PLATFORM parse_datetime passes_content_filters w units in
  StronglySorted Analyzer.unit_le queue
  /\ forall r,
       r ∈ queue
       <-> exists r0 t,
             r0 ∈ units
             /\ parse_datetime (Frame.get r0 "First Tweet Timestamp") = Some t
             /\ r = <["First Tweet Timestamp DT" := Frame.Int t]> r0
             /\ (forall u, Frame.get r "First Tweet URL" = Frame.Str u ->
                           u ∉ Analyzer.processed_urls w)
             /\ (exists ty, Frame.get r "Content Type" = Frame.Str ty
                            /\ ty ∈ Analyzer.content_types_to_rewrite PLATFORM)
             /\ passes_content_filters r = true.
Proof.
  cbv zeta. unfold Analyzer.df_final_filtered, Analyzer.df_typed_filtered.
  split.
  - eapply StronglySorted_sublist; [apply sublist_filter|].
    eapply StronglySorted_sublist; [apply sublist_filter|].
    eapply StronglySorted_sublist; [apply sublist_filter|].
    unfold Analyzer.parse_and_sort.
    exact (@StronglySorted_stable_sort _ _ _ unit_le_trans unit_le_total _).
  - intros r. rewrite !list_elem_of_filter.
    unfold Analyzer.parse_and_sort, Analyzer.parsed.
    rewrite stable_sort_Permutation, list_elem_of_omap.
    assert (negb (Analyzer.isin (Analyzer.processed_urls w) (Frame.get r "First Tweet URL"))
            <-> forall u, Frame.get r "First Tweet URL" = Frame.Str u ->
                          u ∉ Analyzer.processed_urls w) as Hurl.
    { destruct (Frame.get r "First Tweet URL") as [|u|n]; cbn [Analyzer.isin negb].
      - split; [discriminate|exact (fun _ => I)].
      - rewrite negb_True. rewrite bool_decide_spec. split.
        + intros H u' [= <-]. exact H.
        + intros H. by apply H.
      - split; [discriminate|exact (fun _ => I)]. }
    assert (Analyzer.content_type_allowed PLATFORM (Frame.get r "Content Type")
            <-> exists ty, Frame.get r "Content Type" = Frame.Str ty
                           /\ ty ∈ Analyzer.content_types_to_rewrite PLATFORM) as Hty.
    { unfold Analyzer.content_type_allowed.
      destruct (Frame.get r "Content Type") as [|ty|n].
      - split; [intros []|intros (ty & H & _); discriminate].
      - rewrite bool_decide_spec. split.
        + intros H. exists ty. split; [reflexivity|assumption].
        + intros (ty' & [= <-] & H). exact H.
      - split; [intros []|intros (ty & H & _); discriminate]. }
    rewrite Hurl, Hty, Is_true_true. split.
    + intros (Hp & Ht & Hu & r0 & Hr0 & Hr).
      destruct (parse_datetime (Frame.get r0 "First Tweet Timestamp")) as [t|] eqn:Hpt;
        [|discriminate].
      cbn in Hr. injection Hr as <-. exists r0, t. repeat split; assumption.
    + intros (r0 & t & Hr0 & Hpt & -> & Hu & Ht & Hp). repeat split; try assumption.
      exists r0. split; [assumption|]. rewrite Hpt. reflexivity.
Qed.

(** ** What the rewrite stage writes and the sync sends *)

Section RecordFacts.
Variable Service : Type.
Variable generate_content : Service -> string -> result string * Service.
Variable prompt_en prompt_ru : string -> string.

(** The rewrite of a unit changes nothing but the two rewrite fields, which
    it always sets to a text: every other field of the record written to
    the log is the unit's own (the empty string for a field the unit does
    not have), in target column order. *)
Theorem rewrite_unit_keeps_other_fields (row : gmap string Frame.cell) (s : Service) :
  let result_row :=
    (Analyzer.rewrite_unit Service generate_content prompt_en prompt_ru row s).1.1.1 in
  (forall col, col <> "Rewritten EN" -> col <> "Rewritten RU" ->
               result_row !! col = row !! col)
  /\ (exists en ru, result_row !! "Rewritten EN" = Some (Frame.Str en)
                    /\ result_row !! "Rewritten RU" = Some (Frame.Str ru))
  /\ length (Analyzer.final_row_for_csv result_row) = length Analyzer.TARGET_COLUMNS
  /\ (forall i col, Analyzer.TARGET_COLUMNS !! i = Some col ->
                    col <> "Rewritten EN" -> col <> "Rewritten RU" ->
                    Analyzer.final_row_for_csv result_row !! i
                    = Some (default (Frame.Str "") (row !! col))).
Proof.
  cbv zeta.
  assert (exists en ru,
             (Analyzer.rewrite_unit Service generate_content prompt_en prompt_ru row s).1.1.1
             = Analyzer.set_rewrites en ru row) as (en & ru & ->).
  { unfold Analyzer.rewrite_unit. destruct (Analyzer.is_blank _); [by eexists _, _|].
    destruct (Analyzer.rewrite_text_gemini _ _ _ _ _ _) as [[[[e r]|e] s'] ev];
      by eexists _, _. }
  assert (forall col, col <> "Rewritten EN" -> col <> "Rewritten RU" ->
                      Analyzer.set_rewrites en ru row !! col = row !! col) as Hother.
  { intros col H1 H2. unfold Analyzer.set_rewrites.
    rewrite !lookup_insert_ne by congruence. reflexivity. }
  split; [exact Hother|]. split; [|split].
  - exists en, ru. split; [apply set_rewrites_en|apply set_rewrites_ru].
  - unfold Analyzer.final_row_for_csv. apply length_fmap.
  - intros i col Hi H1 H2. rewrite (final_row_for_csv_lookup _ i col Hi).
    by rewrite Hother.
Qed.

End RecordFacts.

Lemma rows_to_append_cells (df : Frame.DataFrame) (r : gmap string Frame.cell) :
  Forall (fun c => c ∈ Frame.columns df) Analyzer.TARGET_COLUMNS ->
  Frame.well_formed df ->
  r ∈ Frame.rows (Analyzer.fillna_all df) ->
  Forall (fun c => c <> Frame.NaN) (Frame.values Analyzer.TARGET_COLUMNS (Frame.fillna <$> r)).
Proof.
  intros Hcols Hwf Hr. unfold Analyzer.fillna_all in Hr. cbn [Frame.rows] in Hr.
  apply list_elem_of_fmap in Hr as (r0 & -> & Hr0).
  unfold Frame.well_formed in Hwf. rewrite Forall_forall in Hwf. specialize (Hwf r0 Hr0).
  unfold Frame.values. apply Forall_fmap, Forall_forall. intros c Hc. cbn.
  rewrite Forall_forall in Hcols. specialize (Hcols c Hc). apply Hwf in Hcols.
  destruct Hcols as [x Hx]. unfold Frame.get. rewrite !lookup_fmap, Hx.
  destruct x; discriminate.
Qed.

(** The sync sends no missing value to the sheet: every row of the batch
    it appends has one cell for each target column, and every cell is a
    text or a number.  The log is one that [read_csv] parsed: each of its
    rows has a cell for each of its columns. *)
Theorem sync_appends_complete_rows
    (df : Frame.DataFrame) (target_read : result (list (list string)))
    (append_result : result unit) :
  SyncSpec.uploadable df ->
  Frame.well_formed df ->
  Forall (Forall (fun row : list Frame.cell =>
                    length row = length Analyzer.TARGET_COLUMNS
                    /\ Forall (fun c => c <> Frame.NaN) row))
         (Analyzer.appends
            (Analyzer.sync_local_to_gsheet (Analyzer.Log df) target_read append_result)).
Proof.
  intros Hup Hwf. rewrite sync_appends_eq by assumption.
  destruct (Analyzer.rows_to_upload _ _) as [|r0 rest] eqn:Hrows; constructor; [|constructor].
  unfold Analyzer.rows_to_append. apply Forall_fmap, Forall_forall. intros r Hr. cbn beta.
  split; [unfold Frame.values; apply length_fmap|].
  apply (rows_to_append_cells df); [apply Hup|assumption|].
  rewrite <- Hrows in Hr. unfold Analyzer.rows_to_upload in Hr.
  by apply list_elem_of_filter in Hr as [_ Hr].
Qed.

Lemma local_log_well_formed : Frame.well_formed SyncSpec.local_log.
Proof.
  assert (forall vals,
             length vals = length Analyzer.TARGET_COLUMNS ->
             forall c, c ∈ Analyzer.TARGET_COLUMNS
                       <-> is_Some (Analyzer.csv_row Analyzer.TARGET_COLUMNS vals !! c)) as H.
  { intros vals Hlen c. unfold Analyzer.csv_row. split.
    - intros Hc. apply list_elem_of_lookup in Hc as [i Hi].
      assert (is_Some (vals !! i)) as [v Hv].
      { apply lookup_lt_is_Some. rewrite Hlen. eapply lookup_lt_Some; eassumption. }
      apply not_eq_None_Some. intros Hn. apply not_elem_of_list_to_map in Hn.
      apply Hn. rewrite fst_zip by (rewrite length_fmap; lia).
      apply list_elem_of_lookup. by exists i.
    - intros [x Hx]. apply elem_of_list_to_map_2, elem_of_zip_l in Hx. exact Hx. }
  unfold Frame.well_formed, SyncSpec.local_log. cbn [Frame.rows Frame.columns].
  apply Forall_cons; split; [apply H; reflexivity|].
  apply Forall_cons; split; [apply H; reflexivity|]. constructor.
Qed.

Lemma sync_appends_complete_rows_local_log :
  Forall (Forall (fun row : list Frame.cell =>
                    length row = length Analyzer.TARGET_COLUMNS
                    /\ Forall (fun c => c <> Frame.NaN) row))
         (Analyzer.appends
            (Analyzer.sync_local_to_gsheet (Analyzer.Log SyncSpec.local_log)
               (Ok SyncSpec.remote_with_failed_record) (Ok tt))).
Proof.
  apply (sync_appends_complete_rows SyncSpec.local_log
           (Ok SyncSpec.remote_with_failed_record) (Ok tt)).
  - exact local_log_uploadable.
  - exact local_log_well_formed.
Defined.

(** ** From one scrape cycle to the next *)

Lemma process_tweets_bound username tweets m rows seen :
  match (Scraper.process_tweets username tweets m rows seen).1.1 with
  | Ok m' => m ≤ m' /\ Forall (fun t => Scraper.id t ≤ m') tweets
  | Raise _ => True
  end.
Proof.
  destruct (Scraper.process_tweets username tweets m rows seen) as [[[m'|e] rows'] seen']
    eqn:H; cbn [fst]; [|exact I].
  apply process_tweets_max in H as (H1 & _ & H3). split; assumption.
Qed.

(** After an iteration that recorded no error, every tweet fetched for the
    user is at or below the user's saved id, so the next cycle takes none
    of them as new; the rows already collected for them are not collected
    again. *)
Theorem fetched_tweets_not_new_again
    (initial_state_keys : gset string) (st : Scraper.Cycle)
    (username : string) (fetched_tweets : list Scraper.Tweet) :
  let st' :=
    Scraper.process_user initial_state_keys st (username, Scraper.Fetched fetched_tweets) in
  Scraper.cycle_errors st' = Scraper.cycle_errors st ->
  Forall (fun t => Scraper.id t
                   ≤ Scraper.last_seen (Scraper.last_seen_state st') username)
         fetched_tweets
  /\ filter (fun t => Scraper.last_seen (Scraper.last_seen_state st') username
                      < Scraper.id t) fetched_tweets = [].
Proof.
  cbv zeta. intros Herr.
  match goal with |- ?A /\ _ => assert A as Hall end.
  2:{ split; [assumption|]. apply filter_nil_iff.
      eapply Forall_impl; [exact Hall|]. cbn beta. intros t Ht. lia. }
  revert Herr. unfold Scraper.process_user. cbv zeta.
  set (last := Scraper.last_seen (Scraper.last_seen_state st) username).
  destruct (filter (fun t => last < Scraper.id t) fetched_tweets) as [|n0 new] eqn:Hnew.
  - assert (Forall (fun t => Scraper.id t ≤ last) fetched_tweets) as Hold.
    { apply filter_nil_iff in Hnew. eapply Forall_impl; [exact Hnew|]. cbn beta.
      intros t Ht. lia. }
    intros _. eapply Forall_impl; [exact Hold|]. cbn beta. intros t Ht.
    etrans; [exact Ht|].
    destruct (_ && _); [|reflexivity].
    destruct (Z.ltb_spec last (Scraper.latest_id fetched_tweets)); [|reflexivity].
    cbn [Scraper.last_seen_state]. unfold Scraper.last_seen.
    rewrite lookup_insert_eq. cbn [default id]. subst last. unfold Scraper.last_seen in *. lia.
  - match goal with |- context [Scraper.process_tweets ?u ?ts ?m ?rows ?seen] =>
      pose proof (process_tweets_bound u ts m rows seen) as Hb;
      destruct (Scraper.process_tweets u ts m rows seen) as [[r rows'] seen']
    end.
    cbn [fst] in Hb. destruct r as [m'|e].
    + destruct Hb as [Hm Hb]. intros _. cbn [Scraper.last_seen_state].
      assert (last < m') as Hlt.
      { assert (n0 ∈ filter (fun t => last < Scraper.id t) fetched_tweets) as Hin
          by (rewrite Hnew; left).
        apply list_elem_of_filter in Hin as [Hn0 _].
        rewrite Forall_forall in Hb. specialize (Hb n0).
        rewrite <- Hnew, elem_of_reverse, list_elem_of_filter in Hb.
        assert (n0 ∈ fetched_tweets) as Hn0in.
        { assert (n0 ∈ filter (fun t => last < Scraper.id t) fetched_tweets) as Hin
            by (rewrite Hnew; left).
          by apply list_elem_of_filter in Hin as [_ ?]. }
        specialize (Hb (conj Hn0 Hn0in)). lia. }
      destruct (Z.ltb_spec last m'); [|lia].
      unfold Scraper.last_seen at 1. rewrite lookup_insert_eq. cbn [default id].
      apply Forall_forall. intros t Ht.
      destruct (decide (last < Scraper.id t)) as [Hnew'|Hold'].
      * rewrite Forall_forall in Hb. apply Hb. rewrite <- Hnew, elem_of_reverse.
        apply list_elem_of_filter. split; assumption.
      * lia.
    + cbn [Scraper.cycle_errors]. intros Herr. exfalso.
      apply (f_equal length) in Herr. rewrite length_app in Herr. cbn in Herr. lia.
Qed.

Lemma fetched_tweets_not_new_again_alice :
  let st' :=
    Scraper.process_user (dom ScraperSpec.state_before)
      (CycleSpec.cycle_start ScraperSpec.state_before)
      ("alice", Scraper.Fetched CycleSpec.alice_timeline) in
  Forall (fun t => Scraper.id t ≤ Scraper.last_seen (Scraper.last_seen_state st') "alice")
         CycleSpec.alice_timeline
  /\ filter (fun t => Scraper.last_seen (Scraper.last_seen_state st') "alice"
                      < Scraper.id t) CycleSpec.alice_timeline = [].
Proof.
  apply (fetched_tweets_not_new_again (dom ScraperSpec.state_before)
           (CycleSpec.cycle_start ScraperSpec.state_before)
           "alice" CycleSpec.alice_timeline).
  reflexivity.
Defined.

(** ** No exception in the consolidation *)

Lemma numeric_fold_is_Some to_numeric cols df c :
  Forall (fun r : gmap string Frame.cell => is_Some (r !! c)) (Frame.rows df) ->
  Forall (fun r : gmap string Frame.cell => is_Some (r !! c))
    (Frame.rows
       (foldl (fun df col =>
                 if Frame.has_column df col
                 then Frame.map_column col
                        (fun c => Frame.Int (default 0 (to_numeric c))) df
                 else Frame.set_column col (Frame.Int 0) df)
              df cols)).
Proof.
  revert df. induction cols as [|col cols IH]; intros df Hdf; [exact Hdf|].
  cbn [foldl]. apply IH.
  destruct (Frame.has_column df col).
  - unfold Frame.map_column. cbn [Frame.rows]. apply Forall_fmap.
    eapply Forall_impl; [exact Hdf|]. intros r Hr. cbn.
    destruct (decide (c = col)) as [->|Hne].
    + rewrite lookup_insert_eq. eauto.
    + rewrite lookup_insert_ne by (intros Heq; apply Hne; symmetry; exact Heq). exact Hr.
  - unfold Frame.set_column. cbn [Frame.rows]. apply Forall_fmap.
    eapply Forall_impl; [exact Hdf|]. intros r Hr. cbn.
    destruct (decide (c = col)) as [->|Hne].
    + rewrite lookup_insert_eq. eauto.
    + rewrite lookup_insert_ne by (intros Heq; apply Hne; symmetry; exact Heq). exact Hr.
Qed.

Lemma numeric_fold_inserted to_numeric cols df c :
  c ∈ cols ->
  Forall (fun r : gmap string Frame.cell => is_Some (r !! c))
    (Frame.rows
       (foldl (fun df col =>
                 if Frame.has_column df col
                 then Frame.map_column col
                        (fun c => Frame.Int (default 0 (to_numeric c))) df
                 else Frame.set_column col (Frame.Int 0) df)
              df cols)).
Proof.
  revert df. induction cols as [|col cols IH]; intros df Hc; [by apply elem_of_nil in Hc|].
  cbn [foldl]. destruct (decide (c = col)) as [->|Hne].
  - apply numeric_fold_is_Some.
    destruct (Frame.has_column df col).
    + unfold Frame.map_column. cbn [Frame.rows]. apply Forall_fmap, Forall_forall.
      intros r _. cbn. rewrite lookup_insert_eq. eauto.
    + unfold Frame.set_column. cbn [Frame.rows]. apply Forall_fmap, Forall_forall.
      intros r _. cbn. rewrite lookup_insert_eq. eauto.
  - apply IH. apply elem_of_cons in Hc as [?|?]; [contradiction|assumption].
Qed.

Lemma map_column_is_Some col f df c :
  Forall (fun r : gmap string Frame.cell => is_Some (r !! c)) (Frame.rows df) ->
  Forall (fun r : gmap string Frame.cell => is_Some (r !! c))
         (Frame.rows (Frame.map_column col f df)).
Proof.
  intros Hdf. unfold Frame.map_column. cbn [Frame.rows]. apply Forall_fmap.
  eapply Forall_impl; [exact Hdf|]. intros r Hr. cbn.
  destruct (decide (c = col)) as [->|Hne].
  - rewrite lookup_insert_eq. eauto.
  - rewrite lookup_insert_ne by (intros Heq; apply Hne; symmetry; exact Heq). exact Hr.
Qed.

Lemma preprocess_is_Some to_numeric df c :
  c ∈ Analyzer.num_cols_in_target
  \/ Forall (fun r : gmap string Frame.cell => is_Some (r !! c)) (Frame.rows df) ->
  Forall (fun r : gmap string Frame.cell => is_Some (r !! c))
         (Frame.rows (Analyzer.preprocess to_numeric df)).
Proof.
  intros Hc. unfold Analyzer.preprocess. cbv zeta.
  apply map_column_is_Some, map_column_is_Some.
  destruct Hc as [Hc|Hc]; [by apply numeric_fold_inserted|by apply numeric_fold_is_Some].
Qed.

Lemma concat_is_Some (dfs : list Frame.DataFrame) c :
  c ∈ Analyzer.union_columns dfs ->
  Forall (fun r : gmap string Frame.cell => is_Some (r !! c))
         (Frame.rows (Analyzer.concat dfs)).
Proof.
  intros Hc. unfold Analyzer.concat. cbv zeta. cbn [Frame.rows].
  apply Forall_forall. intros r Hr.
  apply list_elem_of_join in Hr as (l & Hr & Hl).
  apply list_elem_of_fmap in Hl as (df & -> & Hdf).
  unfold Frame.select in Hr. cbn [Frame.rows] in Hr.
  apply list_elem_of_fmap in Hr as (r0 & -> & Hr0).
  rewrite lookup_list_to_map_fmap by assumption. eauto.
Qed.

Lemma source_frames_labelled w c :
  c ∈ PipelineSpec.source_labels ->
  PipelineSpec.labelled w ->
  Forall (fun df => c ∈ Frame.columns df) (RunSpec.source_frames w).
Proof.
  unfold PipelineSpec.labelled, RunSpec.source_frames, Analyzer.read_sources.
  cbn [fst]. intros Hc Hw. apply Forall_forall. intros df Hdf.
  apply list_elem_of_omap in Hdf as (x & Hx & Hdf).
  apply list_elem_of_fmap in Hx as ([name sr] & -> & Hin).
  rewrite Forall_forall in Hw. specialize (Hw _ Hin). cbn [snd] in Hw.
  unfold Analyzer.read_sheet in Hdf. cbn [snd fst] in Hdf.
  destruct sr as [| |data]; try discriminate.
  destruct (Nat.ltb_spec (length data) 2) as [|Hlen]; [discriminate|].
  cbn [fst] in Hdf. apply (inj Some) in Hdf. rewrite <- Hdf.
  destruct data as [|header body]; [cbn in Hlen; lia|].
  apply add_missing_columns_columns. left. cbn [Frame.of_values Frame.columns].
  destruct Hw as [_ Hw]. rewrite Forall_forall in Hw. by apply Hw.
Qed.

Lemma consolidate_Ok (sort_values : Frame.Sorter) platform clock k groups :
  Forall (fun g : (string * string) * list (gmap string Frame.cell) =>
            Forall OwnershipSpec.has_labels g.2) groups ->
  exists units, Analyzer.consolidate sort_values platform clock k groups = Ok units.
Proof.
  revert k. induction groups as [|[[author conv] group] groups IH]; intros k Hg.
  - by exists [].
  - apply Forall_cons in Hg as [Hg1 Hg2]. cbn [snd] in Hg1.
    destruct (IH (S k) Hg2) as (us & Hus). cbn [Analyzer.consolidate]. rewrite Hus.
    pose proof (consolidate_group_cases sort_values platform (clock k) author conv group Hg1)
      as Hcase.
    destruct (Analyzer.core_thread_tweets sort_values author group) as [|first [|second rest]].
    + rewrite Hcase. by eexists.
    + destruct Hcase as [-> Hl]. rewrite (single_row_Ok _ _ _ _ Hl). by eexists.
    + destruct Hcase as [-> Hl]. rewrite (thread_row_Ok _ _ _ _ _ Hl). by eexists.
Qed.

Lemma consolidate_sources_Ok (sort_values : Frame.Sorter) PLATFORM clock to_numeric w dfs ev :
  Analyzer.read_sources (Analyzer.source_sheets w) = (dfs, ev) ->
  PipelineSpec.labelled w ->
  exists units,
    Analyzer.consolidate sort_values PLATFORM clock 0
      (Analyzer.groupby (Frame.rows (Analyzer.preprocess to_numeric (Analyzer.concat dfs))))
    = Ok units.
Proof.
  intros Hrs Hw. apply consolidate_Ok.
  destruct dfs as [|df0 dfs].
  { assert (Analyzer.groupby
              (Frame.rows (Analyzer.preprocess to_numeric (Analyzer.concat []))) = []) as ->
      by reflexivity.
    constructor. }
  assert (forall c, c ∈ OwnershipSpec.consolidation_labels ->
                    Forall (fun r : gmap string Frame.cell => is_Some (r !! c))
                      (Frame.rows (Analyzer.preprocess to_numeric
                                     (Analyzer.concat (df0 :: dfs))))) as Hlabels.
  { intros c Hc. apply preprocess_is_Some.
    destruct (decide (c ∈ Analyzer.num_cols_in_target)) as [Hn|Hn]; [by left|right].
    apply concat_is_Some, elem_of_union_columns. exists df0. split; [left|].
    destruct (decide (c ∈ PipelineSpec.source_labels)) as [Hs|Hs].
    - pose proof (source_frames_labelled w c Hs Hw) as Hl.
      unfold RunSpec.source_frames in Hl. rewrite Hrs in Hl. cbn [fst] in Hl.
      rewrite Forall_forall in Hl. apply Hl. left.
    - apply (read_sources_standardized (Analyzer.source_sheets w)).
      + rewrite Hrs. left.
      + assert (Forall (fun c => c ∈ Analyzer.num_cols_in_target
                                  \/ c ∈ PipelineSpec.source_labels
                                  \/ c ∈ Analyzer.TARGET_COLUMNS)
                         OwnershipSpec.consolidation_labels) as Hsplit
          by (apply (bool_decide_unpack _); vm_compute; exact I).
        rewrite Forall_forall in Hsplit. destruct (Hsplit c Hc) as [?|[?|?]];
          [contradiction|contradiction|assumption]. }
  apply Forall_forall. intros [k g] Hg. cbn [snd]. apply Forall_forall. intros r Hr.
  pose proof (groupby_rows _ _ _ _ Hg Hr) as Hin.
  unfold OwnershipSpec.has_labels. apply Forall_forall. intros c Hc.
  specialize (Hlabels c Hc). rewrite Forall_forall in Hlabels. by apply Hlabels.
Qed.

Lemma scraper_sheets_labelled w :
  PipelineSpec.scraper_sheets w -> PipelineSpec.labelled w.
Proof.
  unfold PipelineSpec.scraper_sheets, PipelineSpec.labelled. intros Hw.
  eapply Forall_impl; [exact Hw|]. intros [name sr]. cbn [snd].
  destruct sr as [| |[|header body]]; try exact id.
  intros [-> | ->]; split; apply (bool_decide_unpack _); vm_compute; exact I.
Qed.

(** When every source sheet has the columns [Display Name], [Tweet Text]
    and [Tweet Type], as the sheets of both scrapers have, the
    consolidation loop raises no [KeyError] on the pre-processed source and
    returns its units: every other label that the loop reads from a row is
    a target column, which standardization adds to every sheet, or a
    numeric column, which the pre-processing adds. *)
Theorem labelled_sheets_raise_no_key_error (sort_values : Frame.Sorter)
    (PLATFORM : Analyzer.Platform) (clock : nat -> string)
    (to_numeric : Frame.cell -> option Z) (w : Analyzer.World) :
  PipelineSpec.labelled w ->
  exists units, RunSpec.consolidated sort_values PLATFORM clock to_numeric w = Ok units.
Proof.
  intros Hw. unfold RunSpec.consolidated, RunSpec.source_frames.
  destruct (Analyzer.read_sources (Analyzer.source_sheets w)) as [dfs ev1] eqn:Hrs.
  cbn [fst].
  exact (consolidate_sources_Ok sort_values PLATFORM clock to_numeric w dfs ev1 Hrs Hw).
Qed.

Lemma labelled_sheets_raise_no_key_error_reddit :
  exists units,
    RunSpec.consolidated insertion_sorter Analyzer.reddit RunSpec.clock0 RunSpec.to_numeric0
      PipelineSpec.world_after_first_run = Ok units.
Proof.
  apply (labelled_sheets_raise_no_key_error insertion_sorter Analyzer.reddit RunSpec.clock0
           RunSpec.to_numeric0 PipelineSpec.world_after_first_run).
  unfold PipelineSpec.labelled, PipelineSpec.world_after_first_run.
  cbn [Analyzer.source_sheets].
  constructor; [|constructor].
  split; apply (bool_decide_unpack _); vm_compute; exact I.
Defined.
